(** * hex-engine: the Grid container and the Ogmo project / level loader

    A shallow embedding of [Grid] (packages/2d Models) and of the Ogmo
    component file, followed by the properties stated about them.

    Conventions of the embedding:
    - JavaScript numbers that index or size a grid are integers ([Z]);
      the geometric numbers of entity and decal placements are reals ([R]).
    - A [throw] is a [Throw e] result; a method that mutates [this] is a
      function from the grid before the call to the outcome together with
      the grid after the call, so the state reached when a call throws is
      part of the model.
    - JavaScript arrays are lists, read with [!!] and written with
      [array_set], which extends the array the way an indexed assignment
      past the end does. *)

From Stdlib Require Import ZArith String List Lia DecimalString Reals Lra.
From stdpp Require Import base list gmap strings.
From Equations Require Import Equations.

Local Open Scope Z_scope.

(** ** Values, errors and results *)

(** The values a grid cell can hold in this code base: tile indices
    ([Grid<number>]), legend codes ([Grid<string>]), and [undefined]. *)
Inductive value : Type :=
| VUndefined
| VNumber (n : Z)
| VString (s : string).

(** Every [throw] site of the two files, with the data interpolated into
    its message; [RangeError] and [TypeError] are the ones the JavaScript
    runtime raises itself. *)
Inductive Error : Type :=
| RangeError (length : Z)
| TypeError (what : string)
| GridOutOfBounds (sizeX sizeY row column : Z)
| UnresolvedLayer (index : nat) (eid : string)
| UnresolvedTileset (index : nat) (label : string)
| NoEntityFactory (name : string).

Inductive Result (A : Type) : Type :=
| Ok (a : A)
| Throw (e : Error).
Arguments Ok {A} a.
Arguments Throw {A} e.

Definition bindR {A B} (r : Result A) (k : A -> Result B) : Result B :=
  match r with
  | Ok a => k a
  | Throw e => Throw e
  end.

(** [xs.map((x, index) => f(x, index))] with a callback that may throw:
    elements are visited in order and the first throw aborts the map. *)
Fixpoint mapiR {A B} (f : A -> nat -> Result B) (index : nat) (xs : list A)
  : Result (list B) :=
  match xs with
  | [] => Ok []
  | a :: rest =>
      bindR (f a index) (fun b =>
      bindR (mapiR f (S index) rest) (fun bs => Ok (b :: bs)))
  end.

(** Decimal rendering of an integer, as a template literal prints a
    number of magnitude below 10^21. *)
Definition show_Z (n : Z) : string :=
  NilZero.string_of_int (Z.to_int n).

Definition show_nat (n : nat) : string := show_Z (Z.of_nat n).

Definition message (e : Error) : string :=
  match e with
  | RangeError _ => "Invalid array length"
  | TypeError what => what
  | GridOutOfBounds sx sy row column =>
      "Attempted to set data into grid of size '" ++ show_Z sx ++ ", "
        ++ show_Z sy ++ "' at out-of-bounds index: " ++ show_Z row ++ ", "
        ++ show_Z column
  | UnresolvedLayer index eid =>
      "Ogmo level layer " ++ show_nat index
        ++ " referenced non-existent project layer with exportID " ++ eid
  | UnresolvedTileset index label =>
      "Ogmo layer " ++ show_nat index
        ++ " referenced non-existent default tileset: '" ++ label ++ "'"
  | NoEntityFactory name =>
      "No Ogmo entity factory defined for: " ++ name
  end%string.

(** ** JavaScript arrays *)

(** [Array(n)]: a length must be an integer in [0, 2^32 - 1]. *)
Definition Array_ (n : Z) : Result nat :=
  if (n <? 0) || (n >? 4294967295) then Throw (RangeError n)
  else Ok (Z.to_nat n).

(** [a[i] = v]: overwrites in range, otherwise grows the array, the
    skipped slots reading as [hole]. *)
Definition array_set {A} (hole : A) (a : list A) (i : nat) (v : A) : list A :=
  if decide (i < length a)%nat then <[i := v]> a
  else a ++ replicate (i - length a)%nat hole ++ [v].

(** ** Point *)

Module Point.
Record t : Type := new { x : Z; y : Z }.
End Point.

(** ** Grid *)

Module Grid.

Record t : Type := mk {
  size : Point.t;
  data : list (list value);
  defaultValue : value
}.

(** The two overloads of the constructor, as a caller writes them. *)
Inductive Args : Type :=
| RowsColumns (rows columns : Z) (defaultValue : value)
| RowsAndCols (rowsAndCols : Point.t) (defaultValue : value).

(** The three parameters of the implementation signature; an argument
    the caller did not pass is [undefined]. *)
Record Actuals : Type := {
  rowsOrRowsAndCols : Z + Point.t;
  columnsOrDefaultValue : value;
  maybeDefaultValue : value
}.

Definition actuals (a : Args) : Actuals :=
  match a with
  | RowsColumns rows columns d =>
      {| rowsOrRowsAndCols := inl rows;
         columnsOrDefaultValue := VNumber columns;
         maybeDefaultValue := d |}
  | RowsAndCols p d =>
      {| rowsOrRowsAndCols := inr p;
         columnsOrDefaultValue := d;
         maybeDefaultValue := VUndefined |}
  end.

(** Lines 30-35: the store is [columns] arrays of [rows] cells. The inner
    [Array(rows)] is evaluated once per outer element, so it is never
    evaluated when [columns] is 0. *)
Definition allocate (rows columns : Z) (defaultValue : value) : Result t :=
  bindR (Array_ columns) (fun n =>
  bindR (mapiR (fun _ _ =>
                  bindR (Array_ rows) (fun m => Ok (replicate m defaultValue)))
               0%nat (replicate n defaultValue)) (fun data =>
  Ok {| size := Point.new rows columns;
        data := data;
        defaultValue := defaultValue |})).

(** Lines 11-36. The first branch needs both leading arguments to be
    numbers; the other branch reads the extent from the first argument
    and the default from the third parameter. A number followed by a
    non-number fits neither overload signature. *)
Definition constructor_impl (a : Actuals) : Result t :=
  match rowsOrRowsAndCols a, columnsOrDefaultValue a with
  | inl rows, VNumber columns => allocate rows columns (maybeDefaultValue a)
  | inr p, _ => allocate (Point.x p) (Point.y p) (maybeDefaultValue a)
  | inl _, _ => Throw (TypeError "no overload matches this call")
  end.

Definition constructor (a : Args) : Result t := constructor_impl (actuals a).

(** The bounds test shared by [get] and [set] (lines 63-68 and 89-94). *)
Definition out_of_bounds (g : t) (row column : Z) : bool :=
  (row >? Point.x (size g) - 1) || (row <? 0)
  || (column >? Point.y (size g) - 1) || (column <? 0).

(** Lines 53-73, numeric overload. Reading [data[column]] of a store
    that has no such array is a [TypeError]; reading past the end of an
    inner array gives [undefined]. *)
Definition get (g : t) (row column : Z) : Result value :=
  if out_of_bounds g row column then Ok (defaultValue g)
  else
    match data g !! Z.to_nat column with
    | None => Throw (TypeError "cannot read properties of undefined")
    | Some cells => Ok (default VUndefined (cells !! Z.to_nat row))
    end.

(** [get(pos)]. *)
Definition get_at (g : t) (pos : Point.t) : Result value :=
  get g (Point.x pos) (Point.y pos).

(** Methods that mutate the grid: outcome and grid after the call. *)
Definition M (A : Type) : Type := t -> Result A * t.

Definition ret {A} (a : A) : M A := fun g => (Ok a, g).

Definition bind {A B} (m : M A) (k : A -> M B) : M B :=
  fun g =>
    match m g with
    | (Ok a, g') => k a g'
    | (Throw e, g') => (Throw e, g')
    end.

Definition throw {A} (e : Error) : M A := fun g => (Throw e, g).

Definition this : M t := fun g => (Ok g, g).

Definition put_data (d : list (list value)) : M unit :=
  fun g => (Ok tt, {| size := size g; data := d; defaultValue := defaultValue g |}).

Notation "'let*' x := m 'in' k" := (bind m (fun x => k))
  (at level 10, x name, m at level 100, k at level 200).
Notation "'run' m 'in' k" := (bind m (fun _ => k))
  (at level 10, m at level 100, k at level 200).

(** Lines 77-101, numeric overload. *)
Definition set (row column : Z) (v : value) : M unit :=
  let* g := this in
  if out_of_bounds g row column then
    throw (GridOutOfBounds (Point.x (size g)) (Point.y (size g)) row column)
  else
    match data g !! Z.to_nat column with
    | None => throw (TypeError "cannot set properties of undefined")
    | Some cells =>
        put_data (<[Z.to_nat column :=
                      array_set VUndefined cells (Z.to_nat row) v]> (data g))
    end.

(** [set(pos, value)]. *)
Definition set_at (pos : Point.t) (v : value) : M unit :=
  set (Point.x pos) (Point.y pos) v.

(** Lines 38-49: the [for ... of] loop, with the two cursor variables as
    loop state. *)
Fixpoint setData_loop (items : list value) (currentX currentY : Z) : M unit :=
  match items with
  | [] => ret tt
  | item :: rest =>
      let* g := this in
      let '(currentX, currentY) :=
        if currentX + 1 >? Point.x (size g) then (0, currentY + 1)
        else (currentX, currentY) in
      run set currentX currentY item in
      setData_loop rest (currentX + 1) currentY
  end.

Definition setData (items : list value) : M unit := setData_loop items 0 0.

(** *** The generator of [contents()] (lines 103-109)

    A generator object is the suspended frame of the two loops: about to
    test the outer condition, about to test the inner condition, or
    finished. *)
Inductive Frame : Type :=
| AtOuter (i : Z)
| AtInner (i j : Z)
| Finished.

(** Calling [contents()] creates a generator suspended before the first
    statement; nothing of the grid is read yet. *)
Definition contents (g : t) : Frame := AtOuter 0.

Definition frame_measure (g : t) (f : Frame) : nat :=
  match f with
  | AtOuter i => 2 * Z.to_nat (Point.x (size g) - i)
  | AtInner i _ => 2 * Z.to_nat (Point.x (size g) - (i + 1)) + 1
  | Finished => 0
  end.

(** One call of [next()] on the generator: runs the loops up to the next
    [yield], reading the cell from the grid as it is at that moment. *)
Equations? next (g : t) (f : Frame)
  : Result (option (Z * Z * value)) * Frame by wf (frame_measure g f) lt :=
  next g Finished := (Ok None, Finished);
  next g (AtOuter i) with decide (i < Point.x (size g)) => {
    | left _ := next g (AtInner i 0);
    | right _ := (Ok None, Finished) };
  next g (AtInner i j) with decide (j < Point.y (size g)) => {
    | left _ := match get g i j with
                | Ok v => (Ok (Some (i, j, v)), AtInner i (j + 1))
                | Throw e => (Throw e, Finished)
                end;
    | right _ := next g (AtOuter (i + 1)) }.
Proof. all: simpl; lia. Qed.

(** Consuming a generator to the end ([for ... of], spread), at most
    [fuel] calls of [next()]; [None] when the fuel runs out first. *)
Fixpoint drain (fuel : nat) (g : t) (f : Frame)
  : option (Result (list (Z * Z * value))) :=
  match fuel with
  | O => None
  | S fuel' =>
      match next g f with
      | (Throw e, _) => Some (Throw e)
      | (Ok None, _) => Some (Ok [])
      | (Ok (Some triple), f') =>
          match drain fuel' g f' with
          | Some (Ok rest) => Some (Ok (triple :: rest))
          | other => other
          end
      end
  end.

End Grid.

(** ** Ogmo: the data of a project and of a level *)

Module Vector.
Record t : Type := new { x : R; y : R }.
(** [Vector.from(obj)]: a vector with the coordinates of [obj]. *)
Definition from (v : t) : t := new (x v) (y v).
End Vector.

Module OgmoEntityData.
Record t : Type := mk {
  name : string;
  id : Z;
  _eid : string;
  x : R;
  y : R;
  width : option R;
  height : option R;
  originX : option R;
  originY : option R;
  rotation : option R;
  flippedX : option bool;
  flippedY : option bool;
  values : option (gmap string value)
}.

(** [{ ...entData, rotation: r }] *)
Definition with_rotation (entData : t) (r : R) : t :=
  {| name := name entData; id := id entData; _eid := _eid entData;
     x := x entData; y := y entData;
     width := width entData; height := height entData;
     originX := originX entData; originY := originY entData;
     rotation := Some r;
     flippedX := flippedX entData; flippedY := flippedY entData;
     values := values entData |}.
End OgmoEntityData.

Module OgmoDecalData.
Record t : Type := mk {
  x : R;
  y : R;
  scaleX : option R;
  scaleY : option R;
  rotation : option R;
  texture : string;
  values : option (gmap string value)
}.
End OgmoDecalData.

Module OgmoTileset.
Record t : Type := mk {
  label : string;
  path : string;
  tileSize : Vector.t;
  tileSeparation : Vector.t
}.
End OgmoTileset.

(** A tileset as the project file has it. *)
Module RawTileset.
Record t : Type := mk {
  label : string;
  path : string;
  tileWidth : R;
  tileHeight : R;
  tileSeparationX : R;
  tileSeparationY : R
}.
End RawTileset.

(** The four layer definitions. The [definition] discriminator is the
    constructor of [OgmoProjectLayer] below. A tile layer is parametrised by
    what [defaultTileset] holds: a label in the project file, the tileset
    itself once parsed. *)
Module OgmoProjectTileLayer.
Record t (Tileset : Type) : Type := mk {
  name : string;
  gridSize : Vector.t;
  exportID : string;
  exportMode : Z;
  arrayMode : Z;
  defaultTileset : Tileset
}.
Arguments mk {Tileset}.
Arguments name {Tileset}.
Arguments gridSize {Tileset}.
Arguments exportID {Tileset}.
Arguments exportMode {Tileset}.
Arguments arrayMode {Tileset}.
Arguments defaultTileset {Tileset}.
End OgmoProjectTileLayer.

Module OgmoProjectGridLayer.
Record t : Type := mk {
  name : string;
  gridSize : Vector.t;
  exportID : string;
  arrayMode : Z;
  legend : gmap string string
}.
End OgmoProjectGridLayer.

Module OgmoProjectEntityLayer.
Record t : Type := mk {
  name : string;
  gridSize : Vector.t;
  exportID : string;
  requiredTags : list string;
  excludedTags : list string
}.
End OgmoProjectEntityLayer.

Module OgmoProjectDecalLayer.
Record t : Type := mk {
  name : string;
  gridSize : Vector.t;
  exportID : string;
  includeImageSequence : bool;
  scaleable : bool;
  rotatable : bool;
  values : list value
}.
End OgmoProjectDecalLayer.

Inductive ProjectLayer (Tileset : Type) : Type :=
| TileLayer (l : OgmoProjectTileLayer.t Tileset)
| GridLayer (l : OgmoProjectGridLayer.t)
| EntityLayer (l : OgmoProjectEntityLayer.t)
| DecalLayer (l : OgmoProjectDecalLayer.t).
Arguments TileLayer {Tileset} l.
Arguments GridLayer {Tileset} l.
Arguments EntityLayer {Tileset} l.
Arguments DecalLayer {Tileset} l.

(** A layer definition of the project file / of the parsed project. *)
Definition RawProjectLayer : Type := ProjectLayer string.
Definition OgmoProjectLayer : Type := ProjectLayer OgmoTileset.t.

Definition exportID {T} (l : ProjectLayer T) : string :=
  match l with
  | TileLayer l => OgmoProjectTileLayer.exportID l
  | GridLayer l => OgmoProjectGridLayer.exportID l
  | EntityLayer l => OgmoProjectEntityLayer.exportID l
  | DecalLayer l => OgmoProjectDecalLayer.exportID l
  end.

Definition layer_name {T} (l : ProjectLayer T) : string :=
  match l with
  | TileLayer l => OgmoProjectTileLayer.name l
  | GridLayer l => OgmoProjectGridLayer.name l
  | EntityLayer l => OgmoProjectEntityLayer.name l
  | DecalLayer l => OgmoProjectDecalLayer.name l
  end.

Module ProjectData.
Record t : Type := mk {
  tilesets : list RawTileset.t;
  layers : list RawProjectLayer
}.
End ProjectData.

(** A layer instance of a level file. Which of the four payloads is read
    is decided by the project layer the instance resolves to; a payload the
    file does not have is [None] ([undefined]). *)
Module RawLevelLayer.
Record t : Type := mk {
  _eid : string;
  gridCellsX : Z;
  gridCellsY : Z;
  data : option (list value);
  grid : option (list value);
  entities : option (list OgmoEntityData.t);
  decals : option (list OgmoDecalData.t)
}.
End RawLevelLayer.

Module LevelData.
Record t : Type := mk {
  width : R;
  height : R;
  offsetX : R;
  offsetY : R;
  values : gmap string value;
  layers : list RawLevelLayer.t
}.
End LevelData.

Inductive OgmoLevelLayer : Type :=
| LevelTile (projectLayer : OgmoProjectTileLayer.t OgmoTileset.t) (data : Grid.t)
| LevelGrid (projectLayer : OgmoProjectGridLayer.t) (grid : Grid.t)
| LevelEntity (projectLayer : OgmoProjectEntityLayer.t)
    (entities : option (list OgmoEntityData.t))
| LevelDecal (projectLayer : OgmoProjectDecalLayer.t)
    (decals : option (list OgmoDecalData.t)).

Definition projectLayer (l : OgmoLevelLayer) : OgmoProjectLayer :=
  match l with
  | LevelTile pl _ => TileLayer pl
  | LevelGrid pl _ => GridLayer pl
  | LevelEntity pl _ => EntityLayer pl
  | LevelDecal pl _ => DecalLayer pl
  end.

Module OgmoLevelApi.
Record t : Type := mk {
  size : Vector.t;
  offset : Vector.t;
  values : gmap string value;
  layers : list OgmoLevelLayer
}.
End OgmoLevelApi.

(** ** The entity / component runtime

    [useType], [useNewComponent], [useChild], [useEntityName], [useDraw], the
    components [Geometry], [Image], [SpriteSheet] and [TileMap], and the
    caller's factories are collaborators outside this code. A computation
    that talks to them is modelled by the log of the calls it makes, in
    order, together with its result. A call of a factory is logged with its
    argument and with the log of the calls the factory makes while it runs,
    whatever they are. *)

Inductive Component : Type :=
| Geometry (shape : R * R) (position : Vector.t) (rotation : option R)
    (scale : Vector.t)
| Image (url : string)
| SpriteSheet (url : string) (tileWidth tileHeight : R)
| TileMap (sheet : Component) (data : Grid.t).

#[warnings="-register-all"] Inductive Event : Type :=
| UseType (name : string)
| UseNewComponent (c : Component)
| UseChildEnter
| UseChildLeave
| UseEntityName (name : string)
| UseDraw (drawn : Component)
| ImageLoad (url : string)
| EntityFactoryCall (data : OgmoEntityData.t) (body : list Event)
| DecalFactoryCall (data : OgmoDecalData.t) (body : list Event).

Definition Eff (A : Type) : Type := (list Event * Result A)%type.

Definition pureE {A} (a : A) : Eff A := ([], Ok a).

Definition bindE {A B} (m : Eff A) (k : A -> Eff B) : Eff B :=
  match m with
  | (log, Ok a) => let '(log', r) := k a in (log ++ log', r)
  | (log, Throw e) => (log, Throw e)
  end.

Definition emit (ev : Event) : Eff unit := ([ev], Ok tt).

Definition liftR {A} (r : Result A) : Eff A := ([], r).

Notation "'let!' x := m 'in' k" := (bindE m (fun x => k))
  (at level 10, x name, m at level 100, k at level 200).
Notation "'run!' m 'in' k" := (bindE m (fun _ => k))
  (at level 10, m at level 100, k at level 200).

(** [xs.forEach(f)] *)
Fixpoint forEach {A} (f : A -> Eff unit) (xs : list A) : Eff unit :=
  match xs with
  | [] => pureE tt
  | a :: rest => run! f a in forEach f rest
  end.

(** *** Reading a property of the factories object

    [entityFactories] is a plain object: [entityFactories[name]] is the
    factory stored under [name] when the object has that property itself,
    and otherwise what [Object.prototype] has under [name]. *)
Inductive ObjectPrototypeMember : Type :=
| TheObjectFunction
| TheToStringFunction
| ThisConvertingFunction
| ThePrototypeObject.

(** The properties of [Object.prototype]: [constructor] is the function
    [Object]; [valueOf] and the functions listed with it start by converting
    [this] to an object; [__proto__] reads as the prototype object itself. *)
Definition Object_prototype (name : string) : option ObjectPrototypeMember :=
  if String.eqb name "constructor" then Some TheObjectFunction
  else if String.eqb name "toString" then Some TheToStringFunction
  else if existsb (String.eqb name)
            ["valueOf"; "toLocaleString"; "hasOwnProperty"; "isPrototypeOf";
             "propertyIsEnumerable"; "__defineGetter__"; "__defineSetter__";
             "__lookupGetter__"; "__lookupSetter__"]%string
       then Some ThisConvertingFunction
  else if String.eqb name "__proto__" then Some ThePrototypeObject
  else None.

Inductive Property (Entity : Type) : Type :=
| OwnFactory (factory : OgmoEntityData.t -> Eff Entity)
| Inherited (member : ObjectPrototypeMember).
Arguments OwnFactory {Entity} factory.
Arguments Inherited {Entity} member.

Definition get_property {Entity}
    (entityFactories : gmap string (OgmoEntityData.t -> Eff Entity))
    (name : string) : option (Property Entity) :=
  match entityFactories !! name with
  | Some factory => Some (OwnFactory factory)
  | None => Inherited <$> Object_prototype name
  end.

(** What [createEntity] returns: the entity a factory of the caller made
    or, from a function of [Object.prototype], the placement record itself
    ([Object(data)]) or a text ([toString]). *)
Inductive Created (Entity : Type) : Type :=
| AnEntity (entity : Entity)
| TheRecord (data : OgmoEntityData.t)
| TheText (text : string).
Arguments AnEntity {Entity} entity.
Arguments TheRecord {Entity} data.
Arguments TheText {Entity} text.

(** The call [found(data)], with [this] undefined. The language fixes the
    class of the errors thrown here; their texts are those of V8. *)
Definition call_property {Entity} (found : Property Entity)
    (data : OgmoEntityData.t) : Eff (Created Entity) :=
  match found with
  | OwnFactory factory =>
      let '(body, r) := factory data in
      ([EntityFactoryCall data body], bindR r (fun entity => Ok (AnEntity entity)))
  | Inherited TheObjectFunction =>
      ([EntityFactoryCall data []], Ok (TheRecord data))
  | Inherited TheToStringFunction =>
      ([EntityFactoryCall data []], Ok (TheText "[object Undefined]"))
  | Inherited ThisConvertingFunction =>
      ([EntityFactoryCall data []],
       Throw (TypeError "Cannot convert undefined or null to object"))
  | Inherited ThePrototypeObject =>
      ([], Throw (TypeError "factoryForName is not a function"))
  end.

Module OgmoProjectApi.
Record t (Entity : Type) : Type := mk {
  createEntity : OgmoEntityData.t -> Eff (Created Entity);
  createDecal : OgmoDecalData.t -> Eff Entity;
  tilesets : list OgmoTileset.t;
  layers : list OgmoProjectLayer
}.
Arguments mk {Entity}.
Arguments createEntity {Entity}.
Arguments createDecal {Entity}.
Arguments tilesets {Entity}.
Arguments layers {Entity}.
End OgmoProjectApi.

Section Ogmo.
Context {Entity : Type}.

(** The entity that [useChild] hands back for a child whose body made
    the given calls. *)
Variable child_entity : list Event -> Entity.

(** [useChild(body)]: the body runs inside the new child. *)
Definition useChild {A} (body : Eff A) : Eff Entity :=
  run! emit UseChildEnter in
  let '(log, r) := body in
  match r with
  | Ok _ => (log ++ [UseChildLeave], Ok (child_entity log))
  | Throw e => (log, Throw e)
  end.

(** Lines 176-204. *)
Definition OgmoDecal (decalData : OgmoDecalData.t) : Eff unit :=
  run! emit (UseType "Ogmo.Decal") in
  let geometry :=
    Geometry (1, 1)%R
      (Vector.new (OgmoDecalData.x decalData) (OgmoDecalData.y decalData))
      (OgmoDecalData.rotation decalData)
      (Vector.new (default 1%R (OgmoDecalData.scaleX decalData))
                  (default 1%R (OgmoDecalData.scaleY decalData))) in
  run! emit (UseNewComponent geometry) in
  let image := Image (OgmoDecalData.texture decalData) in
  run! emit (UseNewComponent image) in
  run! emit (ImageLoad (OgmoDecalData.texture decalData)) in
  emit (UseDraw image).

(** Lines 367-369. *)
Definition defaultDecalFactory (decalData : OgmoDecalData.t) : Eff Entity :=
  useChild (OgmoDecal decalData).

(** Lines 389-396: [createEntity] of the project object. Whatever the
    property read finds is truthy and is called. *)
Definition createEntity
    (entityFactories : gmap string (OgmoEntityData.t -> Eff Entity))
    (data : OgmoEntityData.t) : Eff (Created Entity) :=
  match get_property entityFactories (OgmoEntityData.name data) with
  | Some factoryForName => call_property factoryForName data
  | None => liftR (Throw (NoEntityFactory (OgmoEntityData.name data)))
  end.

(** Line 397: [decalFactory || defaultDecalFactory]. *)
Definition createDecal
    (decalFactory : option (OgmoDecalData.t -> Eff Entity))
    (decalData : OgmoDecalData.t) : Eff Entity :=
  match decalFactory with
  | Some factory =>
      let '(body, r) := factory decalData in
      ([DecalFactoryCall decalData body], r)
  | None => defaultDecalFactory decalData
  end.

(** Lines 402-412. *)
Definition parse_tileset (tileset : RawTileset.t) : OgmoTileset.t :=
  {| OgmoTileset.label := RawTileset.label tileset;
     OgmoTileset.path := RawTileset.path tileset;
     OgmoTileset.tileSize :=
       Vector.new (RawTileset.tileWidth tileset) (RawTileset.tileHeight tileset);
     OgmoTileset.tileSeparation :=
       Vector.new (RawTileset.tileSeparationX tileset)
                  (RawTileset.tileSeparationY tileset) |}.

(** Lines 415-442: the callback of the map over the project's layers. *)
Definition parse_project_layer (tilesets : list OgmoTileset.t)
    (layer : RawProjectLayer) (index : nat) : Result OgmoProjectLayer :=
  match layer with
  | TileLayer l =>
      match find (fun tileset =>
                    String.eqb (OgmoTileset.label tileset)
                               (OgmoProjectTileLayer.defaultTileset l))
                 tilesets with
      | None =>
          Throw (UnresolvedTileset index (OgmoProjectTileLayer.defaultTileset l))
      | Some tileset =>
          Ok (TileLayer
                {| OgmoProjectTileLayer.name := OgmoProjectTileLayer.name l;
                   OgmoProjectTileLayer.gridSize :=
                     Vector.from (OgmoProjectTileLayer.gridSize l);
                   OgmoProjectTileLayer.exportID := OgmoProjectTileLayer.exportID l;
                   OgmoProjectTileLayer.exportMode := OgmoProjectTileLayer.exportMode l;
                   OgmoProjectTileLayer.arrayMode := OgmoProjectTileLayer.arrayMode l;
                   OgmoProjectTileLayer.defaultTileset := tileset |})
      end
  | GridLayer l =>
      Ok (GridLayer
            {| OgmoProjectGridLayer.name := OgmoProjectGridLayer.name l;
               OgmoProjectGridLayer.gridSize :=
                 Vector.from (OgmoProjectGridLayer.gridSize l);
               OgmoProjectGridLayer.exportID := OgmoProjectGridLayer.exportID l;
               OgmoProjectGridLayer.arrayMode := OgmoProjectGridLayer.arrayMode l;
               OgmoProjectGridLayer.legend := OgmoProjectGridLayer.legend l |})
  | EntityLayer l =>
      Ok (EntityLayer
            {| OgmoProjectEntityLayer.name := OgmoProjectEntityLayer.name l;
               OgmoProjectEntityLayer.gridSize :=
                 Vector.from (OgmoProjectEntityLayer.gridSize l);
               OgmoProjectEntityLayer.exportID := OgmoProjectEntityLayer.exportID l;
               OgmoProjectEntityLayer.requiredTags :=
                 OgmoProjectEntityLayer.requiredTags l;
               OgmoProjectEntityLayer.excludedTags :=
                 OgmoProjectEntityLayer.excludedTags l |})
  | DecalLayer l =>
      Ok (DecalLayer
            {| OgmoProjectDecalLayer.name := OgmoProjectDecalLayer.name l;
               OgmoProjectDecalLayer.gridSize :=
                 Vector.from (OgmoProjectDecalLayer.gridSize l);
               OgmoProjectDecalLayer.exportID := OgmoProjectDecalLayer.exportID l;
               OgmoProjectDecalLayer.includeImageSequence :=
                 OgmoProjectDecalLayer.includeImageSequence l;
               OgmoProjectDecalLayer.scaleable := OgmoProjectDecalLayer.scaleable l;
               OgmoProjectDecalLayer.rotatable := OgmoProjectDecalLayer.rotatable l;
               OgmoProjectDecalLayer.values := OgmoProjectDecalLayer.values l |})
  end.

(** Lines 379-469: [Ogmo.Project]. The result is the [project] object that
    [useLevel] closes over. *)
Definition OgmoProject (projectData : ProjectData.t)
    (entityFactories : gmap string (OgmoEntityData.t -> Eff Entity))
    (decalFactory : option (OgmoDecalData.t -> Eff Entity))
  : Eff (OgmoProjectApi.t Entity) :=
  run! emit (UseType "Ogmo.Project") in
  let tilesets := map parse_tileset (ProjectData.tilesets projectData) in
  let! layers :=
    liftR (mapiR (parse_project_layer tilesets) 0%nat
                 (ProjectData.layers projectData)) in
  pureE {| OgmoProjectApi.createEntity := createEntity entityFactories;
           OgmoProjectApi.createDecal := createDecal decalFactory;
           OgmoProjectApi.tilesets := tilesets;
           OgmoProjectApi.layers := layers |}.

(** [grid.setData(flat)] on a fresh grid, for a [flat] that may be
    missing from the level file. *)
Definition load_grid (cellsX cellsY : Z) (defaultValue : value)
    (flat : option (list value)) : Result Grid.t :=
  bindR (Grid.constructor (Grid.RowsColumns cellsX cellsY defaultValue))
    (fun grid =>
       match flat with
       | None => Throw (TypeError "undefined is not iterable")
       | Some items =>
           match Grid.setData items grid with
           | (Ok _, grid') => Ok grid'
           | (Throw e, _) => Throw e
           end
       end).

(** Lines 258-302: the callback of the map over the level's layers. *)
Definition parse_level_layer (project : OgmoProjectApi.t Entity)
    (layer : RawLevelLayer.t) (index : nat) : Result OgmoLevelLayer :=
  match find (fun projectLayer =>
                String.eqb (exportID projectLayer) (RawLevelLayer._eid layer))
             (OgmoProjectApi.layers project) with
  | None => Throw (UnresolvedLayer index (RawLevelLayer._eid layer))
  | Some (TileLayer pl) =>
      bindR (load_grid (RawLevelLayer.gridCellsX layer)
                       (RawLevelLayer.gridCellsY layer) (VNumber 0)
                       (RawLevelLayer.data layer))
            (fun grid => Ok (LevelTile pl grid))
  | Some (GridLayer pl) =>
      bindR (load_grid (RawLevelLayer.gridCellsX layer)
                       (RawLevelLayer.gridCellsY layer) (VString EmptyString)
                       (RawLevelLayer.grid layer))
            (fun grid => Ok (LevelGrid pl grid))
  | Some (EntityLayer pl) => Ok (LevelEntity pl (RawLevelLayer.entities layer))
  | Some (DecalLayer pl) => Ok (LevelDecal pl (RawLevelLayer.decals layer))
  end.

(** Lines 341-343: a falsy rotation (absent or 0) becomes 0. *)
Definition radians (rotation : option R) : R :=
  match rotation with
  | None => 0%R
  | Some degrees =>
      if Req_dec_T degrees 0 then 0%R else (degrees * (PI / 180))%R
  end.

(** [array.forEach] on a value that may be [undefined]. *)
Definition forEach_opt {A} (f : A -> Eff unit) (xs : option (list A)) : Eff unit :=
  match xs with
  | None => liftR (Throw (TypeError "cannot read properties of undefined"))
  | Some xs => forEach f xs
  end.

(** Lines 305-355: the callback of [layers.forEach]. *)
Definition realize_layer (project : OgmoProjectApi.t Entity)
    (layer : OgmoLevelLayer) : Eff unit :=
  run! useChild (
    run! emit (UseEntityName (layer_name (projectLayer layer))) in
    match layer with
    | LevelTile pl data =>
        let tileset := OgmoProjectTileLayer.defaultTileset pl in
        let spriteSheet :=
          SpriteSheet (OgmoTileset.path tileset)
                      (Vector.x (OgmoTileset.tileSize tileset))
                      (Vector.y (OgmoTileset.tileSize tileset)) in
        run! emit (UseNewComponent spriteSheet) in
        let tilemap := TileMap spriteSheet data in
        run! emit (UseNewComponent tilemap) in
        emit (UseDraw tilemap)
    | LevelGrid _ _ => pureE tt
    | LevelEntity _ entities =>
        forEach_opt (fun entData =>
          run! OgmoProjectApi.createEntity project
                 (OgmoEntityData.with_rotation entData
                    (radians (OgmoEntityData.rotation entData))) in
          pureE tt) entities
    | LevelDecal _ decals =>
        forEach_opt (fun decalData =>
          run! OgmoProjectApi.createDecal project decalData in
          pureE tt) decals
    end) in
  pureE tt.

(** Lines 254-363: [Ogmo.Level]. *)
Definition OgmoLevel (project : OgmoProjectApi.t Entity)
    (levelData : LevelData.t) : Eff OgmoLevelApi.t :=
  run! emit (UseType "Ogmo.Level") in
  let! layers :=
    liftR (mapiR (parse_level_layer project) 0%nat
                 (LevelData.layers levelData)) in
  run! forEach (realize_layer project) layers in
  pureE {| OgmoLevelApi.size :=
             Vector.new (LevelData.width levelData) (LevelData.height levelData);
           OgmoLevelApi.offset :=
             Vector.new (LevelData.offsetX levelData) (LevelData.offsetY levelData);
           OgmoLevelApi.values := LevelData.values levelData;
           OgmoLevelApi.layers := layers |}.

End Ogmo.

(** ** Vocabulary of the statements *)

(** The shape every grid built by the constructor has, and that [set]
    keeps: [size.y] inner arrays of [size.x] cells each. *)
Definition wf (g : Grid.t) : Prop :=
  Z.of_nat (length (Grid.data g)) = Point.y (Grid.size g)
  /\ Forall (fun cells => Z.of_nat (length cells) = Point.x (Grid.size g))
            (Grid.data g).

Definition in_bounds (g : Grid.t) (row column : Z) : Prop :=
  0 <= row < Point.x (Grid.size g) /\ 0 <= column < Point.y (Grid.size g).

(** The element of a flat array at an integer index, [undefined] outside. *)
Definition flat_at (flat : list value) (k : Z) : value :=
  if k <? 0 then VUndefined else default VUndefined (flat !! Z.to_nat k).

(** What a traversal by [contents()] is expected to yield at linear
    position [k], and from position [k] to the end. *)
Definition cell (g : Grid.t) (row column : Z) : value :=
  match Grid.get g row column with
  | Ok v => v
  | Throw _ => VUndefined
  end.

Definition visit (g : Grid.t) (k : Z) : Z * Z * value :=
  let h := Point.y (Grid.size g) in
  (k / h, k mod h, cell g (k / h) (k mod h)).

Definition visits (g : Grid.t) (k : Z) : list (Z * Z * value) :=
  visit g <$> seqZ k (Point.x (Grid.size g) * Point.y (Grid.size g) - k).

(** The tileset a label names among the parsed tilesets, and the project
    layer an export identifier names: the first match, as [Array.find]. *)
Definition tileset_labelled (tilesets : list OgmoTileset.t) (label : string)
  : option OgmoTileset.t :=
  find (fun tileset => String.eqb (OgmoTileset.label tileset) label) tilesets.

Definition layer_exported (layers : list OgmoProjectLayer) (eid : string)
  : option OgmoProjectLayer :=
  find (fun projectLayer => String.eqb (exportID projectLayer) eid) layers.

(** A tile layer of the project file whose default tileset is not among
    the tilesets. *)
Definition unresolved_tileset (tilesets : list OgmoTileset.t)
    (layer : RawProjectLayer) : Prop :=
  match layer with
  | TileLayer l =>
      tileset_labelled tilesets (OgmoProjectTileLayer.defaultTileset l) = None
  | _ => False
  end.

(** The arguments of the factory calls recorded in a log, in order. The
    calls made inside a factory are part of that factory's call, not of the
    log itself. *)
Definition entity_calls (log : list Event) : list OgmoEntityData.t :=
  omap (fun ev => match ev with EntityFactoryCall d _ => Some d | _ => None end) log.

Definition decal_calls (log : list Event) : list OgmoDecalData.t :=
  omap (fun ev => match ev with DecalFactoryCall d _ => Some d | _ => None end) log.

(** The rotations of the [Geometry] components created in a log. *)
Definition geometry_rotations (log : list Event) : list (option R) :=
  omap (fun ev => match ev with
                  | UseNewComponent (Geometry _ _ rotation _) => Some rotation
                  | _ => None
                  end) log.

(** The record the entity case of the realization passes on. *)
Definition in_radians (entData : OgmoEntityData.t) : OgmoEntityData.t :=
  OgmoEntityData.with_rotation entData (radians (OgmoEntityData.rotation entData)).

(** ** Sample data

    A 3 by 2 grid of zeros, and a small project and level: one tileset, a
    tile layer, an entity layer and a decal layer. Entities are units
    here. *)

Definition grid_3_2 : Grid.t :=
  Grid.mk (Point.new 3 2)
          [[VNumber 0; VNumber 0; VNumber 0]; [VNumber 0; VNumber 0; VNumber 0]]
          (VNumber 0).

Definition one_to_six : list value := VNumber <$> [1; 2; 3; 4; 5; 6].

Definition sample_tile_layer (label : string) : RawProjectLayer :=
  TileLayer {| OgmoProjectTileLayer.name := "ground";
               OgmoProjectTileLayer.gridSize := Vector.new 16 16;
               OgmoProjectTileLayer.exportID := "L1";
               OgmoProjectTileLayer.exportMode := 0;
               OgmoProjectTileLayer.arrayMode := 0;
               OgmoProjectTileLayer.defaultTileset := label |}.

Definition sample_entity_layer : OgmoProjectEntityLayer.t :=
  {| OgmoProjectEntityLayer.name := "actors";
     OgmoProjectEntityLayer.gridSize := Vector.new 16 16;
     OgmoProjectEntityLayer.exportID := "L2";
     OgmoProjectEntityLayer.requiredTags := [];
     OgmoProjectEntityLayer.excludedTags := [] |}.

Definition sample_decal_layer : OgmoProjectDecalLayer.t :=
  {| OgmoProjectDecalLayer.name := "decor";
     OgmoProjectDecalLayer.gridSize := Vector.new 16 16;
     OgmoProjectDecalLayer.exportID := "L3";
     OgmoProjectDecalLayer.includeImageSequence := false;
     OgmoProjectDecalLayer.scaleable := true;
     OgmoProjectDecalLayer.rotatable := true;
     OgmoProjectDecalLayer.values := [] |}.

(** The project file; [label] is the default tileset its tile layer names. *)
Definition sample_project (label : string) : ProjectData.t :=
  {| ProjectData.tilesets :=
       [ {| RawTileset.label := "tiles"; RawTileset.path := "tiles.png";
            RawTileset.tileWidth := 16; RawTileset.tileHeight := 16;
            RawTileset.tileSeparationX := 0; RawTileset.tileSeparationY := 0 |} ];
     ProjectData.layers :=
       [ sample_tile_layer label;
         EntityLayer sample_entity_layer;
         DecalLayer sample_decal_layer ] |}.

Definition sample_entity (name : string) (rotation : option R) : OgmoEntityData.t :=
  {| OgmoEntityData.name := name; OgmoEntityData.id := 1;
     OgmoEntityData._eid := "E1";
     OgmoEntityData.x := 8; OgmoEntityData.y := 8;
     OgmoEntityData.width := None; OgmoEntityData.height := None;
     OgmoEntityData.originX := None; OgmoEntityData.originY := None;
     OgmoEntityData.rotation := rotation;
     OgmoEntityData.flippedX := None; OgmoEntityData.flippedY := None;
     OgmoEntityData.values := None |}.

Definition sample_decal : OgmoDecalData.t :=
  {| OgmoDecalData.x := 4; OgmoDecalData.y := 4;
     OgmoDecalData.scaleX := None; OgmoDecalData.scaleY := None;
     OgmoDecalData.rotation := Some 1.2%R;
     OgmoDecalData.texture := "bush.png";
     OgmoDecalData.values := None |}.

(** The factory of players creates a child named after the record. *)
Definition player_factory (entData : OgmoEntityData.t) : Eff unit :=
  ([UseChildEnter; UseEntityName (OgmoEntityData.name entData); UseChildLeave],
   Ok tt).

Definition sample_factories : gmap string (OgmoEntityData.t -> Eff unit) :=
  {[ "player"%string := player_factory ]}.

(** A decal factory of the caller: one child with an image. *)
Definition picture_factory (decalData : OgmoDecalData.t) : Eff unit :=
  ([UseChildEnter; UseNewComponent (Image (OgmoDecalData.texture decalData));
    UseChildLeave], Ok tt).

Definition no_child (log : list Event) : unit := tt.

(** A layer instance of a level: its export identifier and, for a tile
    layer, the cell extent and the flat tile array. *)
Definition sample_level_layer (eid : string) (cellsX cellsY : Z)
    (data : option (list value)) : RawLevelLayer.t :=
  {| RawLevelLayer._eid := eid;
     RawLevelLayer.gridCellsX := cellsX; RawLevelLayer.gridCellsY := cellsY;
     RawLevelLayer.data := data; RawLevelLayer.grid := None;
     RawLevelLayer.entities := None; RawLevelLayer.decals := None |}.

Definition sample_level (layers : list RawLevelLayer.t) : LevelData.t :=
  {| LevelData.width := 48; LevelData.height := 32;
     LevelData.offsetX := 0; LevelData.offsetY := 0;
     LevelData.values := ∅;
     LevelData.layers := layers |}.

(** The sample project as [Ogmo.Project] parses it, with or without a
    decal factory of the caller. *)
Definition sample_api_with (decalFactory : option (OgmoDecalData.t -> Eff unit))
  : OgmoProjectApi.t unit :=
  match snd (OgmoProject no_child (sample_project "tiles") sample_factories
                         decalFactory) with
  | Ok project => project
  | Throw _ =>
      {| OgmoProjectApi.createEntity := createEntity sample_factories;
         OgmoProjectApi.createDecal := createDecal no_child decalFactory;
         OgmoProjectApi.tilesets := [];
         OgmoProjectApi.layers := [] |}
  end.

Definition sample_api : OgmoProjectApi.t unit := sample_api_with None.

(** Two levels with a layer that no project layer exports, after a tile
    layer whose flat array does not fit its 1 by 1 grid, and after one whose
    array fits its 3 by 2 grid. *)
Definition level_overfull_then_unmatched : LevelData.t :=
  sample_level [ sample_level_layer "L1" 1 1 (Some [VNumber 1; VNumber 2]);
                 sample_level_layer "nowhere" 0 0 None ].

Definition level_then_unmatched : LevelData.t :=
  sample_level [ sample_level_layer "L1" 3 2 (Some one_to_six);
                 sample_level_layer "nowhere" 0 0 None ].

Definition level_tiles_only : LevelData.t :=
  sample_level [ sample_level_layer "L1" 3 2 (Some one_to_six) ].

(** ** Vocabulary of the further statements *)

(** The rows and columns a constructor call asks for. *)
Definition extent (a : Grid.Args) : Z * Z :=
  match a with
  | Grid.RowsColumns rows columns _ => (rows, columns)
  | Grid.RowsAndCols p _ => (Point.x p, Point.y p)
  end.

(** The largest length [Array(n)] accepts. *)
Definition max_array_length : Z := 4294967295.

(** Running two grid methods one after the other, for their effect. *)
Definition and_then (first second : Grid.M unit) : Grid.M unit :=
  Grid.bind first (fun _ => second).

(** Calling [next()] [n] times on a generator: the triples obtained and the
    frame the generator is left in; the calls stop at the first one that
    reports the end or throws. *)
Fixpoint take_next (n : nat) (g : Grid.t) (f : Grid.Frame)
  : list (Z * Z * value) * Grid.Frame :=
  match n with
  | O => ([], f)
  | S n' =>
      match Grid.next g f with
      | (Ok (Some triple), f') =>
          let '(rest, f'') := take_next n' g f' in (triple :: rest, f'')
      | (_, f') => ([], f')
      end
  end.

(** The [definition] discriminator of a project layer. *)
Definition definition {T} (l : ProjectLayer T) : string :=
  match l with
  | TileLayer _ => "tile"
  | GridLayer _ => "grid"
  | EntityLayer _ => "entity"
  | DecalLayer _ => "decal"
  end.

(** Every call of a run in the order it was made: the call of a factory
    of the caller stands for the calls made while the factory ran. *)
Fixpoint calls_of (ev : Event) : list Event :=
  match ev with
  | EntityFactoryCall _ body => flat_map calls_of body
  | DecalFactoryCall _ body => flat_map calls_of body
  | _ => [ev]
  end.

Definition all_calls (log : list Event) : list Event := flat_map calls_of log.

(** The calls made inside the factories of the caller while one layer of a
    level is realized: for each entity of an entity layer, those of the
    factory registered under its name, run on the record with its rotation
    in radians; for each decal of a decal layer, those of the caller's decal
    factory. *)
Definition made_by_factories {Entity : Type}
    (entityFactories : gmap string (OgmoEntityData.t -> Eff Entity))
    (decalFactory : option (OgmoDecalData.t -> Eff Entity))
    (layer : OgmoLevelLayer) : list Event :=
  match layer with
  | LevelEntity _ (Some entities) =>
      flat_map (fun entData =>
                  match entityFactories !! OgmoEntityData.name entData with
                  | Some factory => all_calls (fst (factory (in_radians entData)))
                  | None => []
                  end) entities
  | LevelDecal _ (Some decals) =>
      match decalFactory with
      | Some factory =>
          flat_map (fun decalData => all_calls (fst (factory decalData))) decals
      | None => []
      end
  | _ => []
  end.

(** The names given to child entities in a log, in order. *)
Definition entity_names (log : list Event) : list string :=
  omap (fun ev => match ev with UseEntityName name => Some name | _ => None end) log.

(** A grid of the given extent and default value that holds the flat array
    [items] from its first cell on, in the order of [setData], and the
    default value in the cells after it. *)
Definition loaded_from (grid : Grid.t) (cellsX cellsY : Z) (d : value)
    (items : list value) : Prop :=
  wf grid
  /\ Grid.size grid = Point.new cellsX cellsY
  /\ Grid.defaultValue grid = d
  /\ Z.of_nat (length items) <= cellsX * cellsY
  /\ (forall k, 0 <= k < Z.of_nat (length items) ->
        Grid.get grid (k mod cellsX) (k / cellsX) = Ok (flat_at items k))
  /\ (forall k, Z.of_nat (length items) <= k < cellsX * cellsY ->
        Grid.get grid (k mod cellsX) (k / cellsX) = Ok d).

(** ** Label (Components/Label.ts, lines 7-55)

    The font is a collaborator: what it measures for a text and whether it
    is ready to draw are given with the font as it is at the time of a call.
    A call of [drawText] is recorded with its arguments. *)

Module FontMetrics.
Record t : Type := mk { width : R; height : R; descender : R }.
End FontMetrics.

Module FontImplementation.
Record t : Type := mk {
  measureText : string -> FontMetrics.t;
  readyToDraw : bool
}.
End FontImplementation.

Module Label.
Record t : Type := mk { text : string; size : Vector.t }.

Inductive DrawCall : Type :=
| DrawText (text : string) (x y : R).

(** Lines 23-27. *)
Definition updateSize (font : FontImplementation.t) (label : t) : t :=
  let metrics := FontImplementation.measureText font (text label) in
  mk (text label)
     (Vector.new (FontMetrics.width metrics)
                 (FontMetrics.height metrics + FontMetrics.descender metrics)%R).

(** Lines 7-30: the text defaults to the empty string, the size starts at
    (0, 0) and is measured at once. *)
Definition new (text : option string) (font : FontImplementation.t) : t :=
  updateSize font (mk (default EmptyString text) (Vector.new 0 0)).

(** Line 30: the function registered with [useUpdate]. *)
Definition onUpdate (font : FontImplementation.t) (label : t) : t :=
  updateSize font label.

(** Lines 47-49 and 50-53: the [text] accessors. *)
Definition get_text (label : t) : string := text label.

Definition set_text (font : FontImplementation.t) (nextValue : string)
    (label : t) : t :=
  updateSize font (mk nextValue (size label)).

(** Lines 34-46: [x] and [y] default to 0 when they are not given. *)
Definition draw (font : FontImplementation.t) (label : t) (x y : option R)
  : list DrawCall :=
  if FontImplementation.readyToDraw font
  then [DrawText (text label) (default 0%R x) (default 0%R y)]
  else [].

(** What happens to a label: an assignment to [text], or a frame. *)
Inductive Call : Type :=
| Assign (nextValue : string)
| Frame.

Definition step (font : FontImplementation.t) (label : t) (c : Call) : t :=
  match c with
  | Assign nextValue => set_text font nextValue label
  | Frame => onUpdate font label
  end.

Definition run (font : FontImplementation.t) (calls : list Call) (label : t) : t :=
  fold_left (step font) calls label.

(** The texts assigned by a list of calls, in order. *)
Definition assigned (calls : list Call) : list string :=
  omap (fun c => match c with Assign v => Some v | Frame => None end) calls.
End Label.

(** The size a font measures for a text. *)
Definition measured (font : FontImplementation.t) (text : string) : Vector.t :=
  let metrics := FontImplementation.measureText font text in
  Vector.new (FontMetrics.width metrics)
             (FontMetrics.height metrics + FontMetrics.descender metrics)%R.

(** The 3 by 2 grid of zeros after [set(2, 1, 9)]. *)
Definition grid_3_2_written : Grid.t :=
  Grid.mk (Point.new 3 2)
          [[VNumber 0; VNumber 0; VNumber 0]; [VNumber 0; VNumber 0; VNumber 9]]
          (VNumber 0).

(** A font that is ready, 10 high with a descender of 2, and as wide as the
    text is long. *)
Definition sample_font : FontImplementation.t :=
  {| FontImplementation.measureText :=
       fun text => FontMetrics.mk (INR (String.length text)) 10 2;
     FontImplementation.readyToDraw := true |}.

(** The components created in a log, in order. *)
Definition components (log : list Event) : list Component :=
  omap (fun ev => match ev with UseNewComponent c => Some c | _ => None end) log.

(** The two components of a decal realized by default. *)
Definition decal_components (decalData : OgmoDecalData.t) : list Component :=
  [ Geometry (1, 1)%R
      (Vector.new (OgmoDecalData.x decalData) (OgmoDecalData.y decalData))
      (OgmoDecalData.rotation decalData)
      (Vector.new (default 1%R (OgmoDecalData.scaleX decalData))
                  (default 1%R (OgmoDecalData.scaleY decalData)));
    Image (OgmoDecalData.texture decalData) ].

(** The two components of a realized tile layer. *)
Definition tile_components (pl : OgmoProjectTileLayer.t OgmoTileset.t)
    (data : Grid.t) : list Component :=
  let tileset := OgmoProjectTileLayer.defaultTileset pl in
  let sheet :=
    SpriteSheet (OgmoTileset.path tileset)
                (Vector.x (OgmoTileset.tileSize tileset))
                (Vector.y (OgmoTileset.tileSize tileset)) in
  [ sheet; TileMap sheet data ].

(** Layer instances and levels for the entity and decal layers of the
    sample project. *)
Definition sample_entities (entities : list OgmoEntityData.t) : RawLevelLayer.t :=
  {| RawLevelLayer._eid := "L2";
     RawLevelLayer.gridCellsX := 0; RawLevelLayer.gridCellsY := 0;
     RawLevelLayer.data := None; RawLevelLayer.grid := None;
     RawLevelLayer.entities := Some entities; RawLevelLayer.decals := None |}.

Definition sample_decals (decals : list OgmoDecalData.t) : RawLevelLayer.t :=
  {| RawLevelLayer._eid := "L3";
     RawLevelLayer.gridCellsX := 0; RawLevelLayer.gridCellsY := 0;
     RawLevelLayer.data := None; RawLevelLayer.grid := None;
     RawLevelLayer.entities := None; RawLevelLayer.decals := Some decals |}.

Definition level_with_player : LevelData.t :=
  sample_level [ sample_level_layer "L1" 3 2 (Some one_to_six);
                 sample_entities [sample_entity "player" (Some 90%R)] ].

Definition level_with_decal : LevelData.t :=
  sample_level [ sample_level_layer "L1" 3 2 (Some one_to_six);
                 sample_decals [sample_decal] ].

Lemma out_of_bounds_false g row column :
  Grid.out_of_bounds g row column = false <-> in_bounds g row column.
Proof.
  unfold Grid.out_of_bounds, in_bounds.
  rewrite !orb_false_iff, !Z.gtb_ltb, !Z.ltb_ge. lia.
Qed.

Lemma out_of_bounds_true g row column :
  Grid.out_of_bounds g row column = true <-> ~ in_bounds g row column.
Proof.
  rewrite <- out_of_bounds_false. destruct (Grid.out_of_bounds g row column); split; congruence.
Qed.

Lemma mapiR_const {A B} (b : B) (xs : list A) i :
  mapiR (fun _ _ => Ok b) i xs = Ok (replicate (length xs) b).
Proof.
  revert i. induction xs as [|a xs IH]; intros i; simpl; [reflexivity|].
  rewrite IH. reflexivity.
Qed.

Lemma Array_ok n : 0 <= n <= 4294967295 -> Array_ n = Ok (Z.to_nat n).
Proof.
  intros H. unfold Array_.
  destruct (n <? 0) eqn:E1; [lia|]. destruct (n >? 4294967295) eqn:E2; [lia|]. reflexivity.
Qed.

Lemma Array_inv n m : Array_ n = Ok m -> 0 <= n <= 4294967295 /\ m = Z.to_nat n.
Proof.
  unfold Array_. destruct (n <? 0) eqn:E1; [discriminate|].
  destruct (n >? 4294967295) eqn:E2; [discriminate|]. intros [= <-]. lia.
Qed.

Lemma allocate_inv rows columns d g :
  Grid.allocate rows columns d = Ok g ->
  g = Grid.mk (Point.new rows columns)
              (replicate (Z.to_nat columns) (replicate (Z.to_nat rows) d)) d
  /\ 0 <= columns <= 4294967295
  /\ (columns = 0 \/ 0 <= rows <= 4294967295).
Proof.
  unfold Grid.allocate. destruct (Array_ columns) as [n|e] eqn:En; [|discriminate].
  apply Array_inv in En as [Hc ->]. simpl.
  destruct (Z.to_nat columns) as [|n] eqn:Ec.
  - simpl. intros [= <-]. split; [reflexivity|]. split; [lia|]. left. lia.
  - destruct (Array_ rows) as [m|e] eqn:Em.
    + apply Array_inv in Em as [Hr ->].
      cbn [bindR]. rewrite (mapiR_const (replicate (Z.to_nat rows) d)).
      rewrite length_replicate. cbn [bindR].
      intros [= <-]. split; [reflexivity|]. split; [lia|]. right; lia.
    + simpl. discriminate.
Qed.

Lemma area_pos w h k : 0 <= h -> 0 <= k < w * h -> 0 < h /\ 0 < w.
Proof.
  intros Hh Hk.
  assert (0 < h).
  { destruct (decide (h = 0)) as [E|]; [rewrite E, Z.mul_0_r in Hk; lia|lia]. }
  split; [assumption|]. nia.
Qed.

Lemma wf_cells g row column :
  wf g -> in_bounds g row column ->
  exists cells v,
    Grid.data g !! Z.to_nat column = Some cells
    /\ Z.of_nat (length cells) = Point.x (Grid.size g)
    /\ cells !! Z.to_nat row = Some v.
Proof.
  intros [Hlen Hrows] [Hr Hc].
  destruct (lookup_lt_is_Some_2 (Grid.data g) (Z.to_nat column)) as [cells Hcells]; [lia|].
  pose proof (Forall_lookup_1 _ _ _ _ Hrows Hcells) as Hw. simpl in Hw.
  destruct (lookup_lt_is_Some_2 cells (Z.to_nat row)) as [v Hv]; [lia|].
  eauto.
Qed.

Lemma get_out g row column :
  ~ in_bounds g row column -> Grid.get g row column = Ok (Grid.defaultValue g).
Proof.
  intros H. apply out_of_bounds_true in H. unfold Grid.get. rewrite H. reflexivity.
Qed.

Lemma get_in g row column :
  wf g -> in_bounds g row column ->
  exists cells v,
    Grid.data g !! Z.to_nat column = Some cells
    /\ cells !! Z.to_nat row = Some v
    /\ Grid.get g row column = Ok v.
Proof.
  intros Hwf Hin. destruct (wf_cells g row column Hwf Hin) as (cells & v & Hc & _ & Hv).
  exists cells, v. split; [assumption|]. split; [assumption|].
  apply out_of_bounds_false in Hin. unfold Grid.get. rewrite Hin, Hc, Hv. reflexivity.
Qed.

Lemma set_out g row column v :
  ~ in_bounds g row column ->
  Grid.set row column v g
  = (Throw (GridOutOfBounds (Point.x (Grid.size g)) (Point.y (Grid.size g)) row column), g).
Proof.
  intros H. apply out_of_bounds_true in H.
  unfold Grid.set, Grid.bind, Grid.this, Grid.throw. rewrite H. reflexivity.
Qed.

Lemma set_in g row column v :
  wf g -> in_bounds g row column ->
  exists g',
    Grid.set row column v g = (Ok tt, g')
    /\ wf g'
    /\ Grid.size g' = Grid.size g
    /\ Grid.defaultValue g' = Grid.defaultValue g
    /\ Grid.get g' row column = Ok v
    /\ forall row' column', (row', column') <> (row, column) ->
         Grid.get g' row' column' = Grid.get g row' column'.
Proof.
  intros Hwf Hin.
  destruct (wf_cells g row column Hwf Hin) as (cells & old & Hc & Hw & Hold).
  pose proof Hin as Hoob. apply out_of_bounds_false in Hoob.
  destruct Hwf as [Hlen Hrows]. destruct Hin as [Hr Hcol].
  assert (Hset : array_set VUndefined cells (Z.to_nat row) v = <[Z.to_nat row := v]> cells).
  { unfold array_set. destruct (decide (Z.to_nat row < length cells)%nat); [reflexivity|lia]. }
  eexists. split.
  { unfold Grid.set, Grid.bind, Grid.this, Grid.put_data. rewrite Hoob, Hc, Hset. reflexivity. }
  split.
  { split; simpl.
    - rewrite length_insert. exact Hlen.
    - apply Forall_insert; [exact Hrows|]. rewrite length_insert. exact Hw. }
  split; [reflexivity|]. split; [reflexivity|]. split.
  { unfold Grid.get, Grid.out_of_bounds in *. simpl. rewrite Hoob.
    rewrite list_lookup_insert_eq by lia.
    rewrite list_lookup_insert_eq by lia. reflexivity. }
  intros row' column' Hne.
  unfold Grid.get, Grid.out_of_bounds. simpl.
  destruct ((row' >? Point.x (Grid.size g) - 1) || (row' <? 0)
            || (column' >? Point.y (Grid.size g) - 1) || (column' <? 0)) eqn:E;
    [reflexivity|].
  rewrite !orb_false_iff, !Z.gtb_ltb, !Z.ltb_ge in E.
  destruct (decide (Z.to_nat column' = Z.to_nat column)) as [Heq|Hneq].
  - rewrite Heq, list_lookup_insert_eq by lia. rewrite Hc.
    rewrite list_lookup_insert_ne; [reflexivity|].
    intros Hrow. apply Hne. f_equal; lia.
  - rewrite list_lookup_insert_ne by congruence. reflexivity.
Qed.

Lemma wf_nonneg g :
  wf g ->
  0 <= Point.y (Grid.size g)
  /\ 0 <= Point.x (Grid.size g) * Point.y (Grid.size g).
Proof.
  intros [Hlen Hrows]. split; [lia|].
  destruct (Grid.data g) as [|cells rest] eqn:Hd.
  - simpl in Hlen. rewrite <- Hlen. lia.
  - apply Forall_cons in Hrows as [Hc _]. nia.
Qed.

Lemma setData_loop_cons item rest cx cy g :
  Grid.setData_loop (item :: rest) cx cy g
  = let wrap := cx + 1 >? Point.x (Grid.size g) in
    let ex := if wrap then 0 else cx in
    let ey := if wrap then cy + 1 else cy in
    match Grid.set ex ey item g with
    | (Ok _, g1) => Grid.setData_loop rest (ex + 1) ey g1
    | (Throw e, g1) => (Throw e, g1)
    end.
Proof.
  cbn [Grid.setData_loop]. unfold Grid.bind at 1. unfold Grid.this at 1.
  destruct (cx + 1 >? Point.x (Grid.size g)); reflexivity.
Qed.

Lemma cursor_div_mod w ex ey k :
  0 <= ex < w -> k = ey * w + ex -> k mod w = ex /\ k / w = ey.
Proof.
  intros Hex Hk. split; symmetry.
  - apply (Z.mod_unique_pos k w ey ex); lia.
  - apply (Z.div_unique_pos k w ey ex); lia.
Qed.

Lemma flat_at_cons item rest n :
  0 < n -> flat_at (item :: rest) n = flat_at rest (n - 1).
Proof.
  intros Hn. unfold flat_at.
  destruct (n <? 0) eqn:E1; [lia|]. destruct (n - 1 <? 0) eqn:E2; [lia|].
  replace (Z.to_nat n) with (S (Z.to_nat (n - 1))) by lia. reflexivity.
Qed.

(** The loop of [setData] from a cursor [(cx, cy)], when the remaining
    items fit: item [n] lands on linear position [k + n]. *)
Lemma setData_loop_fits items :
  forall cx cy k g,
    wf g ->
    0 < Point.x (Grid.size g) ->
    0 <= cx <= Point.x (Grid.size g) -> 0 <= cy ->
    k = cy * Point.x (Grid.size g) + cx ->
    k + Z.of_nat (length items) <= Point.x (Grid.size g) * Point.y (Grid.size g) ->
    exists g',
      Grid.setData_loop items cx cy g = (Ok tt, g')
      /\ wf g'
      /\ Grid.size g' = Grid.size g
      /\ Grid.defaultValue g' = Grid.defaultValue g
      /\ (forall n, 0 <= n < Z.of_nat (length items) ->
            Grid.get g' ((k + n) mod Point.x (Grid.size g))
                        ((k + n) / Point.x (Grid.size g))
            = Ok (flat_at items n))
      /\ (forall row column,
            ~ (0 <= row < Point.x (Grid.size g)
               /\ k <= column * Point.x (Grid.size g) + row
                    < k + Z.of_nat (length items)) ->
            Grid.get g' row column = Grid.get g row column).
Proof.
  induction items as [|item rest IH]; intros cx cy k g Hwf Hw Hcx Hcy Hk Hfit.
  - exists g. split; [reflexivity|]. split; [assumption|].
    split; [reflexivity|]. split; [reflexivity|]. split.
    + intros n Hn. simpl in Hn. lia.
    + reflexivity.
  - rewrite setData_loop_cons. cbv zeta.
    set (w := Point.x (Grid.size g)) in *. set (h := Point.y (Grid.size g)) in *.
    set (wrap := cx + 1 >? w).
    set (ex := if wrap then 0 else cx). set (ey := if wrap then cy + 1 else cy).
    assert (Hcur : 0 <= ex < w /\ 0 <= ey /\ k = ey * w + ex).
    { subst ex ey wrap. destruct (cx + 1 >? w) eqn:E; lia. }
    destruct Hcur as (Hex & Hey & Hk').
    simpl length in Hfit. 
    assert (Heyh : ey < h) by nia.
    destruct (set_in g ex ey item Hwf) as (g1 & Hset & Hwf1 & Hsz1 & Hd1 & Hget1 & Hoth1).
    { split; fold w h; lia. }
    rewrite Hset.
    destruct (IH (ex + 1) ey (k + 1) g1 Hwf1) as (g' & Hloop & Hwf' & Hsz' & Hd' & Hput & Hkeep).
    { rewrite Hsz1. exact Hw. }
    { rewrite Hsz1. fold w. lia. }
    { exact Hey. }
    { rewrite Hsz1. fold w. lia. }
    { rewrite Hsz1. fold w h. lia. }
    rewrite Hsz1 in Hput, Hkeep. fold w in Hput, Hkeep.
    exists g'. split; [exact Hloop|]. split; [exact Hwf'|].
    split; [congruence|]. split; [congruence|]. split.
    + intros n Hn. simpl length in Hn.
      destruct (decide (n = 0)) as [->|Hn0].
      * rewrite Z.add_0_r.
        destruct (cursor_div_mod w ex ey k Hex Hk') as [-> ->].
        rewrite Hkeep by lia. rewrite Hget1. reflexivity.
      * replace (k + n) with (k + 1 + (n - 1)) by lia.
        rewrite Hput by lia. rewrite flat_at_cons by lia. reflexivity.
    + intros row column Hout. simpl length in Hout.
      rewrite Hkeep by lia. apply Hoth1.
      intros [= -> ->]. apply Hout. lia.
Qed.

(** The loop of [setData] when the remaining items do not fit: the items
    that fit are placed, the next one is refused at [(0, size.y)]. *)
Lemma setData_loop_overrun items :
  forall cx cy k g,
    wf g ->
    0 < Point.x (Grid.size g) ->
    0 <= cx <= Point.x (Grid.size g) -> 0 <= cy ->
    k = cy * Point.x (Grid.size g) + cx ->
    k <= Point.x (Grid.size g) * Point.y (Grid.size g) ->
    Point.x (Grid.size g) * Point.y (Grid.size g) < k + Z.of_nat (length items) ->
    Grid.setData_loop items cx cy g
    = (Throw (GridOutOfBounds (Point.x (Grid.size g)) (Point.y (Grid.size g))
                              0 (Point.y (Grid.size g))),
       snd (Grid.setData_loop
              (take (Z.to_nat (Point.x (Grid.size g) * Point.y (Grid.size g) - k)) items)
              cx cy g)).
Proof.
  induction items as [|item rest IH]; intros cx cy k g Hwf Hw Hcx Hcy Hk Hle Hover.
  - simpl in Hover. lia.
  - rewrite setData_loop_cons. cbv zeta.
    set (w := Point.x (Grid.size g)) in *. set (h := Point.y (Grid.size g)) in *.
    set (wrap := cx + 1 >? w).
    set (ex := if wrap then 0 else cx). set (ey := if wrap then cy + 1 else cy).
    assert (Hcur : 0 <= ex < w /\ 0 <= ey /\ k = ey * w + ex).
    { subst ex ey wrap. destruct (cx + 1 >? w) eqn:E; lia. }
    destruct Hcur as (Hex & Hey & Hk').
    simpl length in Hover.
    destruct (decide (k < w * h)) as [Hlt|Hge].
    + assert (Heyh : ey < h) by nia.
      destruct (set_in g ex ey item Hwf) as (g1 & Hset & Hwf1 & Hsz1 & Hd1 & Hget1 & Hoth1).
      { split; fold w h; lia. }
      rewrite Hset.
      replace (Z.to_nat (w * h - k)) with (S (Z.to_nat (w * h - (k + 1)))) by lia.
      cbn [take]. rewrite setData_loop_cons. cbv zeta.
      fold w wrap ex ey. rewrite Hset.
      rewrite (IH (ex + 1) ey (k + 1) g1 Hwf1); rewrite ?Hsz1; fold w h; try lia.
      reflexivity.
    + assert (Hkeq : k = h * w) by lia.
      destruct (cursor_div_mod w ex ey k Hex Hk') as [Hm Hd].
      rewrite Hkeq in Hm, Hd.
      rewrite Z.mod_mul in Hm by lia. rewrite Z.div_mul in Hd by lia.
      rewrite <- Hm, <- Hd.
      rewrite set_out. 2:{ unfold in_bounds. fold w h. lia. }
      replace (Z.to_nat (w * h - k)) with 0%nat by lia.
      reflexivity.
Qed.

(** A grid without columns refuses the first item, at the cursor the wrap
    test moves to. *)
Lemma setData_no_width item rest g :
  Point.x (Grid.size g) <= 0 ->
  Grid.setData (item :: rest) g
  = (Throw (GridOutOfBounds (Point.x (Grid.size g)) (Point.y (Grid.size g)) 0 1), g).
Proof.
  intros Hw. unfold Grid.setData. rewrite setData_loop_cons. cbv zeta.
  destruct (0 + 1 >? Point.x (Grid.size g)) eqn:E; [|lia].
  rewrite set_out; [reflexivity|]. unfold in_bounds. lia.
Qed.

Lemma next_outer_lt g i :
  i < Point.x (Grid.size g) -> Grid.next g (Grid.AtOuter i) = Grid.next g (Grid.AtInner i 0).
Proof.
  intros H. remember (Grid.next g (Grid.AtInner i 0)) as rhs. simp next.
  destruct (decide (i < Point.x (Grid.size g))); [|lia].
  simpl. subst rhs. reflexivity.
Qed.

Lemma next_outer_ge g i :
  Point.x (Grid.size g) <= i -> Grid.next g (Grid.AtOuter i) = (Ok None, Grid.Finished).
Proof.
  intros H. simp next. destruct (decide (i < Point.x (Grid.size g))); [lia|].
  reflexivity.
Qed.

Lemma next_inner_lt g i j :
  j < Point.y (Grid.size g) ->
  Grid.next g (Grid.AtInner i j)
  = match Grid.get g i j with
    | Ok v => (Ok (Some (i, j, v)), Grid.AtInner i (j + 1))
    | Throw e => (Throw e, Grid.Finished)
    end.
Proof.
  intros H. simp next. destruct (decide (j < Point.y (Grid.size g))); [|lia].
  reflexivity.
Qed.

Lemma next_inner_ge g i j :
  Point.y (Grid.size g) <= j ->
  Grid.next g (Grid.AtInner i j) = Grid.next g (Grid.AtOuter (i + 1)).
Proof.
  intros H. remember (Grid.next g (Grid.AtOuter (i + 1))) as rhs. simp next.
  destruct (decide (j < Point.y (Grid.size g))); [lia|].
  simpl. subst rhs. reflexivity.
Qed.

(** With no cell to visit in a row, the loops run to the end without
    yielding. *)
Lemma next_no_height g :
  Point.y (Grid.size g) <= 0 ->
  forall n f,
    (Grid.frame_measure g f <= n)%nat ->
    (forall i j, f = Grid.AtInner i j -> 0 <= j) ->
    Grid.next g f = (Ok None, Grid.Finished).
Proof.
  intros Hh. induction n as [|n IH]; intros f Hm Hj.
  - destruct f as [i|i j|]; simpl in Hm.
    + apply next_outer_ge. lia.
    + lia.
    + reflexivity.
  - destruct f as [i|i j|].
    + destruct (decide (i < Point.x (Grid.size g))) as [Hlt|Hge].
      * rewrite next_outer_lt by exact Hlt. apply IH.
        -- simpl in *. lia.
        -- intros ? ? [= <- <-]. lia.
      * apply next_outer_ge. lia.
    + specialize (Hj i j eq_refl). rewrite next_inner_ge by lia. apply IH.
      * simpl in *. lia.
      * intros ? ? [=].
    + reflexivity.
Qed.

Lemma drain_same_step fuel g f1 f2 :
  Grid.next g f1 = Grid.next g f2 -> Grid.drain fuel g f1 = Grid.drain fuel g f2.
Proof. intros H. destruct fuel; simpl; [reflexivity|]. rewrite H. reflexivity. Qed.

Lemma drain_inner g :
  wf g -> 0 < Point.y (Grid.size g) ->
  forall m i j fuel,
    0 <= i < Point.x (Grid.size g) -> 0 <= j <= Point.y (Grid.size g) ->
    Z.to_nat (Point.x (Grid.size g) * Point.y (Grid.size g)
              - (i * Point.y (Grid.size g) + j)) = m ->
    (m < fuel)%nat ->
    Grid.drain fuel g (Grid.AtInner i j)
    = Some (Ok (visits g (i * Point.y (Grid.size g) + j))).
Proof.
  intros Hwf Hh.
  set (w := Point.x (Grid.size g)). set (h := Point.y (Grid.size g)). fold h in Hh.
  induction m as [|m IH]; intros i j fuel Hi Hj Hm Hfuel.
  - assert (j = h /\ i + 1 = w) as [-> Hiw] by nia.
    destruct fuel as [|fuel]; [lia|]. simpl.
    rewrite next_inner_ge by (fold h; lia). rewrite next_outer_ge by (fold w; lia).
    unfold visits. fold w h. rewrite seqZ_nil by lia. reflexivity.
  - assert (Hstep : forall i j fuel, 0 <= i < w -> 0 <= j < h ->
              Z.to_nat (w * h - (i * h + j)) = S m -> (S m < fuel)%nat ->
              Grid.drain fuel g (Grid.AtInner i j) = Some (Ok (visits g (i * h + j)))).
    { clear i j fuel Hi Hj Hm Hfuel. intros i j fuel Hi Hj Hm Hfuel.
      destruct fuel as [|fuel]; [lia|]. cbn [Grid.drain].
      rewrite next_inner_lt by (fold h; lia).
      destruct (get_in g i j Hwf) as (cells & v & _ & _ & Hget).
      { split; fold w h; lia. }
      rewrite Hget.
      rewrite (IH i (j + 1) fuel) by lia.
      replace (i * h + (j + 1)) with (Z.succ (i * h + j)) by lia.
      unfold visits. fold w h.
      rewrite (seqZ_cons (i * h + j)) by lia. cbn [fmap list_fmap].
      replace (Z.pred (w * h - (i * h + j))) with (w * h - Z.succ (i * h + j)) by lia.
      unfold visit at 2. fold h.
      destruct (cursor_div_mod h j i (i * h + j)) as [-> ->]; [lia|reflexivity|].
      unfold cell. rewrite Hget. reflexivity. }
    destruct (decide (j < h)) as [Hlt|Hge].
    + apply Hstep; lia.
    + assert (j = h) as -> by lia. assert (i + 1 < w) by nia.
      rewrite (drain_same_step fuel g _ (Grid.AtInner (i + 1) 0)).
      2:{ rewrite next_inner_ge by (fold h; lia). apply next_outer_lt. fold w. lia. }
      replace (i * h + h) with ((i + 1) * h + 0) by lia.
      apply Hstep; lia.
Qed.

Lemma drain_contents g fuel :
  wf g ->
  (Z.to_nat (Point.x (Grid.size g) * Point.y (Grid.size g)) < fuel)%nat ->
  Grid.drain fuel g (Grid.contents g) = Some (Ok (visits g 0)).
Proof.
  intros Hwf Hfuel. unfold Grid.contents.
  assert (Hh0 : 0 <= Point.y (Grid.size g)) by (destruct Hwf as [<- _]; lia).
  destruct (decide (0 < Point.x (Grid.size g) /\ 0 < Point.y (Grid.size g))) as [[Hw Hh]|Hempty].
  - rewrite (drain_same_step fuel g _ (Grid.AtInner 0 0)) by (apply next_outer_lt; lia).
    rewrite (drain_inner g Hwf Hh _ 0 0 fuel ltac:(lia) ltac:(lia) eq_refl).
    + reflexivity.
    + simpl. rewrite Z.sub_0_r. exact Hfuel.
  - destruct fuel as [|fuel]; [lia|]. simpl.
    assert (Hnext : Grid.next g (Grid.AtOuter 0) = (Ok None, Grid.Finished)).
    { destruct (decide (0 < Point.x (Grid.size g))) as [Hw|Hw].
      - apply (next_no_height g ltac:(lia) _ _ (Nat.le_refl _)). intros ? ? [=].
      - apply next_outer_ge. lia. }
    rewrite Hnext. unfold visits.
    rewrite seqZ_nil; [reflexivity|].
    destruct Hwf as [Hlen Hrows].
    destruct (decide (0 < Point.x (Grid.size g))); [nia|].
    destruct (Grid.data g) as [|cells rest] eqn:Hd.
    + simpl in Hlen. rewrite <- Hlen. lia.
    + apply Forall_cons in Hrows as [Hc _]. lia.
Qed.

(** ** Grid: construction *)

Lemma constructor_rows_columns rows columns d g :
  Grid.constructor (Grid.RowsColumns rows columns d) = Ok g ->
  g = Grid.mk (Point.new rows columns)
              (replicate (Z.to_nat columns) (replicate (Z.to_nat rows) d)) d
  /\ wf g.
Proof.
  unfold Grid.constructor, Grid.constructor_impl. simpl. intros H.
  apply allocate_inv in H as (-> & Hc & Hr). split; [reflexivity|].
  split; simpl.
  - rewrite length_replicate. lia.
  - apply Forall_forall. intros cells Hin.
    apply elem_of_replicate in Hin as [-> Hn].
    rewrite length_replicate. lia.
Qed.

Lemma constructor_rows_columns_ok rows columns d :
  0 <= rows <= 4294967295 -> 0 <= columns <= 4294967295 ->
  exists g, Grid.constructor (Grid.RowsColumns rows columns d) = Ok g.
Proof.
  intros Hr Hc. unfold Grid.constructor, Grid.constructor_impl, Grid.allocate. simpl.
  rewrite (Array_ok columns Hc), (Array_ok rows Hr). cbn [bindR].
  rewrite (mapiR_const (replicate (Z.to_nat rows) d)). cbn [bindR]. eauto.
Qed.

(** Every cell of a grid built from [(rows, columns, defaultValue)] reads
    as the default. *)
Lemma constructor_rows_columns_fill rows columns d g :
  Grid.constructor (Grid.RowsColumns rows columns d) = Ok g ->
  Grid.size g = Point.new rows columns
  /\ Grid.defaultValue g = d
  /\ forall row column, Grid.get g row column = Ok d.
Proof.
  intros H. destruct (constructor_rows_columns _ _ _ _ H) as [Hg Hwf].
  split; [subst g; reflexivity|]. split; [subst g; reflexivity|].
  intros row column.
  destruct (decide (in_bounds g row column)) as [Hin|Hout].
  - destruct (get_in g row column Hwf Hin) as (cells & v & Hc & Hv & ->).
    subst g. simpl in Hc.
    apply lookup_replicate in Hc as [-> _].
    apply lookup_replicate in Hv as [-> _]. reflexivity.
  - rewrite get_out by exact Hout. subst g. reflexivity.
Qed.

(** C1. The extent overload [new Grid(extent, defaultValue)] does not keep the
    supplied default: a grid built from the extent (2, 2) and the default 7
    stores [undefined] as its default value and in every cell, where the
    three-argument overload stores 7. *)
Theorem constructor_extent_loses_default :
  exists g g3,
    Grid.constructor (Grid.RowsAndCols (Point.new 2 2) (VNumber 7)) = Ok g
    /\ Grid.size g = Point.new 2 2
    /\ Grid.defaultValue g = VUndefined
    /\ Grid.get g 0 0 = Ok VUndefined
    /\ Grid.constructor (Grid.RowsColumns 2 2 (VNumber 7)) = Ok g3
    /\ Grid.defaultValue g3 = VNumber 7
    /\ Grid.get g3 0 0 = Ok (VNumber 7).
Proof.
  eexists. eexists. split; [reflexivity|]. split; [reflexivity|].
  split; [reflexivity|]. split; [reflexivity|]. split; [reflexivity|].
  split; reflexivity.
Qed.

(** The extent overload behaves like the three-argument one called with
    [undefined] as the default, whatever default the caller supplied. *)
Lemma constructor_extent_any p d :
  Grid.constructor (Grid.RowsAndCols p d)
  = Grid.constructor (Grid.RowsColumns (Point.x p) (Point.y p) VUndefined).
Proof. reflexivity. Qed.

(** ** Grid: [get] and [set] *)

(** C4. Outside the bounds [get] returns the default value and [set] throws
    the out-of-bounds error built from the size and the coordinates, leaving
    the grid as it was; inside the bounds [get] returns the stored cell and
    [set] writes it. *)
Theorem get_set_bounds (g : Grid.t) (row column : Z) (v : value) :
  (~ in_bounds g row column ->
     Grid.get g row column = Ok (Grid.defaultValue g)
     /\ Grid.set row column v g
        = (Throw (GridOutOfBounds (Point.x (Grid.size g)) (Point.y (Grid.size g))
                                  row column), g)
     /\ message (GridOutOfBounds (Point.x (Grid.size g)) (Point.y (Grid.size g))
                                 row column)
        = ("Attempted to set data into grid of size '"
             ++ show_Z (Point.x (Grid.size g)) ++ ", "
             ++ show_Z (Point.y (Grid.size g))
             ++ "' at out-of-bounds index: " ++ show_Z row ++ ", "
             ++ show_Z column)%string)
  /\ (wf g -> in_bounds g row column ->
      exists cells stored g',
        Grid.data g !! Z.to_nat column = Some cells
        /\ cells !! Z.to_nat row = Some stored
        /\ Grid.get g row column = Ok stored
        /\ Grid.set row column v g = (Ok tt, g')
        /\ Grid.get g' row column = Ok v).
Proof.
  split.
  - intros Hout. split; [apply get_out; exact Hout|].
    split; [apply set_out; exact Hout|reflexivity].
  - intros Hwf Hin.
    destruct (get_in g row column Hwf Hin) as (cells & stored & Hc & Hs & Hget).
    destruct (set_in g row column v Hwf Hin) as (g' & Hset & _ & _ & _ & Hget' & _).
    exists cells, stored, g'. auto.
Qed.

(** ** Grid: [setData] *)

Lemma setData_fits g flat :
  wf g ->
  Z.of_nat (length flat) <= Point.x (Grid.size g) * Point.y (Grid.size g) ->
  exists g',
    Grid.setData flat g = (Ok tt, g')
    /\ wf g'
    /\ Grid.size g' = Grid.size g
    /\ Grid.defaultValue g' = Grid.defaultValue g
    /\ (forall k, 0 <= k < Z.of_nat (length flat) ->
          Grid.get g' (k mod Point.x (Grid.size g)) (k / Point.x (Grid.size g))
          = Ok (flat_at flat k))
    /\ (forall row column,
          ~ (0 <= row < Point.x (Grid.size g)
             /\ 0 <= column * Point.x (Grid.size g) + row < Z.of_nat (length flat)) ->
          Grid.get g' row column = Grid.get g row column).
Proof.
  intros Hwf Hfit.
  destruct flat as [|item rest].
  { exists g. split; [reflexivity|]. split; [exact Hwf|]. split; [reflexivity|].
    split; [reflexivity|]. split; [simpl; intros; lia|reflexivity]. }
  assert (Hh : 0 <= Point.y (Grid.size g)) by (destruct Hwf as [<- _]; lia).
  assert (Hw : 0 < Point.x (Grid.size g)) by (simpl length in Hfit; nia).
  destruct (setData_loop_fits (item :: rest) 0 0 0 g Hwf Hw) as
    (g' & Hloop & Hwf' & Hsz & Hd & Hput & Hkeep); try lia.
  exists g'. unfold Grid.setData.
  split; [exact Hloop|]. split; [exact Hwf'|]. split; [exact Hsz|].
  split; [exact Hd|]. split.
  - intros k Hk. rewrite <- (Hput k Hk). reflexivity.
  - intros row column Hout. apply Hkeep. intros [Hrow Hlin]. apply Hout. lia.
Qed.

(** C2. [setData] walks the cells in the order [(0,0), (1,0), ...,
    (size.x - 1, 0), (0,1), ...]: element [k] of the input is afterwards read
    by [get(k mod size.x, k div size.x)]. When the input is shorter than the
    grid the remaining cells keep what they held (the default value, for a
    grid that was only constructed); when it is longer the call throws the
    out-of-bounds error of [set]. *)
Theorem setData_row_wrap (g : Grid.t) (flat : list value) :
  wf g ->
  let w := Point.x (Grid.size g) in
  let h := Point.y (Grid.size g) in
  (Z.of_nat (length flat) <= w * h ->
     exists g',
       Grid.setData flat g = (Ok tt, g')
       /\ Grid.size g' = Grid.size g
       /\ Grid.defaultValue g' = Grid.defaultValue g
       /\ (forall k, 0 <= k < Z.of_nat (length flat) ->
             Grid.get g' (k mod w) (k / w) = Ok (flat_at flat k))
       /\ (forall k, Z.of_nat (length flat) <= k < w * h ->
             Grid.get g' (k mod w) (k / w) = Grid.get g (k mod w) (k / w))
       /\ (forall k, Z.of_nat (length flat) <= k < w * h ->
             Grid.get g (k mod w) (k / w) = Ok (Grid.defaultValue g) ->
             Grid.get g' (k mod w) (k / w) = Ok (Grid.defaultValue g')))
  /\ (w * h < Z.of_nat (length flat) ->
      exists row column g',
        Grid.setData flat g = (Throw (GridOutOfBounds w h row column), g')
        /\ ~ in_bounds g row column).
Proof.
  intros Hwf w h.
  assert (Hh : 0 <= h) by (subst h; destruct Hwf as [<- _]; lia).
  split.
  - intros Hfit.
    destruct (setData_fits g flat Hwf Hfit) as (g' & Hset & _ & Hsz & Hd & Hput & Hkeep).
    fold w in Hput, Hkeep.
    assert (Htrail : forall k, Z.of_nat (length flat) <= k < w * h ->
              Grid.get g' (k mod w) (k / w) = Grid.get g (k mod w) (k / w)).
    { intros k Hk. apply Hkeep. intros [Hrow Hlin].
      assert (0 < w) by lia.
      pose proof (Z.div_mod k w ltac:(lia)). lia. }
    exists g'. repeat (split; [assumption|]).
    intros k Hk Hdef. rewrite Htrail by exact Hk. rewrite Hdef, Hd. reflexivity.
  - intros Hover.
    destruct flat as [|item rest];
      [simpl in Hover; destruct (wf_nonneg g Hwf) as [_ Ha]; fold w h in Ha; lia|].
    destruct (decide (0 < w)) as [Hw|Hw].
    + exists 0, h. eexists. split.
      * unfold Grid.setData.
        apply (setData_loop_overrun (item :: rest) 0 0 0 g Hwf Hw); fold w h; lia.
      * unfold in_bounds. fold w h. lia.
    + exists 0, 1, g. split.
      * apply setData_no_width. fold w. lia.
      * unfold in_bounds. fold w h. lia.
Qed.

(** Elements placed by [setData], addressed by cell. *)
Lemma setData_cells g flat g' :
  wf g ->
  Z.of_nat (length flat) = Point.x (Grid.size g) * Point.y (Grid.size g) ->
  Grid.setData flat g = (Ok tt, g') ->
  wf g' /\ Grid.size g' = Grid.size g
  /\ forall row column,
       in_bounds g row column ->
       Grid.get g' row column = Ok (flat_at flat (column * Point.x (Grid.size g) + row)).
Proof.
  intros Hwf Hlen Hset.
  destruct (setData_fits g flat Hwf ltac:(lia)) as (g1 & Hset1 & Hwf1 & Hsz & _ & Hput & _).
  rewrite Hset in Hset1. injection Hset1 as ->.
  split; [exact Hwf1|]. split; [exact Hsz|].
  intros row column [Hr Hc].
  set (w := Point.x (Grid.size g)) in *.
  destruct (cursor_div_mod w row column (column * w + row) Hr eq_refl) as [Hm Hd].
  rewrite <- (Hput (column * w + row)) by nia.
  rewrite Hm, Hd. reflexivity.
Qed.

(** ** Grid: [contents] *)

Lemma visits_length g :
  length (visits g 0)
  = Z.to_nat (Point.x (Grid.size g) * Point.y (Grid.size g)).
Proof. unfold visits. rewrite length_fmap, length_seqZ. f_equal. lia. Qed.

Lemma visits_lookup g k :
  0 <= k < Point.x (Grid.size g) * Point.y (Grid.size g) ->
  visits g 0 !! Z.to_nat k = Some (visit g k).
Proof.
  intros Hk. unfold visits. rewrite list_lookup_fmap.
  rewrite (proj2 (lookup_seqZ 0 _ (Z.to_nat k) k)) by lia. reflexivity.
Qed.

Lemma visits_elem g triple :
  triple ∈ visits g 0 <->
  exists k, 0 <= k < Point.x (Grid.size g) * Point.y (Grid.size g)
            /\ triple = visit g k.
Proof.
  unfold visits. rewrite list_elem_of_fmap. split.
  - intros (k & -> & Hk). apply elem_of_seqZ in Hk. exists k. split; [lia|reflexivity].
  - intros (k & Hk & ->). exists k. split; [reflexivity|]. apply elem_of_seqZ. lia.
Qed.

Lemma visit_in_bounds g k :
  wf g ->
  0 <= k < Point.x (Grid.size g) * Point.y (Grid.size g) ->
  in_bounds g (k / Point.y (Grid.size g)) (k mod Point.y (Grid.size g)).
Proof.
  intros Hwf Hk. destruct (wf_nonneg g Hwf) as [Hh _].
  destruct (area_pos _ _ _ Hh Hk) as [Hpos _].
  split.
  - split; [apply Z.div_pos; lia|].
    apply Z.div_lt_upper_bound; lia.
  - apply Z.mod_pos_bound. lia.
Qed.

Lemma cell_get g row column :
  wf g -> in_bounds g row column -> Grid.get g row column = Ok (cell g row column).
Proof.
  intros Hwf Hin. destruct (get_in g row column Hwf Hin) as (_ & v & _ & _ & Hget).
  unfold cell. rewrite Hget. reflexivity.
Qed.

Lemma visits_NoDup g : wf g -> NoDup (fst <$> visits g 0).
Proof.
  intros Hwf. unfold visits. rewrite <- list_fmap_compose.
  apply NoDup_fmap_2_strong; [|apply NoDup_seqZ].
  intros k1 k2 H1 H2 Heq. apply elem_of_seqZ in H1, H2.
  destruct (wf_nonneg g Hwf) as [Hh _].
  destruct (area_pos (Point.x (Grid.size g)) _ k1 Hh ltac:(lia)) as [Hpos _].
  unfold visit in Heq. simpl in Heq. injection Heq as Hd Hm.
  rewrite (Z.div_mod k1 (Point.y (Grid.size g))) by lia.
  rewrite (Z.div_mod k2 (Point.y (Grid.size g))) by lia.
  congruence.
Qed.

(** C9. On a well-formed grid, consuming [contents()] ends after
    [size.x * size.y] triples. The triple at position [k] has the coordinates
    [(k div size.y, k mod size.y)] (outer loop over the first coordinate,
    inner loop over the second); every triple carries in-bounds coordinates
    and the value [get] returns for them; every in-bounds pair occurs, and
    none twice. A call of [contents()] always produces the generator
    suspended before the first cell. *)
Theorem contents_complete (g : Grid.t) :
  wf g ->
  let w := Point.x (Grid.size g) in
  let h := Point.y (Grid.size g) in
  exists triples,
    (forall fuel, (Z.to_nat (w * h) < fuel)%nat ->
        Grid.drain fuel g (Grid.contents g) = Some (Ok triples))
    /\ Z.of_nat (length triples) = w * h
    /\ (forall k, 0 <= k < w * h ->
          exists v, triples !! Z.to_nat k = Some (k / h, k mod h, v))
    /\ (forall row column v,
          (row, column, v) ∈ triples ->
          in_bounds g row column /\ Grid.get g row column = Ok v)
    /\ (forall row column,
          in_bounds g row column -> exists v, (row, column, v) ∈ triples)
    /\ NoDup (fst <$> triples)
    /\ Grid.contents g = Grid.AtOuter 0.
Proof.
  intros Hwf w h. destruct (wf_nonneg g Hwf) as [Hh Harea]. fold w h in Hh, Harea.
  exists (visits g 0). split.
  { intros fuel Hfuel. apply drain_contents; assumption. }
  split. { rewrite visits_length. fold w h. lia. }
  split. { intros k Hk. rewrite visits_lookup by exact Hk. unfold visit. eauto. }
  split.
  { intros row column v Hin. apply visits_elem in Hin as (k & Hk & Heq).
    unfold visit in Heq. fold h in Heq. injection Heq as -> -> ->.
    pose proof (visit_in_bounds g k Hwf Hk) as Hb. fold h in Hb.
    split; [exact Hb|]. apply cell_get; assumption. }
  split.
  { intros row column [Hr Hc]. fold w in Hr. fold h in Hc.
    exists (cell g row column). apply visits_elem.
    exists (row * h + column). split; [nia|].
    unfold visit. fold h.
    destruct (cursor_div_mod h column row (row * h + column) Hc eq_refl) as [-> ->].
    reflexivity. }
  split; [apply visits_NoDup; exact Hwf|reflexivity].
Qed.

(** ** Grid: loading a flat array and reading it back *)

(** C3, as stated, fails: a 3 by 2 grid loaded with [1, ..., 6] is read back
    by [contents()] in the order 1, 4, 2, 5, 3, 6. *)
Lemma contents_round_trip_order_differs :
  exists g g' triples,
    Grid.constructor (Grid.RowsColumns 3 2 (VNumber 0)) = Ok g
    /\ Grid.setData (VNumber <$> [1; 2; 3; 4; 5; 6]) g = (Ok tt, g')
    /\ Grid.drain 7 g' (Grid.contents g') = Some (Ok triples)
    /\ snd <$> triples = VNumber <$> [1; 4; 2; 5; 3; 6]
    /\ snd <$> triples !! 1%nat <> (VNumber <$> [1; 2; 3; 4; 5; 6]) !! 1%nat.
Proof.
  eexists. eexists. eexists.
  split; [reflexivity|]. split; [reflexivity|]. split; [reflexivity|].
  split; [reflexivity|]. discriminate.
Qed.

(** C3, amended. After a [w] by [h] grid is loaded from a flat array [a] of
    length [w * h], the traversal of [contents()] has [w * h] triples; the
    triple at position [k] is the cell [(k div h, k mod h)] and carries
    [a[(k mod h) * w + k div h]]. Every element [a[n]] is thus read back, at
    the coordinates [(n mod w, n div w)] where [setData] put it. *)
Theorem contents_after_setData (rows columns : Z) (d : value) (flat : list value)
    (g : Grid.t) :
  Grid.constructor (Grid.RowsColumns rows columns d) = Ok g ->
  Z.of_nat (length flat) = rows * columns ->
  exists g' triples,
    Grid.setData flat g = (Ok tt, g')
    /\ (forall fuel, (length flat < fuel)%nat ->
          Grid.drain fuel g' (Grid.contents g') = Some (Ok triples))
    /\ length triples = length flat
    /\ (forall k, 0 <= k < rows * columns ->
          triples !! Z.to_nat k
          = Some (k / columns, k mod columns,
                  flat_at flat ((k mod columns) * rows + k / columns)))
    /\ (forall n, 0 <= n < rows * columns ->
          (n mod rows, n / rows, flat_at flat n) ∈ triples).
Proof.
  intros Hnew Hlen.
  destruct (constructor_rows_columns _ _ _ _ Hnew) as [Hg Hwf].
  assert (Hsz : Grid.size g = Point.new rows columns) by (subst g; reflexivity).
  destruct (setData_fits g flat Hwf) as (g' & Hset & _ & _ & _ & _ & _).
  { rewrite Hsz. simpl. lia. }
  destruct (setData_cells g flat g' Hwf) as (Hwf' & Hsz' & Hcells);
    [rewrite Hsz; simpl; lia|exact Hset|].
  rewrite Hsz in Hsz', Hcells. simpl in Hcells.
  assert (Hvisit : forall k, 0 <= k < rows * columns ->
            visit g' k = (k / columns, k mod columns,
                          flat_at flat ((k mod columns) * rows + k / columns))).
  { intros k Hk. unfold visit. rewrite Hsz'. simpl.
    pose proof (visit_in_bounds g' k Hwf') as Hb. rewrite Hsz' in Hb. simpl in Hb.
    specialize (Hb Hk).
    assert (Hb' : in_bounds g (k / columns) (k mod columns)).
    { unfold in_bounds in *. rewrite Hsz' in Hb. rewrite Hsz. exact Hb. }
    unfold cell. rewrite (Hcells _ _ Hb'). reflexivity. }
  exists g', (visits g' 0). split; [exact Hset|]. split.
  { intros fuel Hfuel. apply drain_contents; [exact Hwf'|].
    rewrite Hsz'. simpl. lia. }
  split. { rewrite visits_length, Hsz'. simpl. lia. }
  split.
  { intros k Hk. rewrite visits_lookup by (rewrite Hsz'; exact Hk).
    rewrite Hvisit by exact Hk. reflexivity. }
  intros n Hn. apply visits_elem. rewrite Hsz'. simpl.
  destruct (wf_nonneg g Hwf) as [Hh _]. rewrite Hsz in Hh. simpl in Hh.
  destruct (area_pos _ _ n Hh Hn) as [Hcpos Hw].
  assert (Hrow : 0 <= n mod rows < rows) by (apply Z.mod_pos_bound; lia).
  assert (Hcol : 0 <= n / rows < columns).
  { split; [apply Z.div_pos; lia|]. apply Z.div_lt_upper_bound; lia. }
  exists (n mod rows * columns + n / rows). split; [nia|].
  rewrite Hvisit by nia.
  destruct (cursor_div_mod columns (n / rows) (n mod rows)
              (n mod rows * columns + n / rows) Hcol eq_refl) as [-> ->].
  f_equal. f_equal. pose proof (Z.div_mod n rows ltac:(lia)). lia.
Qed.

(** ** Grid: failing writes *)

(** C10. A [set] outside the bounds throws and leaves the grid exactly as it
    was. A [setData] whose input is longer than the grid throws the
    out-of-bounds error; the size and the default value are unchanged and
    every in-bounds cell [(row, column)] then holds the input element
    [column * size.x + row], that is, the prefix that fits. *)
Theorem failing_set_is_atomic (g : Grid.t) :
  (forall row column v,
      ~ in_bounds g row column ->
      exists e, Grid.set row column v g = (Throw e, g))
  /\ (forall flat,
        wf g ->
        Point.x (Grid.size g) * Point.y (Grid.size g) < Z.of_nat (length flat) ->
        exists e g',
          Grid.setData flat g = (Throw e, g')
          /\ Grid.size g' = Grid.size g
          /\ Grid.defaultValue g' = Grid.defaultValue g
          /\ (forall row column,
                in_bounds g row column ->
                Grid.get g' row column
                = Ok (flat_at flat (column * Point.x (Grid.size g) + row)))
          /\ (forall row column,
                ~ in_bounds g row column ->
                Grid.get g' row column = Grid.get g row column)).
Proof.
  split.
  { intros row column v Hout. eexists. apply set_out. exact Hout. }
  intros flat Hwf Hover.
  set (w := Point.x (Grid.size g)) in *. set (h := Point.y (Grid.size g)) in *.
  destruct (wf_nonneg g Hwf) as [Hh Harea]. fold w h in Hh, Harea.
  destruct flat as [|item rest]; [simpl in Hover; lia|].
  destruct (decide (0 < w)) as [Hw|Hw].
  - set (fits := take (Z.to_nat (w * h - 0)) (item :: rest)).
    assert (Hfl : Z.of_nat (length fits) = w * h).
    { subst fits. rewrite length_take. lia. }
    destruct (setData_fits g fits Hwf) as (g' & Hset & Hwf' & Hsz & Hd & _ & Hkeep).
    { fold w h. lia. }
    destruct (setData_cells g fits g' Hwf) as (_ & _ & Hcells);
      [fold w h; lia|exact Hset|].
    eexists. exists g'. split.
    { unfold Grid.setData.
      rewrite (setData_loop_overrun (item :: rest) 0 0 0 g Hwf Hw); fold w h; try lia.
      fold fits. unfold Grid.setData in Hset. rewrite Hset. reflexivity. }
    split; [exact Hsz|]. split; [exact Hd|]. split.
    + intros row column Hin. rewrite (Hcells row column Hin). fold w.
      f_equal. unfold flat_at.
      destruct Hin as [Hr Hc]. fold w in Hr. fold h in Hc.
      destruct (column * w + row <? 0) eqn:E; [reflexivity|].
      subst fits. rewrite lookup_take_lt by nia. reflexivity.
    + intros row column Hout. apply Hkeep. fold w. rewrite Hfl.
      intros [Hr Hlin]. apply Hout. split; fold w h; [lia|nia].
  - eexists. exists g. split; [apply setData_no_width; fold w; lia|].
    split; [reflexivity|]. split; [reflexivity|]. split; [|reflexivity].
    intros row column [Hr _]. fold w in Hr. lia.
Qed.

(** ** Maps with a throwing callback *)

Lemma mapiR_Ok {A B} (f : A -> nat -> Result B) (xs : list A) :
  forall i ys,
    mapiR f i xs = Ok ys ->
    length ys = length xs
    /\ forall k x, xs !! k = Some x ->
         exists y, ys !! k = Some y /\ f x (i + k)%nat = Ok y.
Proof.
  induction xs as [|a xs IH]; intros i ys H; simpl in H.
  - injection H as <-. split; [reflexivity|]. intros k x Hk. destruct k; discriminate.
  - destruct (f a i) as [b|e] eqn:Hb; [|discriminate]. simpl in H.
    destruct (mapiR f (S i) xs) as [bs|e] eqn:Hbs; [|discriminate].
    injection H as <-. destruct (IH _ _ Hbs) as [Hlen Hall].
    split; [simpl; congruence|].
    intros [|k] x Hk; simpl in Hk.
    + injection Hk as <-. exists b. rewrite Nat.add_0_r. auto.
    + destruct (Hall k x Hk) as (y & Hy & Hf). exists y.
      replace (i + S k)%nat with (S i + k)%nat by lia. auto.
Qed.

Lemma mapiR_first_throw {A B} (f : A -> nat -> Result B) (xs : list A) :
  forall i k x e,
    xs !! k = Some x ->
    f x (i + k)%nat = Throw e ->
    (forall j xj, (j < k)%nat -> xs !! j = Some xj -> exists y, f xj (i + j)%nat = Ok y) ->
    mapiR f i xs = Throw e.
Proof.
  induction xs as [|a xs IH]; intros i k x e Hk Hf Hbefore; [destruct k; discriminate|].
  destruct k as [|k]; simpl in Hk.
  - injection Hk as ->. simpl. rewrite Nat.add_0_r in Hf. rewrite Hf. reflexivity.
  - simpl. destruct (Hbefore 0%nat a ltac:(lia) eq_refl) as [y Hy].
    rewrite Nat.add_0_r in Hy. rewrite Hy. simpl.
    rewrite (IH (S i) k x e Hk).
    + reflexivity.
    + replace (S i + k)%nat with (i + S k)%nat by lia. exact Hf.
    + intros j xj Hj Hxj. replace (S i + j)%nat with (i + S j)%nat by lia.
      apply (Hbefore (S j) xj); [lia|exact Hxj].
Qed.

(** When some element makes the callback throw, the map throws what the
    first such element throws. *)
Lemma mapiR_some_throw {A B} (f : A -> nat -> Result B) (xs : list A) :
  forall i,
    (exists k x e, xs !! k = Some x /\ f x (i + k)%nat = Throw e) ->
    exists k x e,
      xs !! k = Some x /\ f x (i + k)%nat = Throw e
      /\ (forall j xj, (j < k)%nat -> xs !! j = Some xj ->
            exists y, f xj (i + j)%nat = Ok y)
      /\ mapiR f i xs = Throw e.
Proof.
  induction xs as [|a xs IH]; intros i (k & x & e & Hk & Hf); [destruct k; discriminate|].
  destruct (f a i) as [b|e0] eqn:Ha.
  - destruct k as [|k]; simpl in Hk.
    { injection Hk as ->. rewrite Nat.add_0_r in Hf. congruence. }
    destruct (IH (S i)) as (k' & x' & e' & Hk' & Hf' & Hbefore & Hmap).
    { exists k, x, e. split; [exact Hk|].
      replace (S i + k)%nat with (i + S k)%nat by lia. exact Hf. }
    exists (S k'), x', e'. split; [exact Hk'|]. split.
    { replace (i + S k')%nat with (S i + k')%nat by lia. exact Hf'. }
    split.
    + intros [|j] xj Hj Hxj; simpl in Hxj.
      * injection Hxj as <-. exists b. rewrite Nat.add_0_r. exact Ha.
      * replace (i + S j)%nat with (S i + j)%nat by lia.
        apply Hbefore; [lia|exact Hxj].
    + simpl. rewrite Ha. simpl. rewrite Hmap. reflexivity.
  - exists 0%nat, a, e0. split; [reflexivity|]. split.
    { rewrite Nat.add_0_r. exact Ha. }
    split; [intros j xj Hj; lia|].
    simpl. rewrite Ha. reflexivity.
Qed.

(** ** Ogmo: parsing a project *)

Lemma parse_project_layer_throws tilesets layer index e :
  parse_project_layer tilesets layer index = Throw e <->
  exists l, layer = TileLayer l
            /\ tileset_labelled tilesets (OgmoProjectTileLayer.defaultTileset l) = None
            /\ e = UnresolvedTileset index (OgmoProjectTileLayer.defaultTileset l).
Proof.
  unfold parse_project_layer, tileset_labelled. split.
  - destruct layer as [l|l|l|l]; try discriminate.
    destruct (find _ tilesets) eqn:Hfind; [discriminate|].
    intros [= <-]. exists l. auto.
  - intros (l & -> & Hfind & ->). rewrite Hfind. reflexivity.
Qed.

Lemma parse_project_layer_ok tilesets layer index :
  ~ unresolved_tileset tilesets layer ->
  exists parsed, parse_project_layer tilesets layer index = Ok parsed.
Proof.
  intros Hres. destruct (parse_project_layer tilesets layer index) as [p|e] eqn:H; [eauto|].
  apply parse_project_layer_throws in H as (l & -> & Hnone & _).
  exfalso. apply Hres. exact Hnone.
Qed.

Lemma tileset_labelled_Some tilesets label tileset :
  tileset_labelled tilesets label = Some tileset ->
  In tileset tilesets /\ OgmoTileset.label tileset = label.
Proof.
  intros H. apply find_some in H as [Hin Heq].
  split; [exact Hin|]. apply String.eqb_eq. exact Heq.
Qed.

Section OgmoFacts.
Context {Entity : Type} (child_entity : list Event -> Entity).

Lemma OgmoProject_layers projectData
    (entityFactories : gmap string (OgmoEntityData.t -> Eff Entity))
    decalFactory :
  OgmoProject child_entity projectData entityFactories decalFactory
  = match mapiR (parse_project_layer
                   (map parse_tileset (ProjectData.tilesets projectData)))
                0%nat (ProjectData.layers projectData) with
    | Ok layers =>
        ([UseType "Ogmo.Project"],
         Ok {| OgmoProjectApi.createEntity := createEntity entityFactories;
               OgmoProjectApi.createDecal := createDecal child_entity decalFactory;
               OgmoProjectApi.tilesets :=
                 map parse_tileset (ProjectData.tilesets projectData);
               OgmoProjectApi.layers := layers |})
    | Throw e => ([UseType "Ogmo.Project"], Throw e)
    end.
Proof.
  unfold OgmoProject. simpl.
  destruct (mapiR _ 0%nat (ProjectData.layers projectData)); reflexivity.
Qed.

(** C7. When some tile layer of the project file names a default tileset
    that is not among the tilesets, [Ogmo.Project] throws the error built
    from the index of the first such layer and its label. When
    [Ogmo.Project] returns, every tile layer of the file has become, at the
    same index, a tile layer whose [defaultTileset] is the parsed tileset
    with that label. *)
Theorem project_tileset_resolution (projectData : ProjectData.t)
    (entityFactories : gmap string (OgmoEntityData.t -> Eff Entity))
    (decalFactory : option (OgmoDecalData.t -> Eff Entity)) :
  let tilesets := map parse_tileset (ProjectData.tilesets projectData) in
  ((exists i layer,
       ProjectData.layers projectData !! i = Some layer
       /\ unresolved_tileset tilesets layer) ->
   exists index l,
     ProjectData.layers projectData !! index = Some (TileLayer l)
     /\ tileset_labelled tilesets (OgmoProjectTileLayer.defaultTileset l) = None
     /\ (forall j layer, (j < index)%nat ->
           ProjectData.layers projectData !! j = Some layer ->
           ~ unresolved_tileset tilesets layer)
     /\ snd (OgmoProject child_entity projectData entityFactories decalFactory)
        = Throw (UnresolvedTileset index (OgmoProjectTileLayer.defaultTileset l))
     /\ message (UnresolvedTileset index (OgmoProjectTileLayer.defaultTileset l))
        = ("Ogmo layer " ++ show_nat index
             ++ " referenced non-existent default tileset: '"
             ++ OgmoProjectTileLayer.defaultTileset l ++ "'")%string)
  /\ (forall project,
        snd (OgmoProject child_entity projectData entityFactories decalFactory)
        = Ok project ->
        OgmoProjectApi.tilesets project = tilesets
        /\ forall i l,
             ProjectData.layers projectData !! i = Some (TileLayer l) ->
             exists l' tileset,
               OgmoProjectApi.layers project !! i = Some (TileLayer l')
               /\ OgmoProjectTileLayer.defaultTileset l' = tileset
               /\ OgmoProjectTileLayer.exportID l' = OgmoProjectTileLayer.exportID l
               /\ tileset_labelled tilesets (OgmoProjectTileLayer.defaultTileset l)
                  = Some tileset
               /\ In tileset tilesets
               /\ OgmoTileset.label tileset = OgmoProjectTileLayer.defaultTileset l).
Proof.
  intros tilesets. rewrite OgmoProject_layers. fold tilesets. split.
  - intros (i & layer & Hi & Hun).
    destruct (mapiR_some_throw (parse_project_layer tilesets)
                (ProjectData.layers projectData) 0%nat)
      as (k & x & e & Hk & Hf & Hbefore & Hmap).
    { destruct layer as [l|l|l|l]; try contradiction.
      exists i, (TileLayer l), (UnresolvedTileset i (OgmoProjectTileLayer.defaultTileset l)).
      split; [exact Hi|]. apply parse_project_layer_throws. exists l. auto. }
    apply parse_project_layer_throws in Hf as (l & -> & Hnone & ->).
    exists k, l. split; [exact Hk|]. split; [exact Hnone|]. split.
    + intros j layer' Hj Hlayer' Hun'.
      destruct (Hbefore j layer' Hj Hlayer') as [y Hy].
      destruct layer' as [l'|l'|l'|l']; try contradiction.
      simpl in Hy. unfold unresolved_tileset, tileset_labelled in Hun'.
      rewrite Hun' in Hy. discriminate.
    + split; [rewrite Hmap; reflexivity|reflexivity].
  - intros project Hok.
    destruct (mapiR (parse_project_layer tilesets) 0%nat
                    (ProjectData.layers projectData)) as [layers|e] eqn:Hmap;
      [|discriminate].
    simpl in Hok. injection Hok as <-. simpl. split; [reflexivity|].
    intros i l Hi.
    destruct (mapiR_Ok _ _ _ _ Hmap) as [_ Hall].
    destruct (Hall i _ Hi) as (y & Hy & Hparse).
    simpl in Hparse. fold (tileset_labelled tilesets (OgmoProjectTileLayer.defaultTileset l)) in Hparse.
    destruct (tileset_labelled tilesets (OgmoProjectTileLayer.defaultTileset l))
      as [tileset|] eqn:Hfind; [|discriminate].
    injection Hparse as <-.
    destruct (tileset_labelled_Some _ _ _ Hfind) as [Hin Hlabel].
    eexists. exists tileset. split; [exact Hy|]. simpl. auto.
Qed.

(** ** Ogmo: parsing a level *)

Lemma parse_level_layer_unmatched (project : OgmoProjectApi.t Entity) layer index :
  layer_exported (OgmoProjectApi.layers project) (RawLevelLayer._eid layer) = None ->
  parse_level_layer project layer index
  = Throw (UnresolvedLayer index (RawLevelLayer._eid layer)).
Proof.
  unfold layer_exported, parse_level_layer. intros ->. reflexivity.
Qed.

Lemma parse_level_layer_ok (project : OgmoProjectApi.t Entity) layer index parsed :
  parse_level_layer project layer index = Ok parsed ->
  layer_exported (OgmoProjectApi.layers project) (RawLevelLayer._eid layer)
  = Some (projectLayer parsed).
Proof.
  unfold layer_exported, parse_level_layer.
  match goal with
  | |- context [find ?f ?l] => destruct (find f l) as [[pl|pl|pl|pl]|]
  end; try discriminate.
  - destruct (load_grid _ _ _ _); [|discriminate]. intros [= <-]. reflexivity.
  - destruct (load_grid _ _ _ _); [|discriminate]. intros [= <-]. reflexivity.
  - intros [= <-]. reflexivity.
  - intros [= <-]. reflexivity.
Qed.

Lemma layer_exported_Some layers eid pl :
  layer_exported layers eid = Some pl -> In pl layers /\ exportID pl = eid.
Proof.
  intros H. apply find_some in H as [Hin Heq].
  split; [exact Hin|]. apply String.eqb_eq. exact Heq.
Qed.

Lemma OgmoLevel_unfold (project : OgmoProjectApi.t Entity) levelData :
  OgmoLevel child_entity project levelData
  = match mapiR (parse_level_layer project) 0%nat (LevelData.layers levelData) with
    | Throw e => ([UseType "Ogmo.Level"], Throw e)
    | Ok layers =>
        let realized := forEach (realize_layer child_entity project) layers in
        (UseType "Ogmo.Level" :: fst realized,
         match snd realized with
         | Throw e => Throw e
         | Ok _ =>
             Ok {| OgmoLevelApi.size :=
                     Vector.new (LevelData.width levelData)
                                (LevelData.height levelData);
                   OgmoLevelApi.offset :=
                     Vector.new (LevelData.offsetX levelData)
                                (LevelData.offsetY levelData);
                   OgmoLevelApi.values := LevelData.values levelData;
                   OgmoLevelApi.layers := layers |}
         end)
    end.
Proof.
  unfold OgmoLevel. simpl.
  destruct (mapiR _ 0%nat (LevelData.layers levelData)) as [layers|e]; [|reflexivity].
  simpl. destruct (forEach _ layers) as [log [[]|e]]; simpl;
    rewrite ?app_nil_r; reflexivity.
Qed.

(** C6, amended. A level with a layer whose [_eid] no project layer
    exports is never built: [Ogmo.Level] throws. The error is the one built
    from the index and the [_eid] of the first such layer when every layer
    before it parses (its project layer is found and, for a tile or grid
    layer, its grid is allocated and loaded). In every case the error
    thrown is the one of the first layer that does not parse, which is the
    unmatched layer or a layer before it, and nothing but the component
    type has been recorded by then. When [Ogmo.Level] returns, the layer
    at each index carries the project layer found for the [_eid] of the
    layer instance at that index. *)
Theorem level_layer_resolution (project : OgmoProjectApi.t Entity)
    (levelData : LevelData.t) :
  let unmatched layer :=
    layer_exported (OgmoProjectApi.layers project) (RawLevelLayer._eid layer)
    = None in
  ((exists i layer,
       LevelData.layers levelData !! i = Some layer /\ unmatched layer) ->
   exists e, snd (OgmoLevel child_entity project levelData) = Throw e)
  /\ (forall index layer,
        LevelData.layers levelData !! index = Some layer ->
        unmatched layer ->
        (forall j earlier, (j < index)%nat ->
           LevelData.layers levelData !! j = Some earlier ->
           exists parsed, parse_level_layer project earlier j = Ok parsed) ->
        OgmoLevel child_entity project levelData
        = ([UseType "Ogmo.Level"],
           Throw (UnresolvedLayer index (RawLevelLayer._eid layer)))
        /\ message (UnresolvedLayer index (RawLevelLayer._eid layer))
           = ("Ogmo level layer " ++ show_nat index
                ++ " referenced non-existent project layer with exportID "
                ++ RawLevelLayer._eid layer)%string)
  /\ (forall index layer,
        LevelData.layers levelData !! index = Some layer ->
        unmatched layer ->
        exists first failing e,
          (first <= index)%nat
          /\ LevelData.layers levelData !! first = Some failing
          /\ parse_level_layer project failing first = Throw e
          /\ (forall j earlier, (j < first)%nat ->
                LevelData.layers levelData !! j = Some earlier ->
                exists parsed, parse_level_layer project earlier j = Ok parsed)
          /\ (first = index ->
                e = UnresolvedLayer index (RawLevelLayer._eid layer))
          /\ OgmoLevel child_entity project levelData
             = ([UseType "Ogmo.Level"], Throw e))
  /\ (forall first failing e,
        LevelData.layers levelData !! first = Some failing ->
        parse_level_layer project failing first = Throw e ->
        (forall j earlier, (j < first)%nat ->
           LevelData.layers levelData !! j = Some earlier ->
           exists parsed, parse_level_layer project earlier j = Ok parsed) ->
        OgmoLevel child_entity project levelData
        = ([UseType "Ogmo.Level"], Throw e))
  /\ (forall level,
        snd (OgmoLevel child_entity project levelData) = Ok level ->
        length (OgmoLevelApi.layers level) = length (LevelData.layers levelData)
        /\ forall i layer,
             LevelData.layers levelData !! i = Some layer ->
             exists parsed,
               OgmoLevelApi.layers level !! i = Some parsed
               /\ layer_exported (OgmoProjectApi.layers project)
                                 (RawLevelLayer._eid layer)
                  = Some (projectLayer parsed)
               /\ exportID (projectLayer parsed) = RawLevelLayer._eid layer).
Proof.
  intros unmatched. rewrite OgmoLevel_unfold. split; [|split; [|split; [|split]]].
  - intros (i & layer & Hi & Hun).
    destruct (mapiR_some_throw (parse_level_layer project)
                (LevelData.layers levelData) 0%nat)
      as (k & x & e & _ & _ & _ & Hmap).
    { exists i, layer. eexists. split; [exact Hi|].
      apply parse_level_layer_unmatched. exact Hun. }
    rewrite Hmap. eauto.
  - intros index layer Hi Hun Hbefore.
    rewrite (mapiR_first_throw (parse_level_layer project) _ 0%nat index layer
               (UnresolvedLayer index (RawLevelLayer._eid layer)) Hi).
    + split; reflexivity.
    + apply parse_level_layer_unmatched. exact Hun.
    + exact Hbefore.
  - intros index layer Hi Hun.
    pose proof (parse_level_layer_unmatched project layer index Hun) as Hthrow.
    destruct (mapiR_some_throw (parse_level_layer project)
                (LevelData.layers levelData) 0%nat)
      as (k & x & e & Hk & Hf & Hbefore & Hmap).
    { exists index, layer. eexists. split; [exact Hi|exact Hthrow]. }
    simpl in Hf. exists k, x, e.
    assert (Hle : (k <= index)%nat).
    { destruct (Nat.le_gt_cases k index) as [Hle|Hlt]; [exact Hle|].
      destruct (Hbefore index layer Hlt Hi) as [y Hy]. simpl in Hy.
      rewrite Hthrow in Hy. discriminate. }
    split; [exact Hle|]. split; [exact Hk|]. split; [exact Hf|].
    split; [exact Hbefore|]. split.
    + intros ->. rewrite Hi in Hk. injection Hk as <-.
      rewrite Hthrow in Hf. injection Hf as <-. reflexivity.
    + rewrite Hmap. reflexivity.
  - intros first failing e Hfirst Hf Hbefore.
    rewrite (mapiR_first_throw (parse_level_layer project) _ 0%nat first failing e
               Hfirst Hf Hbefore).
    reflexivity.
  - intros level Hok.
    destruct (mapiR (parse_level_layer project) 0%nat (LevelData.layers levelData))
      as [layers|e] eqn:Hmap; [|discriminate].
    cbv zeta in Hok. cbn [snd] in Hok.
    destruct (snd (forEach (realize_layer child_entity project) layers));
      [|discriminate].
    injection Hok as <-. simpl.
    destruct (mapiR_Ok _ _ _ _ Hmap) as [Hlen Hall].
    split; [exact Hlen|].
    intros i layer Hi. destruct (Hall i layer Hi) as (parsed & Hp & Hparse).
    exists parsed. split; [exact Hp|].
    pose proof (parse_level_layer_ok _ _ _ _ Hparse) as Hfound.
    split; [exact Hfound|].
    apply (layer_exported_Some _ _ _ Hfound).
Qed.

(** ** Ogmo: realizing the layers *)

Lemma forEach_all_ok {A} (f : A -> Eff unit) (xs : list A) :
  (forall x, snd (f x) = Ok tt) -> snd (forEach f xs) = Ok tt.
Proof.
  intros Hok. induction xs as [|a xs IH]; [reflexivity|].
  simpl. specialize (Hok a). destruct (f a) as [log r]. simpl in Hok. subst r.
  simpl. destruct (forEach f xs). exact IH.
Qed.

(** The calls of one kind made by a [forEach] whose callback makes one
    such call per element, unless it throws before making it. *)
Lemma forEach_calls {A C} (p : Event -> option C) (f : A -> Eff unit)
    (c : A -> C) (xs : list A) :
  (forall x, omap p (fst (f x)) = [c x]
             \/ (omap p (fst (f x)) = [] /\ exists e, snd (f x) = Throw e)) ->
  omap p (fst (forEach f xs)) `prefix_of` (c <$> xs)
  /\ (snd (forEach f xs) = Ok tt -> omap p (fst (forEach f xs)) = c <$> xs).
Proof.
  intros Hstep. induction xs as [|a xs [IHp IHe]].
  - split; [apply prefix_nil|reflexivity].
  - simpl. specialize (Hstep a). destruct (f a) as [log [[]|e]]; simpl in *.
    + destruct Hstep as [Hcall|[_ [e He]]]; [|discriminate].
      destruct (forEach f xs) as [log' r']. simpl in *.
      rewrite omap_app, Hcall. split.
      * apply (prefix_app [c a]). exact IHp.
      * intros Hr. rewrite (IHe Hr). reflexivity.
    + split; [|discriminate].
      destruct Hstep as [->|[-> _]]; [|apply prefix_nil].
      apply (prefix_cons (c a) [] (c <$> xs)). apply prefix_nil.
Qed.

Lemma run_pure {A} (m : Eff A) :
  (run! m in pureE tt)
  = (fst m, match snd m with Ok _ => Ok tt | Throw e => Throw e end).
Proof. destruct m as [log [a|e]]; simpl; rewrite ?app_nil_r; reflexivity. Qed.

(** [createEntity] on a name that neither the factories object nor
    [Object.prototype] has, on a name that the factories object has as a
    property of its own, and on the inherited name [constructor]. *)
Lemma createEntity_name (factories : gmap string (OgmoEntityData.t -> Eff Entity))
    data :
  (factories !! OgmoEntityData.name data = None ->
   Object_prototype (OgmoEntityData.name data) = None ->
     createEntity factories data
     = ([], Throw (NoEntityFactory (OgmoEntityData.name data))))
  /\ (forall factory : OgmoEntityData.t -> Eff Entity,
        factories !! OgmoEntityData.name data = Some factory ->
        createEntity factories data
        = ([EntityFactoryCall data (fst (factory data))],
           bindR (snd (factory data)) (fun entity => Ok (AnEntity entity))))
  /\ (factories !! OgmoEntityData.name data = None ->
      OgmoEntityData.name data = "constructor"%string ->
        createEntity factories data
        = ([EntityFactoryCall data []], Ok (TheRecord data))).
Proof.
  unfold createEntity, get_property. split; [|split].
  - intros Hown Hproto. rewrite Hown, Hproto. reflexivity.
  - intros factory Hown. rewrite Hown. simpl.
    destruct (factory data); reflexivity.
  - intros Hown Hname. rewrite Hown, Hname. reflexivity.
Qed.

(** [createEntity] makes one call, on the record it was given, unless it
    throws before calling. *)
Lemma createEntity_log (factories : gmap string (OgmoEntityData.t -> Eff Entity))
    data :
  (exists body, fst (createEntity factories data) = [EntityFactoryCall data body])
  \/ (fst (createEntity factories data) = []
      /\ exists e, snd (createEntity factories data) = Throw e).
Proof.
  unfold createEntity, get_property.
  destruct (factories !! OgmoEntityData.name data) as [factory|].
  - left. simpl. destruct (factory data) as [body r]. eauto.
  - destruct (Object_prototype (OgmoEntityData.name data)) as [[]|]; simpl; eauto.
Qed.

Lemma realize_entities (project : OgmoProjectApi.t Entity) pl entities :
  let each :=
    forEach (fun entData =>
               run! OgmoProjectApi.createEntity project (in_radians entData) in
               pureE tt) entities in
  realize_layer child_entity project (LevelEntity pl (Some entities))
  = (UseChildEnter :: UseEntityName (OgmoProjectEntityLayer.name pl)
       :: fst each ++ match snd each with Ok _ => [UseChildLeave] | Throw _ => [] end,
     snd each).
Proof.
  intros each. unfold realize_layer, useChild, forEach_opt. simpl.
  fold (in_radians). change (forEach _ entities) with each.
  destruct each as [log [[]|e]]; simpl; rewrite ?app_nil_r; reflexivity.
Qed.

Lemma realize_decals (project : OgmoProjectApi.t Entity) pl decals :
  let each :=
    forEach (fun decalData =>
               run! OgmoProjectApi.createDecal project decalData in
               pureE tt) decals in
  realize_layer child_entity project (LevelDecal pl (Some decals))
  = (UseChildEnter :: UseEntityName (OgmoProjectDecalLayer.name pl)
       :: fst each ++ match snd each with Ok _ => [UseChildLeave] | Throw _ => [] end,
     snd each).
Proof.
  intros each. unfold realize_layer, useChild, forEach_opt. simpl.
  change (forEach _ decals) with each.
  destruct each as [log [[]|e]]; simpl; rewrite ?app_nil_r; reflexivity.
Qed.

Lemma OgmoProject_api projectData
    (entityFactories : gmap string (OgmoEntityData.t -> Eff Entity))
    decalFactory project :
  snd (OgmoProject child_entity projectData entityFactories decalFactory)
  = Ok project ->
  OgmoProjectApi.createEntity project = createEntity entityFactories
  /\ OgmoProjectApi.createDecal project = createDecal child_entity decalFactory.
Proof.
  rewrite OgmoProject_layers.
  destruct (mapiR _ 0%nat (ProjectData.layers projectData)); [|discriminate].
  simpl. intros [= <-]. split; reflexivity.
Qed.

Lemma radians_formula rotation :
  radians (Some rotation) = (rotation * PI / 180)%R.
Proof.
  unfold radians. destruct (Req_dec_T rotation 0) as [->|_]; lra.
Qed.

(** C5. The entity case hands each placement record to [createEntity] with
    its rotation replaced by the rotation times pi / 180, and by 0 when the
    record has none: the factory calls recorded while an entity layer is
    realized are, in order, the records of the layer so converted (all of
    them when the realization returns, the first ones when it throws). The
    decal case hands each record over as it is: a caller's decal factory
    is called on the records of the layer, and the default one creates,
    for each record, a [Geometry] whose rotation is the record's. *)
Theorem rotation_units
    (entityFactories : gmap string (OgmoEntityData.t -> Eff Entity))
    (projectData : ProjectData.t) :
  (forall degrees, radians (Some degrees) = (degrees * PI / 180)%R)
  /\ radians (Some 90%R) = (PI / 2)%R
  /\ radians None = 0%R
  /\ (forall entData,
        OgmoEntityData.rotation (in_radians entData)
        = Some (radians (OgmoEntityData.rotation entData)))
  /\ (forall decalFactory project pl entities,
        snd (OgmoProject child_entity projectData entityFactories decalFactory)
        = Ok project ->
        let realized :=
          realize_layer child_entity project (LevelEntity pl (Some entities)) in
        entity_calls (fst realized) `prefix_of` (in_radians <$> entities)
        /\ (snd realized = Ok tt ->
            entity_calls (fst realized) = in_radians <$> entities))
  /\ (forall factory project pl decals,
        snd (OgmoProject child_entity projectData entityFactories (Some factory))
        = Ok project ->
        let realized :=
          realize_layer child_entity project (LevelDecal pl (Some decals)) in
        decal_calls (fst realized) `prefix_of` decals
        /\ (snd realized = Ok tt -> decal_calls (fst realized) = decals))
  /\ (forall project pl decals,
        snd (OgmoProject child_entity projectData entityFactories None)
        = Ok project ->
        let realized :=
          realize_layer child_entity project (LevelDecal pl (Some decals)) in
        snd realized = Ok tt
        /\ geometry_rotations (fst realized) = OgmoDecalData.rotation <$> decals).
Proof.
  split; [exact radians_formula|].
  split; [rewrite radians_formula; lra|].
  split; [reflexivity|]. split; [reflexivity|]. split; [|split].
  - intros decalFactory project pl entities Hproject realized. subst realized.
    apply OgmoProject_api in Hproject as [Hce _].
    rewrite realize_entities. cbv zeta. cbn [fst snd]. rewrite Hce.
    set (step := fun entData => _).
    destruct (forEach_calls
                (fun ev => match ev with EntityFactoryCall d _ => Some d | _ => None end)
                step in_radians entities) as [Hp He].
    { intros entData. subst step. cbv beta. rewrite run_pure. cbn [fst snd].
      destruct (createEntity_log entityFactories (in_radians entData))
        as [[body Hlog]|[Hlog [e He]]].
      - left. rewrite Hlog. reflexivity.
      - right. rewrite Hlog, He. eauto. }
    unfold entity_calls. cbn [omap list_omap]. rewrite omap_app.
    assert (Htail : omap (fun ev => match ev with EntityFactoryCall d _ => Some d | _ => None end)
              (match snd (forEach step entities) with
               | Ok _ => [UseChildLeave] | Throw _ => [] end) = []).
    { destruct (snd (forEach step entities)); reflexivity. }
    rewrite Htail, app_nil_r. split; [exact Hp|exact He].
  - intros factory project pl decals Hproject realized. subst realized.
    apply OgmoProject_api in Hproject as [_ Hcd].
    rewrite realize_decals. cbv zeta. cbn [fst snd]. rewrite Hcd.
    set (step := fun decalData => _).
    destruct (forEach_calls
                (fun ev => match ev with DecalFactoryCall d _ => Some d | _ => None end)
                step (fun decalData => decalData) decals) as [Hp He].
    { intros decalData. subst step. cbv beta. left. rewrite run_pure.
      unfold createDecal. cbn [fst]. destruct (factory decalData); reflexivity. }
    assert (Hid : (fun decalData : OgmoDecalData.t => decalData) <$> decals = decals)
      by apply list_fmap_id.
    rewrite Hid in Hp, He.
    unfold decal_calls. cbn [omap list_omap]. rewrite omap_app.
    assert (Htail : omap (fun ev => match ev with DecalFactoryCall d _ => Some d | _ => None end)
              (match snd (forEach step decals) with
               | Ok _ => [UseChildLeave] | Throw _ => [] end) = []).
    { destruct (snd (forEach step decals)); reflexivity. }
    rewrite Htail, app_nil_r. split; [exact Hp|exact He].
  - intros project pl decals Hproject realized. subst realized.
    apply OgmoProject_api in Hproject as [_ Hcd].
    rewrite realize_decals. cbv zeta. cbn [fst snd]. rewrite Hcd.
    set (step := fun decalData => _).
    assert (Hok : snd (forEach step decals) = Ok tt).
    { apply forEach_all_ok. intros decalData. reflexivity. }
    split; [exact Hok|].
    destruct (forEach_calls
                (fun ev => match ev with
                           | UseNewComponent (Geometry _ _ rotation _) => Some rotation
                           | _ => None
                           end)
                step OgmoDecalData.rotation decals) as [_ He].
    { intros decalData. left. reflexivity. }
    unfold geometry_rotations. cbn [omap list_omap]. rewrite omap_app.
    rewrite Hok. cbn [omap list_omap]. rewrite app_nil_r. apply He. exact Hok.
Qed.

End OgmoFacts.

(** ** The statements at the sample data *)

Lemma grid_3_2_wf : wf grid_3_2.
Proof. split; [reflexivity|]. repeat constructor. Qed.

Lemma get_set_bounds_witness :
  (Grid.get grid_3_2 3 0 = Ok (VNumber 0)
   /\ Grid.set 3 0 (VNumber 9) grid_3_2 = (Throw (GridOutOfBounds 3 2 3 0), grid_3_2))
  /\ exists g', Grid.set 2 1 (VNumber 9) grid_3_2 = (Ok tt, g')
                /\ Grid.get g' 2 1 = Ok (VNumber 9).
Proof.
  split.
  - destruct (get_set_bounds grid_3_2 3 0 (VNumber 9)) as [Hout _].
    destruct Hout as (Hget & Hset & _).
    + unfold in_bounds. simpl. lia.
    + split; [exact Hget|exact Hset].
  - destruct (get_set_bounds grid_3_2 2 1 (VNumber 9)) as [_ Hin].
    destruct (Hin grid_3_2_wf) as (cells & stored & g' & _ & _ & _ & Hset & Hget).
    + unfold in_bounds. simpl. lia.
    + exists g'. split; [exact Hset|exact Hget].
Defined.

Lemma setData_row_wrap_witness :
  (exists g',
      Grid.setData one_to_six grid_3_2 = (Ok tt, g')
      /\ Grid.get g' 0 0 = Ok (VNumber 1) /\ Grid.get g' 1 0 = Ok (VNumber 2)
      /\ Grid.get g' 2 0 = Ok (VNumber 3) /\ Grid.get g' 0 1 = Ok (VNumber 4)
      /\ Grid.get g' 1 1 = Ok (VNumber 5) /\ Grid.get g' 2 1 = Ok (VNumber 6))
  /\ (exists g',
        Grid.setData (VNumber <$> [1; 2; 3; 4]) grid_3_2 = (Ok tt, g')
        /\ Grid.get g' 1 1 = Ok (VNumber 0) /\ Grid.get g' 2 1 = Ok (VNumber 0))
  /\ (exists row column g',
        Grid.setData (one_to_six ++ [VNumber 7]) grid_3_2
        = (Throw (GridOutOfBounds 3 2 row column), g')).
Proof.
  split; [|split].
  - destruct (setData_row_wrap grid_3_2 one_to_six grid_3_2_wf) as [Hfit _].
    destruct Hfit as (g' & Hset & _ & _ & Hput & _); [simpl; lia|].
    exists g'. split; [exact Hset|].
    split; [exact (Hput 0 ltac:(simpl; lia))|].
    split; [exact (Hput 1 ltac:(simpl; lia))|].
    split; [exact (Hput 2 ltac:(simpl; lia))|].
    split; [exact (Hput 3 ltac:(simpl; lia))|].
    split; [exact (Hput 4 ltac:(simpl; lia))|exact (Hput 5 ltac:(simpl; lia))].
  - destruct (setData_row_wrap grid_3_2 (VNumber <$> [1; 2; 3; 4]) grid_3_2_wf)
      as [Hfit _].
    destruct Hfit as (g' & Hset & _ & _ & _ & Hkeep & _); [simpl; lia|].
    exists g'. split; [exact Hset|].
    split; [exact (Hkeep 4 ltac:(simpl; lia))|exact (Hkeep 5 ltac:(simpl; lia))].
  - destruct (setData_row_wrap grid_3_2 (one_to_six ++ [VNumber 7]) grid_3_2_wf)
      as [_ Hover].
    destruct Hover as (row & column & g' & Hset & _); [simpl; lia|].
    exists row, column, g'. exact Hset.
Defined.

Lemma contents_after_setData_witness :
  exists g' triples,
    Grid.setData one_to_six grid_3_2 = (Ok tt, g')
    /\ Grid.drain 7 g' (Grid.contents g') = Some (Ok triples)
    /\ triples !! 1%nat = Some (0, 1, VNumber 4)
    /\ (1, 0, VNumber 2) ∈ triples.
Proof.
  destruct (contents_after_setData 3 2 (VNumber 0) one_to_six grid_3_2 eq_refl eq_refl)
    as (g' & triples & Hset & Hdrain & _ & Hat & Hin).
  exists g', triples. split; [exact Hset|].
  split; [apply Hdrain; simpl; lia|].
  split; [exact (Hat 1 ltac:(lia))|exact (Hin 1 ltac:(lia))].
Defined.

Lemma contents_complete_witness :
  exists triples,
    Grid.drain 7 grid_3_2 (Grid.contents grid_3_2) = Some (Ok triples)
    /\ Z.of_nat (length triples) = 6
    /\ NoDup (fst <$> triples)
    /\ exists v, (2, 1, v) ∈ triples.
Proof.
  destruct (contents_complete grid_3_2 grid_3_2_wf)
    as (triples & Hdrain & Hlen & _ & _ & Hall & Hnodup & _).
  exists triples. split; [apply Hdrain; simpl; lia|].
  split; [exact Hlen|]. split; [exact Hnodup|].
  apply Hall. unfold in_bounds. simpl. lia.
Defined.

Lemma failing_set_is_atomic_witness :
  (exists e, Grid.set 0 2 (VNumber 9) grid_3_2 = (Throw e, grid_3_2))
  /\ exists e g',
       Grid.setData (one_to_six ++ [VNumber 7]) grid_3_2 = (Throw e, g')
       /\ Grid.get g' 2 1 = Ok (VNumber 6).
Proof.
  destruct (failing_set_is_atomic grid_3_2) as [Hset Hdata]. split.
  - apply Hset. unfold in_bounds. simpl. lia.
  - destruct (Hdata (one_to_six ++ [VNumber 7]) grid_3_2_wf)
      as (e & g' & Hthrow & _ & _ & Hcells & _); [simpl; lia|].
    exists e, g'. split; [exact Hthrow|].
    apply (Hcells 2 1). unfold in_bounds. simpl. lia.
Defined.

Lemma project_tileset_resolution_witness :
  (exists index l,
      ProjectData.layers (sample_project "nope") !! index = Some (TileLayer l)
      /\ snd (OgmoProject no_child (sample_project "nope") sample_factories None)
         = Throw (UnresolvedTileset index (OgmoProjectTileLayer.defaultTileset l)))
  /\ exists project l' tileset,
       snd (OgmoProject no_child (sample_project "tiles") sample_factories None)
       = Ok project
       /\ OgmoProjectApi.layers project !! 0%nat = Some (TileLayer l')
       /\ OgmoProjectTileLayer.defaultTileset l' = tileset
       /\ OgmoTileset.label tileset = "tiles"%string.
Proof.
  split.
  - destruct (project_tileset_resolution no_child (sample_project "nope")
                sample_factories None) as [Hfail _].
    destruct Hfail as (index & l & Hindex & _ & _ & Hthrow & _).
    + exists 0%nat, (sample_tile_layer "nope"). split; reflexivity.
    + exists index, l. split; [exact Hindex|exact Hthrow].
  - destruct (project_tileset_resolution no_child (sample_project "tiles")
                sample_factories None) as [_ Hok].
    eexists.
    match goal with
    | |- exists l' tileset, ?s = Ok ?p /\ _ =>
        assert (Hproject : s = Ok p) by reflexivity
    end.
    destruct (Hok _ Hproject) as [_ Hlayers].
    destruct (Hlayers 0%nat _ eq_refl) as (l' & tileset & Hl' & Hts & _ & _ & _ & Hlabel).
    exists l', tileset. split; [exact Hproject|]. split; [exact Hl'|].
    split; [exact Hts|exact Hlabel].
Defined.

Lemma sample_api_with_parsed decalFactory :
  snd (OgmoProject no_child (sample_project "tiles") sample_factories decalFactory)
  = Ok (sample_api_with decalFactory).
Proof. reflexivity. Qed.

Lemma sample_api_parsed :
  snd (OgmoProject no_child (sample_project "tiles") sample_factories None)
  = Ok sample_api.
Proof. apply sample_api_with_parsed. Qed.

(** C6, as stated, fails: the second layer of this level names an export
    identifier the project does not have, yet the error thrown is the
    out-of-bounds error of the first layer's grid, which reports neither the
    index nor the identifier of the unmatched layer. *)
Lemma level_unmatched_layer_not_reported :
  LevelData.layers level_overfull_then_unmatched !! 1%nat
  = Some (sample_level_layer "nowhere" 0 0 None)
  /\ layer_exported (OgmoProjectApi.layers sample_api) "nowhere" = None
  /\ snd (OgmoLevel no_child sample_api level_overfull_then_unmatched)
     = Throw (GridOutOfBounds 1 1 0 1)
  /\ forall index eid,
       snd (OgmoLevel no_child sample_api level_overfull_then_unmatched)
       <> Throw (UnresolvedLayer index eid).
Proof.
  assert (H : snd (OgmoLevel no_child sample_api level_overfull_then_unmatched)
              = Throw (GridOutOfBounds 1 1 0 1)) by reflexivity.
  split; [reflexivity|]. split; [reflexivity|]. split; [exact H|].
  intros index eid. rewrite H. discriminate.
Qed.

Lemma level_layer_resolution_witness :
  (exists e, snd (OgmoLevel no_child sample_api level_then_unmatched) = Throw e)
  /\ OgmoLevel no_child sample_api level_then_unmatched
     = ([UseType "Ogmo.Level"], Throw (UnresolvedLayer 1 "nowhere"))
  /\ (exists first failing e,
        (first <= 1)%nat
        /\ LevelData.layers level_overfull_then_unmatched !! first = Some failing
        /\ parse_level_layer sample_api failing first = Throw e
        /\ OgmoLevel no_child sample_api level_overfull_then_unmatched
           = ([UseType "Ogmo.Level"], Throw e))
  /\ OgmoLevel no_child sample_api level_overfull_then_unmatched
     = ([UseType "Ogmo.Level"], Throw (GridOutOfBounds 1 1 0 1))
  /\ exists level parsed,
       snd (OgmoLevel no_child sample_api level_tiles_only) = Ok level
       /\ OgmoLevelApi.layers level !! 0%nat = Some parsed
       /\ exportID (projectLayer parsed) = "L1"%string.
Proof.
  split; [|split; [|split; [|split]]].
  - destruct (level_layer_resolution no_child sample_api level_then_unmatched)
      as [Hfail _].
    apply Hfail. exists 1%nat, (sample_level_layer "nowhere" 0 0 None).
    split; reflexivity.
  - destruct (level_layer_resolution no_child sample_api level_then_unmatched)
      as (_ & Hfirst & _).
    apply (Hfirst 1%nat (sample_level_layer "nowhere" 0 0 None) eq_refl eq_refl).
    intros j earlier Hj Hearlier.
    destruct j as [|j]; [|lia]. injection Hearlier as <-.
    eexists. reflexivity.
  - destruct (level_layer_resolution no_child sample_api
                level_overfull_then_unmatched) as (_ & _ & Hsome & _).
    destruct (Hsome 1%nat (sample_level_layer "nowhere" 0 0 None) eq_refl eq_refl)
      as (first & failing & e & Hle & Hfirst & Hthrow & _ & _ & Hlevel).
    exists first, failing, e. auto.
  - destruct (level_layer_resolution no_child sample_api
                level_overfull_then_unmatched) as (_ & _ & _ & Hthrows & _).
    apply (Hthrows 0%nat (sample_level_layer "L1" 1 1 (Some [VNumber 1; VNumber 2]))
             (GridOutOfBounds 1 1 0 1) eq_refl eq_refl).
    intros j earlier Hj. lia.
  - destruct (level_layer_resolution no_child sample_api level_tiles_only)
      as (_ & _ & _ & _ & Hok).
    eexists.
    match goal with
    | |- exists parsed, ?s = Ok ?l /\ _ => assert (Hlevel : s = Ok l) by reflexivity
    end.
    destruct (Hok _ Hlevel) as [_ Hlayers].
    destruct (Hlayers 0%nat _ eq_refl) as (parsed & Hp & _ & Heid).
    exists parsed. split; [exact Hlevel|]. split; [exact Hp|exact Heid].
Defined.

(** C8. [createEntity] reads [entityFactories[data.name]], and the read
    finds what the object inherits as well as what was registered. With
    the one factory [player] registered, a placement record named
    [constructor] does not fail: the read finds the function [Object], the
    call [Object(data)] hands the record back, nothing is thrown, and the
    realization of an entity layer holding the record returns. A record
    named [ghost], which is found nowhere, throws the error naming [ghost];
    a record named [player] has the factory called on it and gets the
    factory's result. *)
Theorem createEntity_calls_inherited_constructor :
  sample_factories !! "constructor"%string = None
  /\ (forall rotation,
        let data := sample_entity "constructor" rotation in
        createEntity sample_factories data
        = ([EntityFactoryCall data []], Ok (TheRecord data))
        /\ forall e, snd (createEntity sample_factories data) <> Throw e)
  /\ snd (OgmoProject no_child (sample_project "tiles") sample_factories None)
     = Ok sample_api
  /\ realize_layer no_child sample_api
       (LevelEntity sample_entity_layer (Some [sample_entity "constructor" None]))
     = ([UseChildEnter; UseEntityName (OgmoProjectEntityLayer.name sample_entity_layer);
         EntityFactoryCall (in_radians (sample_entity "constructor" None)) [];
         UseChildLeave],
        Ok tt)
  /\ createEntity sample_factories (sample_entity "ghost" None)
     = ([], Throw (NoEntityFactory "ghost"))
  /\ message (NoEntityFactory "ghost")
     = "No Ogmo entity factory defined for: ghost"%string
  /\ createEntity sample_factories (sample_entity "player" None)
     = ([EntityFactoryCall (sample_entity "player" None)
           (fst (player_factory (sample_entity "player" None)))],
        Ok (AnEntity tt)).
Proof.
  split; [reflexivity|]. split.
  { intros rotation data.
    assert (H : createEntity sample_factories data
                = ([EntityFactoryCall data []], Ok (TheRecord data)))
      by reflexivity.
    split; [exact H|]. intros e. rewrite H. discriminate. }
  split; [exact sample_api_parsed|].
  split; [reflexivity|]. split; [reflexivity|]. split; reflexivity.
Qed.

Lemma rotation_units_witness :
  radians (Some 90%R) = (PI / 2)%R
  /\ entity_calls
       (fst (realize_layer no_child sample_api
               (LevelEntity sample_entity_layer
                  (Some [sample_entity "player" (Some 90%R)]))))
     = [in_radians (sample_entity "player" (Some 90%R))]
  /\ decal_calls
       (fst (realize_layer no_child (sample_api_with (Some picture_factory))
               (LevelDecal sample_decal_layer (Some [sample_decal]))))
     = [sample_decal]
  /\ geometry_rotations
       (fst (realize_layer no_child sample_api
               (LevelDecal sample_decal_layer (Some [sample_decal]))))
     = [Some 1.2%R].
Proof.
  destruct (rotation_units no_child sample_factories (sample_project "tiles"))
    as (_ & H90 & _ & _ & Hentity & Hcustom & Hdecal).
  split; [exact H90|]. split; [|split].
  - destruct (Hentity None sample_api sample_entity_layer
                [sample_entity "player" (Some 90%R)] sample_api_parsed) as [_ Heq].
    apply Heq. reflexivity.
  - destruct (Hcustom picture_factory _ sample_decal_layer [sample_decal]
                (sample_api_with_parsed (Some picture_factory))) as [_ Heq].
    apply Heq. reflexivity.
  - destruct (Hdecal sample_api sample_decal_layer [sample_decal] sample_api_parsed)
      as [_ Hrot].
    exact Hrot.
Defined.

(** ** Further properties of Grid *)

Lemma allocate_ok rows columns d :
  0 <= columns <= max_array_length ->
  columns = 0 \/ 0 <= rows <= max_array_length ->
  Grid.allocate rows columns d
  = Ok (Grid.mk (Point.new rows columns)
                (replicate (Z.to_nat columns) (replicate (Z.to_nat rows) d)) d).
Proof.
  unfold max_array_length. intros Hc Hr. unfold Grid.allocate.
  rewrite (Array_ok columns Hc). cbn [bindR].
  destruct Hr as [->|Hr]; [reflexivity|].
  destruct (Z.to_nat columns) as [|n]; [reflexivity|].
  cbn [replicate mapiR]. rewrite (Array_ok rows Hr). cbn [bindR].
  rewrite (mapiR_const (replicate (Z.to_nat rows) d)), length_replicate.
  reflexivity.
Qed.

Lemma Array_throws n :
  ~ 0 <= n <= max_array_length -> Array_ n = Throw (RangeError n).
Proof.
  unfold max_array_length, Array_. intros H.
  destruct (n <? 0) eqn:E1; [reflexivity|].
  destruct (n >? 4294967295) eqn:E2; [reflexivity|]. lia.
Qed.

Lemma constructor_allocates a :
  Grid.constructor a
  = Grid.allocate (fst (extent a)) (snd (extent a))
      match a with
      | Grid.RowsColumns _ _ d => d
      | Grid.RowsAndCols _ _ => VUndefined
      end.
Proof. destruct a; reflexivity. Qed.

(** X1. Either overload of the constructor returns a grid exactly when the
    column count is a valid array length and, unless it is 0, the row count
    is one too; the grid then has the requested size and is well formed. With
    0 columns any row count is accepted, a negative one included. Otherwise
    the constructor throws the range error of the offending length, the
    column count first. *)
Theorem constructor_succeeds_iff (a : Grid.Args) :
  let rows := fst (extent a) in
  let columns := snd (extent a) in
  let valid n := 0 <= n <= max_array_length in
  ((exists g, Grid.constructor a = Ok g)
   <-> valid columns /\ (columns = 0 \/ valid rows))
  /\ (forall g, Grid.constructor a = Ok g ->
        wf g /\ Grid.size g = Point.new rows columns
        /\ Grid.data g = replicate (Z.to_nat columns)
                                   (replicate (Z.to_nat rows) (Grid.defaultValue g)))
  /\ (~ valid columns -> Grid.constructor a = Throw (RangeError columns))
  /\ (valid columns -> columns <> 0 -> ~ valid rows ->
      Grid.constructor a = Throw (RangeError rows)).
Proof.
  intros rows columns valid. rewrite constructor_allocates.
  fold rows columns. set (d := match a with Grid.RowsColumns _ _ d => d | _ => _ end).
  split; [|split; [|split]].
  - split.
    + intros [g Hg]. apply allocate_inv in Hg as (_ & Hc & Hr).
      unfold valid, max_array_length. auto.
    + intros [Hc Hr]. rewrite allocate_ok by assumption. eauto.
  - intros g Hg. apply allocate_inv in Hg as (-> & Hc & Hr). simpl.
    split; [|split; reflexivity].
    split; simpl.
    + rewrite length_replicate. lia.
    + apply Forall_forall. intros cells Hin.
      apply elem_of_replicate in Hin as [-> Hn]. rewrite length_replicate. lia.
  - intros Hc. unfold Grid.allocate. rewrite (Array_throws columns Hc). reflexivity.
  - intros Hc Hc0 Hr. unfold Grid.allocate.
    rewrite (Array_ok columns Hc). cbn [bindR].
    destruct (Z.to_nat columns) as [|n] eqn:E; [unfold valid in Hc; lia|].
    cbn [replicate mapiR]. rewrite (Array_throws rows Hr). reflexivity.
Qed.

(** X2. A [set] inside the bounds of a well-formed grid changes that one
    cell and nothing else: the grid stays well formed, its size and default
    value stay, and [get] answers as before at every other pair of
    coordinates, in bounds or not. *)
Theorem set_changes_one_cell (g : Grid.t) (row column : Z) (v : value) :
  wf g -> in_bounds g row column ->
  exists g',
    Grid.set row column v g = (Ok tt, g')
    /\ wf g'
    /\ Grid.size g' = Grid.size g
    /\ Grid.defaultValue g' = Grid.defaultValue g
    /\ forall row' column',
         Grid.get g' row' column'
         = if decide (row' = row /\ column' = column) then Ok v
           else Grid.get g row' column'.
Proof.
  intros Hwf Hin.
  destruct (set_in g row column v Hwf Hin) as (g' & Hset & Hwf' & Hsz & Hd & Hget & Hother).
  exists g'. repeat (split; [assumption|]).
  intros row' column'. destruct (decide (row' = row /\ column' = column)) as [[-> ->]|Hne].
  - exact Hget.
  - apply Hother. intros [= -> ->]. apply Hne. split; reflexivity.
Qed.

Lemma set_in_data g row column v :
  wf g -> in_bounds g row column ->
  exists cells,
    Grid.data g !! Z.to_nat column = Some cells
    /\ (Z.to_nat row < length cells)%nat
    /\ Grid.set row column v g
       = (Ok tt,
          Grid.mk (Grid.size g)
                  (<[Z.to_nat column := <[Z.to_nat row := v]> cells]> (Grid.data g))
                  (Grid.defaultValue g)).
Proof.
  intros Hwf Hin.
  destruct (wf_cells g row column Hwf Hin) as (cells & old & Hc & Hw & Hold).
  pose proof Hin as Hoob. apply out_of_bounds_false in Hoob.
  destruct Hin as [Hr Hcol].
  exists cells. split; [exact Hc|]. split; [lia|].
  unfold Grid.set, Grid.bind, Grid.this, Grid.put_data. rewrite Hoob, Hc.
  unfold array_set. destruct (decide (Z.to_nat row < length cells)%nat); [reflexivity|lia].
Qed.

Lemma set_in_bounds_after g g' row column v r c :
  Grid.set row column v g = (Ok tt, g') -> wf g -> in_bounds g row column ->
  wf g' /\ (in_bounds g r c -> in_bounds g' r c).
Proof.
  intros Hset Hwf Hin.
  destruct (set_in g row column v Hwf Hin) as (g1 & Hset1 & Hwf1 & Hsz & _).
  rewrite Hset in Hset1. injection Hset1 as ->.
  split; [exact Hwf1|]. unfold in_bounds. rewrite Hsz. auto.
Qed.

(** X3. How writes inside the bounds of a well-formed grid compose. A second
    write to the same cell erases the first; writes to two different cells
    can be swapped; writing back the value [get] returned leaves the grid as
    it was. Each equation is between the whole results: outcome and grid. *)
Theorem set_set (g : Grid.t) :
  wf g ->
  (forall row column v1 v2,
      in_bounds g row column ->
      and_then (Grid.set row column v1) (Grid.set row column v2) g
      = Grid.set row column v2 g)
  /\ (forall row1 column1 v1 row2 column2 v2,
        in_bounds g row1 column1 -> in_bounds g row2 column2 ->
        (row1, column1) <> (row2, column2) ->
        and_then (Grid.set row1 column1 v1) (Grid.set row2 column2 v2) g
        = and_then (Grid.set row2 column2 v2) (Grid.set row1 column1 v1) g)
  /\ (forall row column stored,
        in_bounds g row column ->
        Grid.get g row column = Ok stored ->
        Grid.set row column stored g = (Ok tt, g)).
Proof.
  intros Hwf. split; [|split].
  - intros row column v1 v2 Hin.
    destruct (set_in_data g row column v1 Hwf Hin) as (cells & Hc & Hlen & Hset1).
    destruct (set_in_data g row column v2 Hwf Hin) as (cells' & Hc' & _ & Hset2).
    rewrite Hc in Hc'. injection Hc' as <-.
    destruct (set_in_bounds_after _ _ _ _ _ row column Hset1 Hwf Hin) as [Hwf1 Hin1].
    destruct (set_in_data _ row column v2 Hwf1 (Hin1 Hin)) as (cells1 & Hc1 & _ & Hset12).
    unfold and_then, Grid.bind. rewrite Hset1, Hset12, Hset2.
    cbn [Grid.data Grid.size Grid.defaultValue] in *.
    rewrite list_lookup_insert_eq in Hc1 by (apply lookup_lt_Some in Hc; exact Hc).
    injection Hc1 as <-.
    rewrite !list_insert_insert_eq. reflexivity.
  - intros row1 column1 v1 row2 column2 v2 Hin1 Hin2 Hne.
    destruct (set_in_data g row1 column1 v1 Hwf Hin1) as (cells1 & Hc1 & Hl1 & Hset1).
    destruct (set_in_data g row2 column2 v2 Hwf Hin2) as (cells2 & Hc2 & Hl2 & Hset2).
    destruct (set_in_bounds_after _ _ _ _ _ row2 column2 Hset1 Hwf Hin1) as [Hwf1 Hb1].
    destruct (set_in_bounds_after _ _ _ _ _ row1 column1 Hset2 Hwf Hin2) as [Hwf2 Hb2].
    destruct (set_in_data _ row2 column2 v2 Hwf1 (Hb1 Hin2)) as (cells12 & Hc12 & _ & Hset12).
    destruct (set_in_data _ row1 column1 v1 Hwf2 (Hb2 Hin1)) as (cells21 & Hc21 & _ & Hset21).
    unfold and_then, Grid.bind. rewrite Hset1, Hset12, Hset2, Hset21.
    cbn [Grid.data Grid.size Grid.defaultValue] in *.
    f_equal. f_equal.
    pose proof (lookup_lt_Some _ _ _ Hc1) as Hlc1.
    pose proof (lookup_lt_Some _ _ _ Hc2) as Hlc2.
    destruct (decide (Z.to_nat column1 = Z.to_nat column2)) as [Heq|Hcne].
    + rewrite Heq in *. rewrite Hc1 in Hc2. injection Hc2 as <-.
      rewrite list_lookup_insert_eq in Hc12, Hc21 by exact Hlc1.
      injection Hc12 as <-. injection Hc21 as <-.
      rewrite !list_insert_insert_eq. f_equal.
      apply list_insert_insert_ne.
      intros Hrow. apply Hne. destruct Hin1 as [? ?], Hin2 as [? ?]. f_equal; lia.
    + rewrite list_lookup_insert_ne in Hc12 by exact Hcne.
      rewrite list_lookup_insert_ne in Hc21 by congruence.
      rewrite Hc2 in Hc12. injection Hc12 as <-.
      rewrite Hc1 in Hc21. injection Hc21 as <-.
      apply list_insert_insert_ne. congruence.
  - intros row column stored Hin Hget.
    destruct (set_in_data g row column stored Hwf Hin) as (cells & Hc & Hlen & Hset).
    destruct (get_in g row column Hwf Hin) as (cells' & v & Hc' & Hv & Hget').
    rewrite Hc in Hc'. injection Hc' as <-.
    rewrite Hget in Hget'. injection Hget' as <-.
    rewrite Hset. rewrite (list_insert_id cells _ _ Hv).
    rewrite (list_insert_id _ _ _ Hc). destruct g; reflexivity.
Qed.

(** X4. Whatever the input, [setData] leaves a well-formed grid well formed,
    with its size and default value. It returns normally exactly when the
    input has at most [size.x * size.y] elements. Otherwise the error names
    the coordinates [(0, size.y)], or [(0, 1)] for a grid without columns,
    where the very first element is refused. *)
Theorem setData_keeps_shape (g : Grid.t) (flat : list value) :
  wf g ->
  let w := Point.x (Grid.size g) in
  let h := Point.y (Grid.size g) in
  wf (snd (Grid.setData flat g))
  /\ Grid.size (snd (Grid.setData flat g)) = Grid.size g
  /\ Grid.defaultValue (snd (Grid.setData flat g)) = Grid.defaultValue g
  /\ (fst (Grid.setData flat g) = Ok tt <-> Z.of_nat (length flat) <= w * h)
  /\ (w * h < Z.of_nat (length flat) ->
      fst (Grid.setData flat g)
      = Throw (GridOutOfBounds w h 0 (if decide (0 < w) then h else 1))).
Proof.
  intros Hwf w h.
  destruct (wf_nonneg g Hwf) as [Hh Harea]. fold w h in Hh, Harea.
  destruct (decide (Z.of_nat (length flat) <= w * h)) as [Hfit|Hover].
  - destruct (setData_fits g flat Hwf Hfit) as (g' & Hset & Hwf' & Hsz & Hd & _).
    rewrite Hset. cbn [fst snd]. repeat (split; [assumption|]).
    split; [split; auto|lia].
  - assert (Hover' : w * h < Z.of_nat (length flat)) by lia.
    destruct flat as [|item rest]; [simpl in Hover'; lia|].
    assert (Hres : exists g',
               Grid.setData (item :: rest) g
               = (Throw (GridOutOfBounds w h 0 (if decide (0 < w) then h else 1)), g')
               /\ wf g' /\ Grid.size g' = Grid.size g
               /\ Grid.defaultValue g' = Grid.defaultValue g).
    { destruct (decide (0 < w)) as [Hw|Hw].
      - set (fits := take (Z.to_nat (w * h - 0)) (item :: rest)).
        destruct (setData_fits g fits Hwf) as (g' & Hset & Hwf' & Hsz & Hd & _).
        { subst fits. rewrite length_take. fold w h. lia. }
        exists g'. split; [|auto].
        unfold Grid.setData.
        rewrite (setData_loop_overrun (item :: rest) 0 0 0 g Hwf Hw); fold w h; try lia.
        fold fits. unfold Grid.setData in Hset. rewrite Hset. reflexivity.
      - exists g. split; [|auto]. apply setData_no_width. fold w. lia. }
    destruct Hres as (g' & Hset & Hwf' & Hsz & Hd). rewrite Hset. cbn [fst snd].
    repeat (split; [assumption|]).
    split; [split; [discriminate|lia]|reflexivity].
Qed.

(** X5. Loading twice. When both inputs fit, a second [setData] overwrites
    the first only as far as it reaches: position [k] then holds element [k]
    of the second input if it has one, else element [k] of the first if it
    has one, else what the grid held before. Loading the same input a second
    time changes nothing that [get] can see. *)
Theorem setData_then_setData (g : Grid.t) (a b : list value) :
  wf g ->
  let w := Point.x (Grid.size g) in
  let h := Point.y (Grid.size g) in
  Z.of_nat (length a) <= w * h ->
  Z.of_nat (length b) <= w * h ->
  exists g1 g2,
    Grid.setData a g = (Ok tt, g1)
    /\ Grid.setData b g1 = (Ok tt, g2)
    /\ (forall k, 0 <= k < w * h ->
          Grid.get g2 (k mod w) (k / w)
          = if decide (k < Z.of_nat (length b)) then Ok (flat_at b k)
            else if decide (k < Z.of_nat (length a)) then Ok (flat_at a k)
            else Grid.get g (k mod w) (k / w))
    /\ (a = b -> forall row column,
          Grid.get g2 row column = Grid.get g1 row column).
Proof.
  intros Hwf w h Ha Hb.
  destruct (wf_nonneg g Hwf) as [Hh _]. fold h in Hh.
  destruct (setData_fits g a Hwf Ha) as (g1 & Hset1 & Hwf1 & Hsz1 & _ & Hput1 & Hkeep1).
  destruct (setData_fits g1 b Hwf1) as (g2 & Hset2 & _ & _ & _ & Hput2 & Hkeep2).
  { rewrite Hsz1. exact Hb. }
  rewrite Hsz1 in Hput2, Hkeep2. fold w in Hput1, Hkeep1, Hput2, Hkeep2.
  assert (Hpos : forall k, 0 <= k < w * h ->
            0 <= k mod w < w /\ k / w * w + k mod w = k).
  { intros k Hk. destruct (area_pos w h k Hh Hk) as [_ Hw].
    split; [apply Z.mod_pos_bound; lia|].
    pose proof (Z.div_mod k w ltac:(lia)). lia. }
  exists g1, g2. split; [exact Hset1|]. split; [exact Hset2|]. split.
  - intros k Hk. destruct (Hpos k Hk) as [Hrow Hlin].
    destruct (decide (k < Z.of_nat (length b))); [apply Hput2; lia|].
    rewrite Hkeep2 by lia.
    destruct (decide (k < Z.of_nat (length a))); [apply Hput1; lia|].
    apply Hkeep1. lia.
  - intros <- row column.
    destruct (decide (0 <= row < w
                      /\ 0 <= column * w + row < Z.of_nat (length a))) as [[Hrow Hlin]|Hout].
    + destruct (cursor_div_mod w row column (column * w + row) Hrow eq_refl) as [Hm Hd].
      pose proof (Hput2 (column * w + row) Hlin) as H2.
      pose proof (Hput1 (column * w + row) Hlin) as H1.
      rewrite Hm, Hd in H1, H2. congruence.
    + apply Hkeep2. exact Hout.
Qed.

Lemma take_next_same_step n g f1 f2 :
  Grid.next g f1 = Grid.next g f2 -> take_next (S n) g f1 = take_next (S n) g f2.
Proof. intros H. simpl. rewrite H. reflexivity. Qed.

Lemma take_next_inner g :
  wf g -> 0 < Point.y (Grid.size g) ->
  forall n i j,
    0 <= i < Point.x (Grid.size g) -> 0 <= j <= Point.y (Grid.size g) ->
    i * Point.y (Grid.size g) + j + Z.of_nat n
    <= Point.x (Grid.size g) * Point.y (Grid.size g) ->
    exists ts i' j',
      take_next n g (Grid.AtInner i j) = (ts, Grid.AtInner i' j')
      /\ 0 <= i' < Point.x (Grid.size g) /\ 0 <= j' <= Point.y (Grid.size g)
      /\ i' * Point.y (Grid.size g) + j' = i * Point.y (Grid.size g) + j + Z.of_nat n
      /\ length ts = n
      /\ forall m, 0 <= m < Z.of_nat n ->
           ts !! Z.to_nat m = Some (visit g (i * Point.y (Grid.size g) + j + m)).
Proof.
  intros Hwf Hh.
  set (w := Point.x (Grid.size g)). set (h := Point.y (Grid.size g)). fold h in Hh.
  induction n as [|n IH]; intros i j Hi Hj Hroom.
  - exists [], i, j. repeat (split; [reflexivity || lia|]). intros m Hm. lia.
  - assert (Hstep : forall i j, 0 <= i < w -> 0 <= j < h ->
              i * h + j + Z.of_nat (S n) <= w * h ->
              exists ts i' j',
                take_next (S n) g (Grid.AtInner i j) = (ts, Grid.AtInner i' j')
                /\ 0 <= i' < w /\ 0 <= j' <= h
                /\ i' * h + j' = i * h + j + Z.of_nat (S n)
                /\ length ts = S n
                /\ forall m, 0 <= m < Z.of_nat (S n) ->
                     ts !! Z.to_nat m = Some (visit g (i * h + j + m))).
    { clear i j Hi Hj Hroom. intros i j Hi Hj Hroom.
      cbn [take_next]. rewrite next_inner_lt by (fold h; lia).
      destruct (get_in g i j Hwf) as (_ & v & _ & _ & Hget); [split; fold w h; lia|].
      rewrite Hget.
      destruct (IH i (j + 1)) as (ts & i' & j' & Htake & Hi' & Hj' & Hlin & Hlen & Hts);
        [lia|lia|lia|].
      rewrite Htake. exists ((i, j, v) :: ts), i', j'.
      split; [reflexivity|]. split; [exact Hi'|]. split; [exact Hj'|].
      split; [lia|]. split; [simpl; lia|].
      intros m Hm. destruct (decide (m = 0)) as [->|Hm0].
      - simpl. rewrite Z.add_0_r. unfold visit. fold h.
        destruct (cursor_div_mod h j i (i * h + j)) as [-> ->]; [lia|reflexivity|].
        unfold cell. rewrite Hget. reflexivity.
      - replace (Z.to_nat m) with (S (Z.to_nat (m - 1))) by lia. simpl.
        rewrite Hts by lia. f_equal. f_equal. lia. }
    destruct (decide (j < h)) as [Hlt|Hge].
    + apply Hstep; lia.
    + assert (j = h) as -> by lia. assert (i + 1 < w) by nia.
      rewrite (take_next_same_step n g _ (Grid.AtInner (i + 1) 0)).
      2:{ rewrite next_inner_ge by (fold h; lia). apply next_outer_lt. fold w. lia. }
      destruct (Hstep (i + 1) 0) as (ts & i' & j' & Htake & Hi' & Hj' & Hlin & Hlen & Hts);
        [lia|lia|lia|].
      exists ts, i', j'. split; [exact Htake|]. split; [exact Hi'|].
      split; [exact Hj'|]. split; [lia|]. split; [exact Hlen|].
      intros m Hm. rewrite Hts by exact Hm. f_equal. f_equal. lia.
Qed.

Lemma visits_from g k :
  0 <= k ->
  Z.of_nat (length (visits g k))
  = Z.max 0 (Point.x (Grid.size g) * Point.y (Grid.size g) - k)
  /\ forall m, k <= m < Point.x (Grid.size g) * Point.y (Grid.size g) ->
       visits g k !! Z.to_nat (m - k) = Some (visit g m).
Proof.
  intros Hk. unfold visits. split.
  - rewrite length_fmap, length_seqZ. lia.
  - intros m Hm. rewrite list_lookup_fmap.
    rewrite (proj2 (lookup_seqZ k _ (Z.to_nat (m - k)) m)) by lia. reflexivity.
Qed.

(** X6. The generator of [contents()] can be resumed, and it reads each cell
    when the cell is reached, not when the generator was created. After [n]
    calls of [next()] on a grid, the triples obtained are the first [n] cells
    with the values they had; when the grid is changed by writes before the
    generator is consumed further, the rest of the traversal is the
    remaining cells, in order, with the values the changed grid holds. *)
Theorem contents_resumes_on_current_grid (g g' : Grid.t) (n : nat) :
  wf g -> wf g' -> Grid.size g' = Grid.size g ->
  let w := Point.x (Grid.size g) in
  let h := Point.y (Grid.size g) in
  Z.of_nat n <= w * h ->
  exists first f rest,
    take_next n g (Grid.contents g) = (first, f)
    /\ length first = n
    /\ (forall k, 0 <= k < Z.of_nat n ->
          exists v, first !! Z.to_nat k = Some (k / h, k mod h, v)
                    /\ Grid.get g (k / h) (k mod h) = Ok v)
    /\ (forall fuel, (Z.to_nat (w * h) - n < fuel)%nat ->
          Grid.drain fuel g' f = Some (Ok rest))
    /\ Z.of_nat (length rest) = w * h - Z.of_nat n
    /\ (forall k, Z.of_nat n <= k < w * h ->
          exists v, rest !! Z.to_nat (k - Z.of_nat n) = Some (k / h, k mod h, v)
                    /\ Grid.get g' (k / h) (k mod h) = Ok v).
Proof.
  intros Hwf Hwf' Hsz w h Hn.
  destruct (wf_nonneg g Hwf) as [Hh Harea]. fold w h in Hh, Harea.
  assert (Hvisit : forall g0 k, wf g0 -> Grid.size g0 = Grid.size g ->
            0 <= k < w * h ->
            exists v, visit g0 k = (k / h, k mod h, v)
                      /\ Grid.get g0 (k / h) (k mod h) = Ok v).
  { intros g0 k Hwf0 Hsz0 Hk. exists (cell g0 (k / h) (k mod h)).
    unfold visit. rewrite Hsz0. fold h. split; [reflexivity|].
    apply cell_get; [exact Hwf0|].
    pose proof (visit_in_bounds g0 k Hwf0) as Hb. rewrite Hsz0 in Hb. apply Hb.
    fold w h. exact Hk. }
  assert (Hrest : forall k, 0 <= k ->
            Z.of_nat (length (visits g' k)) = Z.max 0 (w * h - k)
            /\ forall m, k <= m < w * h ->
                 exists v, visits g' k !! Z.to_nat (m - k) = Some (m / h, m mod h, v)
                           /\ Grid.get g' (m / h) (m mod h) = Ok v).
  { intros k Hk. destruct (visits_from g' k Hk) as [Hlen Hat].
    rewrite Hsz in Hlen, Hat. fold w h in Hlen, Hat. split; [exact Hlen|].
    intros m Hm. destruct (Hvisit g' m Hwf' Hsz ltac:(lia)) as (v & Hv & Hget).
    exists v. rewrite (Hat m Hm), Hv. auto. }
  destruct n as [|n].
  - exists [], (Grid.AtOuter 0), (visits g' 0). split; [reflexivity|].
    split; [reflexivity|]. split; [intros k Hk; simpl in Hk; lia|].
    split.
    { intros fuel Hfuel. change (Grid.AtOuter 0) with (Grid.contents g').
      apply drain_contents; [exact Hwf'|]. rewrite Hsz. fold w h. lia. }
    destruct (Hrest 0 ltac:(lia)) as [Hlen Hat].
    split; [simpl; lia|]. intros k Hk. simpl. apply Hat. simpl in Hk. lia.
  - destruct (area_pos w h 0 Hh ltac:(lia)) as [Hhpos Hwpos].
    destruct (take_next_inner g Hwf Hhpos (S n) 0 0)
      as (ts & i' & j' & Htake & Hi' & Hj' & Hlin & Hlen & Hts);
      [fold w; lia|fold h; lia|fold w h; lia|].
    fold w h in Hi', Hj', Hlin, Hts.
    exists ts, (Grid.AtInner i' j'), (visits g' (Z.of_nat (S n))).
    split.
    { unfold Grid.contents.
      rewrite (take_next_same_step n g _ (Grid.AtInner 0 0))
        by (apply next_outer_lt; fold w; lia).
      exact Htake. }
    split; [exact Hlen|]. split.
    { intros k Hk. destruct (Hvisit g k Hwf eq_refl ltac:(lia)) as (v & Hv & Hget).
      exists v. rewrite (Hts k Hk). replace (0 * h + 0 + k) with k by lia.
      rewrite Hv. auto. }
    split.
    { intros fuel Hfuel.
      assert (Hi2 : 0 <= i' < Point.x (Grid.size g')) by (rewrite Hsz; exact Hi').
      assert (Hj2 : 0 <= j' <= Point.y (Grid.size g')) by (rewrite Hsz; exact Hj').
      assert (Hhpos' : 0 < Point.y (Grid.size g')) by (rewrite Hsz; exact Hhpos).
      rewrite (drain_inner g' Hwf' Hhpos' _ i' j' fuel Hi2 Hj2 eq_refl).
      - rewrite Hsz. fold h. rewrite Hlin.
        replace (0 * h + 0 + Z.of_nat (S n)) with (Z.of_nat (S n)) by lia. reflexivity.
      - rewrite Hsz. fold w h. lia. }
    destruct (Hrest (Z.of_nat (S n)) ltac:(lia)) as [Hlen' Hat].
    split; [lia|exact Hat].
Qed.

Lemma next_ends g :
  forall n f,
    (Grid.frame_measure g f <= n)%nat ->
    forall r f', Grid.next g f = (r, f') ->
    (exists t, r = Ok (Some t)) \/ f' = Grid.Finished.
Proof.
  induction n as [|n IH]; intros f Hm r f' Hnext.
  - destruct f as [i|i j|]; simpl in Hm.
    + rewrite next_outer_ge in Hnext by lia. injection Hnext as <- <-. right. reflexivity.
    + lia.
    + simp next in Hnext. injection Hnext as <- <-. right. reflexivity.
  - destruct f as [i|i j|].
    + destruct (decide (i < Point.x (Grid.size g))) as [Hlt|Hge].
      * rewrite next_outer_lt in Hnext by exact Hlt.
        apply (IH (Grid.AtInner i 0)); [simpl in *; lia|exact Hnext].
      * rewrite next_outer_ge in Hnext by lia. injection Hnext as <- <-. right. reflexivity.
    + destruct (decide (j < Point.y (Grid.size g))) as [Hlt|Hge].
      * rewrite next_inner_lt in Hnext by exact Hlt.
        destruct (Grid.get g i j) as [v|e]; injection Hnext as <- <-; [left; eauto|right; reflexivity].
      * rewrite next_inner_ge in Hnext by lia.
        apply (IH (Grid.AtOuter (i + 1))); [simpl in *; lia|exact Hnext].
    + simp next in Hnext. injection Hnext as <- <-. right. reflexivity.
Qed.

(** X7. A generator of [contents()] that has reported the end, or has
    thrown, is finished for good: every later [next()] reports the end
    again, whatever grid it would read by then. *)
Theorem generator_done_is_final (g : Grid.t) (f f' : Grid.Frame)
    (r : Result (option (Z * Z * value))) :
  Grid.next g f = (r, f') ->
  (forall t, r <> Ok (Some t)) ->
  f' = Grid.Finished
  /\ forall g2 fuel,
       Grid.next g2 f' = (Ok None, Grid.Finished)
       /\ Grid.drain (S fuel) g2 f' = Some (Ok []).
Proof.
  intros Hnext Hdone.
  destruct (next_ends g _ f (Nat.le_refl _) r f' Hnext) as [[t ->]| ->].
  - exfalso. apply (Hdone t). reflexivity.
  - split; [reflexivity|]. intros g2 fuel. split; reflexivity.
Qed.

(** ** Further properties of the Ogmo loader *)

Lemma mapiR_all_ok {A B} (f : A -> nat -> Result B) (xs : list A) :
  forall i,
    (forall k x, xs !! k = Some x -> exists y, f x (i + k)%nat = Ok y) ->
    exists ys, mapiR f i xs = Ok ys.
Proof.
  induction xs as [|a xs IH]; intros i Hall; [exists []; reflexivity|].
  destruct (Hall 0%nat a eq_refl) as [b Hb]. rewrite Nat.add_0_r in Hb.
  destruct (IH (S i)) as [bs Hbs].
  { intros k x Hk. replace (S i + k)%nat with (i + S k)%nat by lia.
    apply (Hall (S k) x Hk). }
  exists (b :: bs). simpl. rewrite Hb. simpl. rewrite Hbs. reflexivity.
Qed.

Lemma parse_project_layer_keeps tilesets raw index parsed :
  parse_project_layer tilesets raw index = Ok parsed ->
  definition parsed = definition raw
  /\ layer_name parsed = layer_name raw
  /\ exportID parsed = exportID raw.
Proof.
  destruct raw as [l|l|l|l]; simpl.
  - destruct (find _ tilesets); [|discriminate]. intros [= <-]. auto.
  - intros [= <-]. auto.
  - intros [= <-]. auto.
  - intros [= <-]. auto.
Qed.

Lemma find_first {A} (p : A -> bool) (l : list A) :
  forall i x,
    l !! i = Some x -> p x = true ->
    (forall j y, (j < i)%nat -> l !! j = Some y -> p y = false) ->
    find p l = Some x.
Proof.
  induction l as [|a l IH]; intros i x Hi Hp Hbefore; [destruct i; discriminate|].
  destruct i as [|i]; simpl in Hi.
  - injection Hi as ->. simpl. rewrite Hp. reflexivity.
  - simpl. rewrite (Hbefore 0%nat a ltac:(lia) eq_refl).
    apply (IH i x Hi Hp). intros j y Hj Hy. apply (Hbefore (S j) y); [lia|exact Hy].
Qed.

Lemma find_None_iff {A} (p : A -> bool) (l : list A) :
  find p l = None <-> forall i x, l !! i = Some x -> p x = false.
Proof.
  induction l as [|a l IH]; simpl.
  - split; [intros _ i x Hi; destruct i; discriminate|reflexivity].
  - destruct (p a) eqn:Ha; split.
    + discriminate.
    + intros H. specialize (H 0%nat a eq_refl). congruence.
    + intros Hnone [|i] x Hi; simpl in Hi.
      * injection Hi as <-. exact Ha.
      * apply (proj1 IH Hnone i x Hi).
    + intros H. apply IH. intros i x Hi. apply (H (S i) x Hi).
Qed.

(** What [setData] returns on a well-formed grid. *)
Lemma setData_outcome g flat :
  wf g ->
  exists r g',
    Grid.setData flat g = (r, g')
    /\ wf g' /\ Grid.size g' = Grid.size g
    /\ Grid.defaultValue g' = Grid.defaultValue g
    /\ (r = Ok tt \/ exists row column,
          r = Throw (GridOutOfBounds (Point.x (Grid.size g)) (Point.y (Grid.size g))
                                     row column)).
Proof.
  intros Hwf.
  set (w := Point.x (Grid.size g)). set (h := Point.y (Grid.size g)).
  destruct (wf_nonneg g Hwf) as [Hh Harea]. fold w h in Hh, Harea.
  destruct (decide (Z.of_nat (length flat) <= w * h)) as [Hfit|Hover].
  - destruct (setData_fits g flat Hwf Hfit) as (g' & Hset & Hwf' & Hsz & Hd & _).
    exists (Ok tt), g'. auto 6.
  - destruct flat as [|item rest]; [simpl in Hover; lia|].
    destruct (decide (0 < w)) as [Hw|Hw].
    + set (fits := take (Z.to_nat (w * h - 0)) (item :: rest)).
      destruct (setData_fits g fits Hwf) as (g' & Hset & Hwf' & Hsz & Hd & _).
      { subst fits. rewrite length_take. fold w h. lia. }
      eexists. exists g'. split.
      { unfold Grid.setData.
        rewrite (setData_loop_overrun (item :: rest) 0 0 0 g Hwf Hw); fold w h; try lia.
        fold fits. unfold Grid.setData in Hset. rewrite Hset. reflexivity. }
      split; [exact Hwf'|]. split; [exact Hsz|]. split; [exact Hd|]. right. eauto.
    + eexists. exists g. split; [apply setData_no_width; fold w; lia|].
      split; [exact Hwf|]. split; [reflexivity|]. split; [reflexivity|].
      right. fold w h. eauto.
Qed.

Lemma load_grid_loaded cellsX cellsY d flat grid :
  load_grid cellsX cellsY d flat = Ok grid ->
  exists items, flat = Some items /\ loaded_from grid cellsX cellsY d items.
Proof.
  unfold load_grid.
  destruct (Grid.constructor (Grid.RowsColumns cellsX cellsY d)) as [fresh|e] eqn:Hnew;
    [|discriminate].
  cbn [bindR]. destruct flat as [items|]; [|discriminate].
  destruct (constructor_rows_columns _ _ _ _ Hnew) as [_ Hwf].
  destruct (constructor_rows_columns_fill _ _ _ _ Hnew) as (Hsz & Hd & Hfill).
  destruct (Grid.setData items fresh) as [[[]|e] grid'] eqn:Hset; [|discriminate].
  intros [= <-]. exists items. split; [reflexivity|].
  destruct (decide (Z.of_nat (length items) <= cellsX * cellsY)) as [Hfit|Hover].
  - destruct (setData_fits fresh items Hwf) as (g' & Hset' & Hwf' & Hsz' & Hd' & Hput & Hkeep).
    { rewrite Hsz. exact Hfit. }
    rewrite Hset in Hset'. injection Hset' as <-.
    rewrite Hsz in Hput, Hkeep. cbn [Point.x Point.y] in Hput, Hkeep.
    split; [exact Hwf'|]. split; [congruence|]. split; [congruence|].
    split; [exact Hfit|]. split; [exact Hput|].
    intros k Hk. rewrite Hkeep; [apply Hfill|].
    intros [Hrow Hlin]. pose proof (Z.div_mod k cellsX ltac:(lia)). lia.
  - exfalso.
    destruct (wf_nonneg fresh Hwf) as [Hh Harea]. rewrite Hsz in Hh, Harea.
    cbn [Point.x Point.y] in Hh, Harea.
    destruct items as [|item rest]; [simpl in Hover; lia|].
    destruct (decide (0 < cellsX)) as [Hw|Hw].
    + unfold Grid.setData in Hset.
      rewrite (setData_loop_overrun (item :: rest) 0 0 0 fresh Hwf) in Hset;
        rewrite ?Hsz; cbn [Point.x Point.y]; try lia.
      discriminate.
    + rewrite setData_no_width in Hset by (rewrite Hsz; cbn [Point.x]; lia).
      discriminate.
Qed.

Lemma load_grid_throws cellsX cellsY d flat e :
  load_grid cellsX cellsY d flat = Throw e ->
  forall index eid, e <> UnresolvedLayer index eid.
Proof.
  unfold load_grid.
  destruct (Grid.constructor (Grid.RowsColumns cellsX cellsY d)) as [fresh|e0] eqn:Hnew.
  - cbn [bindR]. destruct flat as [items|]; [|intros [= <-]; discriminate].
    destruct (constructor_rows_columns _ _ _ _ Hnew) as [_ Hwf].
    destruct (setData_outcome fresh items Hwf) as (r & g' & Hset & _ & _ & _ & Hr).
    rewrite Hset. destruct Hr as [->|(row & column & ->)]; [discriminate|].
    intros [= <-]. discriminate.
  - cbn [bindR]. intros [= <-].
    unfold Grid.constructor, Grid.constructor_impl, Grid.allocate in Hnew. simpl in Hnew.
    destruct (Array_ cellsY) as [n|e1] eqn:Hy.
    + cbn [bindR] in Hnew. destruct n as [|n]; [discriminate|].
      cbn [replicate mapiR] in Hnew.
      destruct (Array_ cellsX) as [m|e2] eqn:Hx.
      * cbn [bindR] in Hnew.
        rewrite (mapiR_const (replicate m d)) in Hnew. discriminate.
      * cbn [bindR] in Hnew. injection Hnew as <-.
        unfold Array_ in Hx.
        destruct ((cellsX <? 0) || (cellsX >? 4294967295)); [|discriminate].
        injection Hx as <-. discriminate.
    + cbn [bindR] in Hnew. injection Hnew as <-.
      unfold Array_ in Hy.
      destruct ((cellsY <? 0) || (cellsY >? 4294967295)); [|discriminate].
      injection Hy as <-. discriminate.
Qed.

Section OgmoMore.
Context {Entity : Type} (child_entity : list Event -> Entity).

(** X8. [Ogmo.Project] returns exactly when every tile layer of the project
    file names a tileset of the file. The parsed layers are then as many
    as the layers of the file and keep, index by index, their kind, name
    and export identifier. Parsing calls nothing but [useType]. *)
Theorem project_parses_iff (projectData : ProjectData.t)
    (entityFactories : gmap string (OgmoEntityData.t -> Eff Entity))
    (decalFactory : option (OgmoDecalData.t -> Eff Entity)) :
  let tilesets := map parse_tileset (ProjectData.tilesets projectData) in
  let parsed := OgmoProject child_entity projectData entityFactories decalFactory in
  ((exists project, snd parsed = Ok project)
   <-> forall i layer, ProjectData.layers projectData !! i = Some layer ->
                       ~ unresolved_tileset tilesets layer)
  /\ (forall project,
        snd parsed = Ok project ->
        length (OgmoProjectApi.layers project)
        = length (ProjectData.layers projectData)
        /\ forall i raw,
             ProjectData.layers projectData !! i = Some raw ->
             exists layer,
               OgmoProjectApi.layers project !! i = Some layer
               /\ definition layer = definition raw
               /\ layer_name layer = layer_name raw
               /\ exportID layer = exportID raw)
  /\ fst parsed = [UseType "Ogmo.Project"].
Proof.
  intros tilesets parsed. subst parsed. rewrite OgmoProject_layers. fold tilesets.
  split; [|split].
  - split.
    + intros [project Hok] i layer Hi Hun.
      destruct (mapiR (parse_project_layer tilesets) 0%nat
                      (ProjectData.layers projectData)) as [layers|e] eqn:Hmap;
        [|discriminate].
      destruct (mapiR_Ok _ _ _ _ Hmap) as [_ Hall].
      destruct (Hall i layer Hi) as (y & _ & Hparse).
      destruct layer as [l|l|l|l]; try contradiction.
      simpl in Hparse. unfold unresolved_tileset, tileset_labelled in Hun.
      rewrite Hun in Hparse. discriminate.
    + intros Hres.
      destruct (mapiR_all_ok (parse_project_layer tilesets)
                  (ProjectData.layers projectData) 0%nat) as [layers Hmap].
      { intros k x Hk. apply parse_project_layer_ok. exact (Hres k x Hk). }
      rewrite Hmap. eauto.
  - intros project Hok.
    destruct (mapiR (parse_project_layer tilesets) 0%nat
                    (ProjectData.layers projectData)) as [layers|e] eqn:Hmap;
      [|discriminate].
    simpl in Hok. injection Hok as <-. simpl.
    destruct (mapiR_Ok _ _ _ _ Hmap) as [Hlen Hall].
    split; [exact Hlen|]. intros i raw Hi.
    destruct (Hall i raw Hi) as (layer & Hlayer & Hparse).
    exists layer. split; [exact Hlayer|].
    apply (parse_project_layer_keeps _ _ _ _ Hparse).
  - destruct (mapiR _ 0%nat (ProjectData.layers projectData)); reflexivity.
Qed.

Lemma OgmoProject_keeps_layers projectData
    (entityFactories : gmap string (OgmoEntityData.t -> Eff Entity))
    decalFactory project :
  snd (OgmoProject child_entity projectData entityFactories decalFactory)
  = Ok project ->
  forall i,
    (forall raw,
        ProjectData.layers projectData !! i = Some raw ->
        exists found,
          OgmoProjectApi.layers project !! i = Some found
          /\ exportID found = exportID raw /\ definition found = definition raw)
    /\ (forall found,
          OgmoProjectApi.layers project !! i = Some found ->
          exists raw,
            ProjectData.layers projectData !! i = Some raw
            /\ exportID found = exportID raw /\ definition found = definition raw).
Proof.
  rewrite OgmoProject_layers.
  destruct (mapiR _ 0%nat (ProjectData.layers projectData)) as [layers|e] eqn:Hmap;
    [|discriminate].
  cbn [snd]. intros [= <-] i. cbn [OgmoProjectApi.layers].
  destruct (mapiR_Ok _ _ _ _ Hmap) as [Hlen Hall].
  assert (Hfwd : forall raw,
            ProjectData.layers projectData !! i = Some raw ->
            exists found,
              layers !! i = Some found
              /\ exportID found = exportID raw /\ definition found = definition raw).
  { intros raw Hraw. destruct (Hall i raw Hraw) as (layer & Hlayer & Hparse).
    destruct (parse_project_layer_keeps _ _ _ _ Hparse) as (Hd & _ & He).
    exists layer. auto. }
  split; [exact Hfwd|].
  intros found Hfound.
  destruct (lookup_lt_is_Some_2 (ProjectData.layers projectData) i) as [raw Hraw].
  { rewrite <- Hlen. exact (lookup_lt_Some _ _ _ Hfound). }
  destruct (Hfwd raw Hraw) as (found' & Hfound' & He & Hd).
  exists raw. split; [exact Hraw|].
  assert (found' = found) as -> by congruence. auto.
Qed.

(** X9. A layer instance of a level is matched against the layers of the
    project file by export identifier. Its parsing throws the unresolved
    layer error exactly when no layer of the file has its [_eid]; otherwise
    it resolves to the first layer of the file with that identifier, and,
    when its parsing returns, the level layer carries that project layer
    and is of its kind. *)
Theorem level_layer_resolves_by_export_id (projectData : ProjectData.t)
    (entityFactories : gmap string (OgmoEntityData.t -> Eff Entity))
    (decalFactory : option (OgmoDecalData.t -> Eff Entity))
    (project : OgmoProjectApi.t Entity) (layer : RawLevelLayer.t) (index : nat) :
  snd (OgmoProject child_entity projectData entityFactories decalFactory)
  = Ok project ->
  ((exists index' eid,
       parse_level_layer project layer index = Throw (UnresolvedLayer index' eid))
   <-> forall i raw, ProjectData.layers projectData !! i = Some raw ->
                     exportID raw <> RawLevelLayer._eid layer)
  /\ (forall i raw,
        ProjectData.layers projectData !! i = Some raw ->
        exportID raw = RawLevelLayer._eid layer ->
        (forall j earlier, (j < i)%nat ->
           ProjectData.layers projectData !! j = Some earlier ->
           exportID earlier <> RawLevelLayer._eid layer) ->
        exists found,
          OgmoProjectApi.layers project !! i = Some found
          /\ layer_exported (OgmoProjectApi.layers project)
                            (RawLevelLayer._eid layer) = Some found
          /\ definition found = definition raw
          /\ forall parsed,
               parse_level_layer project layer index = Ok parsed ->
               projectLayer parsed = found).
Proof.
  intros Hproject.
  pose proof (OgmoProject_keeps_layers _ _ _ _ Hproject) as Hkeep.
  split.
  - split.
    + intros (index' & eid & Hthrow) i raw Hraw Heq.
      destruct (Hkeep i) as [Hfwd _].
      destruct (Hfwd raw Hraw) as (found & Hfound & He & _).
      unfold parse_level_layer in Hthrow.
      match type of Hthrow with
      | context [find ?p ?l] => destruct (find p l) as [pl|] eqn:Hfind
      end.
      * destruct pl as [pl|pl|pl|pl]; try discriminate.
        -- destruct (load_grid _ _ _ (RawLevelLayer.data layer)) eqn:Hload;
             [discriminate|].
           simpl in Hthrow. injection Hthrow as ->.
           exact (load_grid_throws _ _ _ _ _ Hload _ _ eq_refl).
        -- destruct (load_grid _ _ _ (RawLevelLayer.grid layer)) eqn:Hload;
             [discriminate|].
           simpl in Hthrow. injection Hthrow as ->.
           exact (load_grid_throws _ _ _ _ _ Hload _ _ eq_refl).
      * pose proof (proj1 (find_None_iff _ _) Hfind i found Hfound) as Hno.
        simpl in Hno. apply String.eqb_neq in Hno. congruence.
    + intros Hnone. exists index, (RawLevelLayer._eid layer).
      apply parse_level_layer_unmatched. unfold layer_exported.
      apply find_None_iff. intros i found Hfound. apply String.eqb_neq.
      destruct (Hkeep i) as [_ Hback].
      destruct (Hback found Hfound) as (raw & Hraw & He & _).
      rewrite He. exact (Hnone i raw Hraw).
  - intros i raw Hraw Heq Hbefore.
    destruct (Hkeep i) as [Hfwd _].
    destruct (Hfwd raw Hraw) as (found & Hfound & He & Hd).
    assert (Hexp : layer_exported (OgmoProjectApi.layers project)
                     (RawLevelLayer._eid layer) = Some found).
    { apply (find_first _ _ i found Hfound).
      - apply String.eqb_eq. congruence.
      - intros j y Hj Hy. apply String.eqb_neq.
        destruct (Hkeep j) as [_ Hback].
        destruct (Hback y Hy) as (earlier & Hearlier & Hej & _).
        rewrite Hej. exact (Hbefore j earlier Hj Hearlier). }
    exists found. split; [exact Hfound|]. split; [exact Hexp|]. split; [exact Hd|].
    intros parsed Hparsed.
    pose proof (parse_level_layer_ok _ _ _ _ Hparsed) as Hfound'.
    congruence.
Qed.

(** X10. A tile layer or grid layer of a parsed level holds the flat array
    of its layer instance: its grid has the extent [gridCellsX] by
    [gridCellsY]; the array, which has at most that many elements, is read
    back at [(k mod gridCellsX, k div gridCellsX)]; the cells after it hold
    the default, 0 for tiles and the empty string for legend codes. An
    array that does not fit is never truncated: the layer does not parse. *)
Theorem level_grid_holds_flat_data (project : OgmoProjectApi.t Entity)
    (layer : RawLevelLayer.t) (index : nat) :
  let cellsX := RawLevelLayer.gridCellsX layer in
  let cellsY := RawLevelLayer.gridCellsY layer in
  (forall pl grid,
      parse_level_layer project layer index = Ok (LevelTile pl grid) ->
      exists items,
        RawLevelLayer.data layer = Some items
        /\ loaded_from grid cellsX cellsY (VNumber 0) items)
  /\ (forall pl grid,
        parse_level_layer project layer index = Ok (LevelGrid pl grid) ->
        exists items,
          RawLevelLayer.grid layer = Some items
          /\ loaded_from grid cellsX cellsY (VString EmptyString) items).
Proof.
  intros cellsX cellsY. unfold parse_level_layer.
  match goal with
  | |- context [find ?p ?l] => destruct (find p l) as [[pl'|pl'|pl'|pl']|]
  end; split; intros pl grid Hparse; try discriminate.
  - destruct (load_grid _ _ _ (RawLevelLayer.data layer)) as [g|e] eqn:Hload;
      [|discriminate].
    injection Hparse as _ <-. exact (load_grid_loaded _ _ _ _ _ Hload).
  - destruct (load_grid _ _ _ (RawLevelLayer.data layer)); discriminate.
  - destruct (load_grid _ _ _ (RawLevelLayer.grid layer)); discriminate.
  - destruct (load_grid _ _ _ (RawLevelLayer.grid layer)) as [g|e] eqn:Hload;
      [|discriminate].
    injection Hparse as _ <-. exact (load_grid_loaded _ _ _ _ _ Hload).
Qed.

(** X11. Every layer of a level is parsed before anything is realized: if
    any layer instance, wherever it stands in the level, fails to parse,
    [Ogmo.Level] throws having called nothing but [useType] -- no child
    entity is created and no factory is called. *)
Theorem level_parse_failure_has_no_effects (project : OgmoProjectApi.t Entity)
    (levelData : LevelData.t) :
  (exists index layer e,
      LevelData.layers levelData !! index = Some layer
      /\ parse_level_layer project layer index = Throw e) ->
  exists e,
    OgmoLevel child_entity project levelData = ([UseType "Ogmo.Level"], Throw e).
Proof.
  intros (index & layer & e & Hlayer & Hthrow).
  destruct (mapiR_some_throw (parse_level_layer project)
              (LevelData.layers levelData) 0%nat)
    as (k & x & e' & _ & _ & _ & Hmap).
  { exists index, layer, e. auto. }
  exists e'. rewrite OgmoLevel_unfold, Hmap. reflexivity.
Qed.
(** ** The calls of a level, those of the caller's factories included *)

Lemma all_calls_app l1 l2 : all_calls (l1 ++ l2) = all_calls l1 ++ all_calls l2.
Proof. apply flat_map_app. Qed.

Lemma omap_flat_map {A B C} (p : B -> option C) (f : A -> list B) (xs : list A) :
  omap p (flat_map f xs) = flat_map (fun x => omap p (f x)) xs.
Proof.
  induction xs as [|a xs IH]; [reflexivity|].
  simpl. rewrite omap_app, IH. reflexivity.
Qed.

Lemma flat_map_nil {A C} (xs : list A) :
  flat_map (fun _ : A => @nil C) xs = [].
Proof. induction xs as [|a xs IH]; [reflexivity|exact IH]. Qed.

(** What a [forEach] that returns has logged, seen through a selection of
    calls. *)
Lemma forEach_log {A C} (p : Event -> option C) (f : A -> Eff unit)
    (c : A -> list C) (xs : list A) :
  snd (forEach f xs) = Ok tt ->
  (forall x, snd (f x) = Ok tt -> omap p (all_calls (fst (f x))) = c x) ->
  omap p (all_calls (fst (forEach f xs))) = flat_map c xs.
Proof.
  intros Hok Hstep. induction xs as [|a xs IH]; [reflexivity|].
  simpl in *. specialize (Hstep a).
  destruct (f a) as [log [[]|e]]; simpl in *; [|discriminate].
  destruct (forEach f xs) as [log' r']. simpl in *.
  rewrite all_calls_app, omap_app, (Hstep eq_refl), (IH Hok). reflexivity.
Qed.

Lemma createEntity_all_calls
    (entityFactories : gmap string (OgmoEntityData.t -> Eff Entity)) entData :
  all_calls (fst (createEntity entityFactories (in_radians entData)))
  = match entityFactories !! OgmoEntityData.name entData with
    | Some factory => all_calls (fst (factory (in_radians entData)))
    | None => []
    end.
Proof.
  unfold createEntity, get_property.
  change (OgmoEntityData.name (in_radians entData))
    with (OgmoEntityData.name entData).
  destruct (entityFactories !! OgmoEntityData.name entData) as [factory|].
  - simpl. destruct (factory (in_radians entData)) as [body r]. simpl.
    apply app_nil_r.
  - destruct (Object_prototype (OgmoEntityData.name entData)) as [[]|];
      reflexivity.
Qed.

(** The calls selected by [p] among all those of a layer that has been
    realized: those of the loader, which depend on the kind of the layer,
    and those of the caller's factories. *)
Lemma realize_layer_calls {C} (p : Event -> option C)
    (entityFactories : gmap string (OgmoEntityData.t -> Eff Entity))
    decalFactory (project : OgmoProjectApi.t Entity) layer :
  OgmoProjectApi.createEntity project = createEntity entityFactories ->
  OgmoProjectApi.createDecal project = createDecal child_entity decalFactory ->
  snd (realize_layer child_entity project layer) = Ok tt ->
  omap p (all_calls (fst (realize_layer child_entity project layer)))
  = omap p [UseChildEnter; UseEntityName (layer_name (projectLayer layer))]
    ++ match layer, decalFactory with
       | LevelTile pl data, _ =>
           let tileset := OgmoProjectTileLayer.defaultTileset pl in
           let sheet :=
             SpriteSheet (OgmoTileset.path tileset)
                         (Vector.x (OgmoTileset.tileSize tileset))
                         (Vector.y (OgmoTileset.tileSize tileset)) in
           omap p [UseNewComponent sheet; UseNewComponent (TileMap sheet data);
                   UseDraw (TileMap sheet data)]
       | LevelDecal _ (Some decals), None =>
           flat_map (fun decalData =>
                       omap p (fst (defaultDecalFactory child_entity decalData)))
                    decals
       | _, _ => omap p (made_by_factories entityFactories decalFactory layer)
       end
    ++ omap p [UseChildLeave].
Proof.
  intros Hce Hcd.
  destruct layer as [pl data|pl grid|pl [entities|]|pl [decals|]].
  - intros _.
    change (all_calls (fst (realize_layer child_entity project (LevelTile pl data))))
      with ([UseChildEnter; UseEntityName (layer_name (projectLayer (LevelTile pl data)))]
              ++ (let tileset := OgmoProjectTileLayer.defaultTileset pl in
                  let sheet :=
                    SpriteSheet (OgmoTileset.path tileset)
                                (Vector.x (OgmoTileset.tileSize tileset))
                                (Vector.y (OgmoTileset.tileSize tileset)) in
                  [UseNewComponent sheet; UseNewComponent (TileMap sheet data);
                   UseDraw (TileMap sheet data)])
              ++ [UseChildLeave]).
    rewrite !omap_app. destruct decalFactory; reflexivity.
  - intros _.
    change (all_calls (fst (realize_layer child_entity project (LevelGrid pl grid))))
      with ([UseChildEnter; UseEntityName (layer_name (projectLayer (LevelGrid pl grid)))]
              ++ [] ++ [UseChildLeave]).
    rewrite !omap_app. destruct decalFactory; reflexivity.
  - rewrite realize_entities. cbv zeta. cbn [fst snd]. rewrite Hce. intros Hok.
    rewrite Hok.
    change (all_calls (UseChildEnter :: UseEntityName ?n :: ?l))
      with (UseChildEnter :: UseEntityName n :: all_calls l).
    rewrite all_calls_app.
    change (?a :: ?b :: ?l ++ ?t) with ([a; b] ++ (l ++ t)).
    rewrite !omap_app. f_equal.
    assert (Hmade : omap p (made_by_factories entityFactories decalFactory
                              (LevelEntity pl (Some entities)))
                    = flat_map (fun entData =>
                                  omap p
                                    match entityFactories !! OgmoEntityData.name entData with
                                    | Some factory =>
                                        all_calls (fst (factory (in_radians entData)))
                                    | None => []
                                    end) entities)
      by apply omap_flat_map.
    destruct decalFactory; cbv iota; rewrite Hmade; f_equal;
      (apply forEach_log; [exact Hok|]; intros entData _;
       rewrite run_pure; cbn [fst];
       rewrite createEntity_all_calls; reflexivity).
  - discriminate.
  - rewrite realize_decals. cbv zeta. cbn [fst snd]. rewrite Hcd. intros Hok.
    rewrite Hok.
    change (all_calls (UseChildEnter :: UseEntityName ?n :: ?l))
      with (UseChildEnter :: UseEntityName n :: all_calls l).
    rewrite all_calls_app.
    change (?a :: ?b :: ?l ++ ?t) with ([a; b] ++ (l ++ t)).
    rewrite !omap_app. f_equal.
    destruct decalFactory as [factory|]; cbv iota; f_equal.
    + unfold made_by_factories. rewrite omap_flat_map.
      apply forEach_log; [exact Hok|]. intros decalData _.
      rewrite run_pure. unfold createDecal. cbn [fst].
      destruct (factory decalData) as [body r]. simpl. rewrite app_nil_r.
      reflexivity.
    + apply forEach_log; [exact Hok|]. intros decalData _. reflexivity.
  - discriminate.
Qed.

Lemma OgmoLevel_calls {C} (p : Event -> option C) (c : OgmoLevelLayer -> list C)
    (project : OgmoProjectApi.t Entity) levelData log level :
  OgmoLevel child_entity project levelData = (log, Ok level) ->
  (forall layer,
      snd (realize_layer child_entity project layer) = Ok tt ->
      omap p (all_calls (fst (realize_layer child_entity project layer))) = c layer) ->
  omap p (all_calls log)
  = omap p [UseType "Ogmo.Level"] ++ flat_map c (OgmoLevelApi.layers level).
Proof.
  rewrite OgmoLevel_unfold.
  destruct (mapiR (parse_level_layer project) 0%nat (LevelData.layers levelData))
    as [layers|e]; [|discriminate].
  cbv zeta.
  destruct (forEach (realize_layer child_entity project) layers) as [log' r] eqn:Hrun.
  cbn [fst snd]. destruct r as [[]|e]; [|discriminate].
  intros [= <- <-] Hstep. cbn [OgmoLevelApi.layers].
  change (all_calls (UseType "Ogmo.Level" :: log'))
    with ([UseType "Ogmo.Level"] ++ all_calls log').
  rewrite omap_app. f_equal.
  replace log' with (fst (forEach (realize_layer child_entity project) layers))
    by (rewrite Hrun; reflexivity).
  apply forEach_log; [rewrite Hrun; reflexivity|exact Hstep].
Qed.

(** X12. Each layer of a level is realized inside a child entity named
    after its project layer. When [Ogmo.Level] returns, the entity names
    given during the run, those given by the factories of the caller
    included, are layer after layer: the name of the layer's project
    layer, given by [Ogmo.Level], and then the names given inside the
    factories called for the layer's entities or decals, in the order of
    the placements. *)
Theorem layers_realized_under_their_names (projectData : ProjectData.t)
    (entityFactories : gmap string (OgmoEntityData.t -> Eff Entity))
    (decalFactory : option (OgmoDecalData.t -> Eff Entity))
    (project : OgmoProjectApi.t Entity) (levelData : LevelData.t)
    (log : list Event) (level : OgmoLevelApi.t) :
  snd (OgmoProject child_entity projectData entityFactories decalFactory)
  = Ok project ->
  OgmoLevel child_entity project levelData = (log, Ok level) ->
  entity_names (all_calls log)
  = flat_map (fun layer =>
                layer_name (projectLayer layer)
                  :: entity_names
                       (made_by_factories entityFactories decalFactory layer))
             (OgmoLevelApi.layers level).
Proof.
  intros Hproject Hlevel. apply OgmoProject_api in Hproject as [Hce Hcd].
  unfold entity_names.
  match goal with
  | |- _ = flat_map ?c _ =>
      rewrite (OgmoLevel_calls _ c project levelData log level Hlevel);
        [reflexivity|]
  end.
  intros layer Hok.
  rewrite (realize_layer_calls _ entityFactories decalFactory project layer
             Hce Hcd Hok).
  cbn [omap list_omap app]. rewrite app_nil_r.
  destruct layer as [pl data|pl grid|pl entities|pl [decals|]];
    destruct decalFactory as [factory|]; try reflexivity.
  cbn [made_by_factories omap list_omap]. f_equal. apply flat_map_nil.
Qed.

(** X16. The components a level creates. When [Ogmo.Level] returns, the
    components created during the run, those created by the factories of
    the caller included, are layer after layer: for a tile layer, a sprite
    sheet of the layer's tileset (its path and tile size) and a tile map
    of that sheet and the layer's grid; for each decal of a decal layer
    realized by default, a [Geometry] at the decal's position with its
    rotation and its scale (1 where none is given) and an [Image] of its
    texture; for an entity layer, and for a decal layer handed to the
    caller's decal factory, what the factories called for the placements
    create, [Ogmo.Level] adding nothing of its own; and nothing for a
    grid layer. *)
Theorem level_components (projectData : ProjectData.t)
    (entityFactories : gmap string (OgmoEntityData.t -> Eff Entity))
    (decalFactory : option (OgmoDecalData.t -> Eff Entity))
    (project : OgmoProjectApi.t Entity) (levelData : LevelData.t)
    (log : list Event) (level : OgmoLevelApi.t) :
  snd (OgmoProject child_entity projectData entityFactories decalFactory)
  = Ok project ->
  OgmoLevel child_entity project levelData = (log, Ok level) ->
  components (all_calls log)
  = flat_map (fun layer =>
                match layer, decalFactory with
                | LevelTile pl data, _ => tile_components pl data
                | LevelGrid _ _, _ => []
                | LevelDecal _ (Some decals), None =>
                    flat_map decal_components decals
                | _, _ =>
                    components
                      (made_by_factories entityFactories decalFactory layer)
                end) (OgmoLevelApi.layers level).
Proof.
  intros Hproject Hlevel. apply OgmoProject_api in Hproject as [Hce Hcd].
  unfold components.
  match goal with
  | |- _ = flat_map ?c _ =>
      rewrite (OgmoLevel_calls _ c project levelData log level Hlevel);
        [reflexivity|]
  end.
  intros layer Hok.
  rewrite (realize_layer_calls _ entityFactories decalFactory project layer
             Hce Hcd Hok).
  cbn [omap list_omap app]. rewrite app_nil_r.
  destruct layer as [pl data|pl grid|pl entities|pl [decals|]];
    destruct decalFactory as [factory|]; reflexivity.
Qed.

End OgmoMore.

(** ** Label *)

Lemma label_step_synced font label c :
  Label.size (Label.step font label c) = measured font (Label.text (Label.step font label c))
  /\ Label.text (Label.step font label c)
     = match c with Label.Assign v => v | Label.Frame => Label.text label end.
Proof. destruct c; split; reflexivity. Qed.

(** X14. With a font whose measurements do not change, a label's size is
    always the measured size of its current text (width, and height plus
    descender), from its creation on and after any sequence of assignments to
    [text] and frames; its text is the last one assigned, or the initial one
    (the empty string by default); and [draw] draws that text, at (0, 0)
    unless told otherwise, only when the font is ready. *)
Theorem label_size_tracks_text (font : FontImplementation.t)
    (initial : option string) (calls : list Label.Call) :
  let label := Label.run font calls (Label.new initial font) in
  Label.get_text label
  = List.last (Label.assigned calls) (default EmptyString initial)
  /\ Label.size label = measured font (Label.get_text label)
  /\ forall x y,
       Label.draw font label x y
       = if FontImplementation.readyToDraw font
         then [Label.DrawText (List.last (Label.assigned calls) (default EmptyString initial))
                              (default 0%R x) (default 0%R y)]
         else [].
Proof.
  intros label.
  assert (H : Label.text label
              = List.last (Label.assigned calls) (default EmptyString initial)
              /\ Label.size label = measured font (Label.text label)).
  { subst label. induction calls as [|c calls IH] using rev_ind.
    - split; reflexivity.
    - unfold Label.run in *. rewrite fold_left_app. cbn [fold_left].
      destruct (label_step_synced font
                  (fold_left (Label.step font) calls (Label.new initial font)) c)
        as [Hsize Htext].
      split; [|exact Hsize].
      rewrite Htext. unfold Label.assigned. rewrite omap_app.
      destruct c as [v|]; cbn [omap list_omap].
      + rewrite last_last. reflexivity.
      + rewrite app_nil_r. apply IH. }
  destruct H as [Htext Hsize]. unfold Label.get_text.
  split; [exact Htext|]. split; [exact Hsize|].
  intros x y. unfold Label.draw. rewrite Htext. reflexivity.
Qed.

(** ** The further statements at the sample data *)

Lemma constructor_succeeds_iff_witness :
  (exists g, Grid.constructor (Grid.RowsColumns (-1) 0 (VNumber 0)) = Ok g)
  /\ Grid.constructor (Grid.RowsColumns 3 (-2) (VNumber 0)) = Throw (RangeError (-2))
  /\ Grid.constructor (Grid.RowsAndCols (Point.new (-1) 2) (VNumber 0))
     = Throw (RangeError (-1))
  /\ wf grid_3_2.
Proof.
  split; [|split; [|split]].
  - destruct (constructor_succeeds_iff (Grid.RowsColumns (-1) 0 (VNumber 0)))
      as [[_ Hok] _].
    apply Hok. unfold max_array_length. simpl. lia.
  - destruct (constructor_succeeds_iff (Grid.RowsColumns 3 (-2) (VNumber 0)))
      as (_ & _ & Hcolumns & _).
    apply Hcolumns. unfold max_array_length. simpl. lia.
  - destruct (constructor_succeeds_iff (Grid.RowsAndCols (Point.new (-1) 2) (VNumber 0)))
      as (_ & _ & _ & Hrows).
    apply Hrows; unfold max_array_length; simpl; lia.
  - destruct (constructor_succeeds_iff (Grid.RowsColumns 3 2 (VNumber 0)))
      as (_ & Hshape & _).
    apply (Hshape grid_3_2 eq_refl).
Defined.

Lemma set_changes_one_cell_witness :
  exists g',
    Grid.set 2 1 (VNumber 9) grid_3_2 = (Ok tt, g')
    /\ Grid.get g' 2 1 = Ok (VNumber 9)
    /\ Grid.get g' 1 1 = Ok (VNumber 0)
    /\ Grid.get g' 7 7 = Ok (VNumber 0).
Proof.
  destruct (set_changes_one_cell grid_3_2 2 1 (VNumber 9) grid_3_2_wf)
    as (g' & Hset & _ & _ & _ & Hget).
  - unfold in_bounds. simpl. lia.
  - exists g'. split; [exact Hset|].
    split; [exact (Hget 2 1)|]. split; [exact (Hget 1 1)|exact (Hget 7 7)].
Defined.

Lemma set_set_witness :
  and_then (Grid.set 2 1 (VNumber 8)) (Grid.set 2 1 (VNumber 9)) grid_3_2
  = Grid.set 2 1 (VNumber 9) grid_3_2
  /\ and_then (Grid.set 2 1 (VNumber 8)) (Grid.set 0 0 (VNumber 9)) grid_3_2
     = and_then (Grid.set 0 0 (VNumber 9)) (Grid.set 2 1 (VNumber 8)) grid_3_2
  /\ Grid.set 1 1 (VNumber 0) grid_3_2 = (Ok tt, grid_3_2).
Proof.
  destruct (set_set grid_3_2 grid_3_2_wf) as (Hsame & Hswap & Hback).
  split; [|split].
  - apply Hsame. unfold in_bounds. simpl. lia.
  - apply Hswap; [unfold in_bounds; simpl; lia|unfold in_bounds; simpl; lia|discriminate].
  - apply Hback; [unfold in_bounds; simpl; lia|reflexivity].
Defined.

Lemma setData_keeps_shape_witness :
  wf (snd (Grid.setData (one_to_six ++ [VNumber 7]) grid_3_2))
  /\ fst (Grid.setData (one_to_six ++ [VNumber 7]) grid_3_2)
     = Throw (GridOutOfBounds 3 2 0 2)
  /\ fst (Grid.setData one_to_six grid_3_2) = Ok tt.
Proof.
  split; [|split].
  - destruct (setData_keeps_shape grid_3_2 (one_to_six ++ [VNumber 7]) grid_3_2_wf)
      as (Hwf & _).
    exact Hwf.
  - destruct (setData_keeps_shape grid_3_2 (one_to_six ++ [VNumber 7]) grid_3_2_wf)
      as (_ & _ & _ & _ & Hthrow).
    apply Hthrow. simpl. lia.
  - destruct (setData_keeps_shape grid_3_2 one_to_six grid_3_2_wf)
      as (_ & _ & _ & Hok & _).
    apply Hok. simpl. lia.
Defined.

Lemma setData_then_setData_witness :
  exists g1 g2,
    Grid.setData one_to_six grid_3_2 = (Ok tt, g1)
    /\ Grid.setData [VNumber 9] g1 = (Ok tt, g2)
    /\ Grid.get g2 0 0 = Ok (VNumber 9)
    /\ Grid.get g2 1 0 = Ok (VNumber 2).
Proof.
  destruct (setData_then_setData grid_3_2 one_to_six [VNumber 9] grid_3_2_wf)
    as (g1 & g2 & Hset1 & Hset2 & Hat & _); [simpl; lia|simpl; lia|].
  exists g1, g2. split; [exact Hset1|]. split; [exact Hset2|].
  split; [exact (Hat 0 ltac:(simpl; lia))|exact (Hat 1 ltac:(simpl; lia))].
Defined.

Lemma grid_3_2_written_wf : wf grid_3_2_written.
Proof. split; [reflexivity|]. repeat constructor. Qed.

Lemma contents_resumes_on_current_grid_witness :
  exists first f rest,
    take_next 2 grid_3_2 (Grid.contents grid_3_2) = (first, f)
    /\ length first = 2%nat
    /\ Grid.drain 5 grid_3_2_written f = Some (Ok rest)
    /\ exists v, rest !! 3%nat = Some (2, 1, v)
                 /\ Grid.get grid_3_2_written 2 1 = Ok v.
Proof.
  destruct (contents_resumes_on_current_grid grid_3_2 grid_3_2_written 2
              grid_3_2_wf grid_3_2_written_wf eq_refl)
    as (first & f & rest & Htake & Hlen & _ & Hdrain & _ & Hrest); [simpl; lia|].
  exists first, f, rest. split; [exact Htake|]. split; [exact Hlen|].
  split; [apply Hdrain; simpl; lia|].
  exact (Hrest 5 ltac:(simpl; lia)).
Defined.

Lemma generator_done_is_final_witness :
  Grid.next grid_3_2 (Grid.AtOuter 3) = (Ok None, Grid.Finished)
  /\ Grid.next grid_3_2_written Grid.Finished = (Ok None, Grid.Finished).
Proof.
  assert (Hnext : Grid.next grid_3_2 (Grid.AtOuter 3) = (Ok None, Grid.Finished))
    by reflexivity.
  split; [exact Hnext|].
  destruct (generator_done_is_final grid_3_2 (Grid.AtOuter 3) Grid.Finished (Ok None)
              Hnext) as [_ Hlater]; [discriminate|].
  apply (Hlater grid_3_2_written 0%nat).
Defined.

Lemma project_parses_iff_witness :
  (exists project,
      snd (OgmoProject no_child (sample_project "tiles") sample_factories None)
      = Ok project)
  /\ (exists layer,
        OgmoProjectApi.layers sample_api !! 1%nat = Some layer
        /\ definition layer = "entity"%string /\ exportID layer = "L2"%string)
  /\ ~ (exists project,
          snd (OgmoProject no_child (sample_project "nope") sample_factories None)
          = Ok project).
Proof.
  split; [|split].
  - destruct (project_parses_iff no_child (sample_project "tiles") sample_factories None)
      as [[_ Hok] _].
    apply Hok. intros i layer Hi.
    destruct i as [|[|[|i]]]; simpl in Hi; try discriminate;
      injection Hi as <-; simpl; auto; discriminate.
  - destruct (project_parses_iff no_child (sample_project "tiles") sample_factories None)
      as (_ & Hkeep & _).
    destruct (Hkeep sample_api sample_api_parsed) as [_ Hlayers].
    destruct (Hlayers 1%nat (EntityLayer sample_entity_layer) eq_refl)
      as (layer & Hl & Hd & _ & He).
    exists layer. auto.
  - destruct (project_parses_iff no_child (sample_project "nope") sample_factories None)
      as [[Hres _] _].
    intros Hok. apply (Hres Hok 0%nat (sample_tile_layer "nope") eq_refl). reflexivity.
Defined.

Lemma level_layer_resolves_by_export_id_witness :
  (exists index eid,
      parse_level_layer sample_api (sample_level_layer "nowhere" 0 0 None) 4
      = Throw (UnresolvedLayer index eid))
  /\ exists found,
       layer_exported (OgmoProjectApi.layers sample_api) "L2" = Some found
       /\ definition found = "entity"%string.
Proof.
  split.
  - destruct (level_layer_resolves_by_export_id no_child (sample_project "tiles")
                sample_factories None sample_api
                (sample_level_layer "nowhere" 0 0 None) 4 sample_api_parsed)
      as [[_ Hnone] _].
    apply Hnone. intros i raw Hi.
    destruct i as [|[|[|i]]]; simpl in Hi; try discriminate;
      injection Hi as <-; discriminate.
  - destruct (level_layer_resolves_by_export_id no_child (sample_project "tiles")
                sample_factories None sample_api
                (sample_level_layer "L2" 0 0 None) 0 sample_api_parsed)
      as [_ Hfirst].
    destruct (Hfirst 1%nat (EntityLayer sample_entity_layer) eq_refl eq_refl)
      as (found & _ & Hexp & Hd & _).
    + intros j earlier Hj Hearlier.
      destruct j as [|j]; [|lia]. injection Hearlier as <-. discriminate.
    + exists found. split; [exact Hexp|exact Hd].
Defined.

Lemma level_grid_holds_flat_data_witness :
  exists pl grid,
    parse_level_layer sample_api (sample_level_layer "L1" 3 2 (Some one_to_six)) 0
    = Ok (LevelTile pl grid)
    /\ Grid.get grid 1 1 = Ok (VNumber 5).
Proof.
  destruct (level_grid_holds_flat_data sample_api
              (sample_level_layer "L1" 3 2 (Some one_to_six)) 0) as [Htile _].
  eexists. eexists.
  match goal with
  | |- ?parse = Ok (LevelTile ?pl ?grid) /\ _ =>
      assert (Hparse : parse = Ok (LevelTile pl grid)) by reflexivity
  end.
  split; [exact Hparse|].
  destruct (Htile _ _ Hparse) as (items & Hitems & _ & _ & _ & _ & Hput & _).
  injection Hitems as <-.
  exact (Hput 4 ltac:(simpl; lia)).
Defined.

Lemma level_parse_failure_has_no_effects_witness :
  exists e,
    OgmoLevel no_child sample_api level_overfull_then_unmatched
    = ([UseType "Ogmo.Level"], Throw e).
Proof.
  apply (level_parse_failure_has_no_effects no_child sample_api
           level_overfull_then_unmatched).
  exists 1%nat, (sample_level_layer "nowhere" 0 0 None). eexists.
  split; reflexivity.
Defined.

Lemma layers_realized_under_their_names_witness :
  exists log level,
    OgmoLevel no_child sample_api level_with_player = (log, Ok level)
    /\ entity_names (all_calls log) = ["ground"; "actors"; "player"]%string.
Proof.
  eexists. eexists.
  match goal with
  | |- ?run = (?log, Ok ?level) /\ _ =>
      assert (Hrun : run = (log, Ok level)) by reflexivity
  end.
  split; [exact Hrun|].
  etransitivity.
  - exact (layers_realized_under_their_names no_child (sample_project "tiles")
             sample_factories None sample_api level_with_player _ _
             sample_api_parsed Hrun).
  - reflexivity.
Defined.

Lemma label_size_tracks_text_witness :
  let label :=
    Label.run sample_font [Label.Assign "ab"; Label.Frame]
              (Label.new None sample_font) in
  Label.get_text label = "ab"%string
  /\ Label.size label = measured sample_font "ab"
  /\ Label.draw sample_font label None (Some 3%R) = [Label.DrawText "ab" 0 3].
Proof.
  destruct (label_size_tracks_text sample_font None [Label.Assign "ab"; Label.Frame])
    as (Htext & Hsize & Hdraw).
  split; [exact Htext|]. split; [|exact (Hdraw None (Some 3%R))].
  etransitivity; [exact Hsize|reflexivity].
Defined.

Lemma level_components_witness :
  (exists log level pl grid,
      OgmoLevel no_child sample_api level_with_decal = (log, Ok level)
      /\ components (all_calls log)
         = tile_components pl grid ++ decal_components sample_decal)
  /\ exists log level pl grid,
       OgmoLevel no_child (sample_api_with (Some picture_factory)) level_with_decal
       = (log, Ok level)
       /\ components (all_calls log)
          = tile_components pl grid ++ [Image "bush.png"].
Proof.
  split.
  - eexists. eexists.
    match goal with
    | |- exists pl grid, ?run = (?log, Ok ?level) /\ _ =>
        assert (Hrun : run = (log, Ok level)) by reflexivity
    end.
    eexists. eexists. split; [exact Hrun|].
    etransitivity.
    + exact (level_components no_child (sample_project "tiles") sample_factories None
               sample_api level_with_decal _ _ sample_api_parsed Hrun).
    + reflexivity.
  - eexists. eexists.
    match goal with
    | |- exists pl grid, ?run = (?log, Ok ?level) /\ _ =>
        assert (Hrun : run = (log, Ok level)) by reflexivity
    end.
    eexists. eexists. split; [exact Hrun|].
    etransitivity.
    + exact (level_components no_child (sample_project "tiles") sample_factories
               (Some picture_factory) (sample_api_with (Some picture_factory))
               level_with_decal _ _
               (sample_api_with_parsed (Some picture_factory)) Hrun).
    + reflexivity.
Defined.
